(** * FIFO capital-gains engine of the beleggen calculator (src/app.py)

    A shallow embedding of the lot-accounting and tax functions of
    [src/app.py] together with the properties the specification states
    about them.

    Numbers.  The Python code computes with [int] and [float] values; the
    embedding uses exact rationals [Q] for every quantity, price and
    amount, so [+], [-], [*] and [/] are the exact operations and the
    comparisons are the exact orders.  [int(x)] is truncation toward zero
    and yields a [Z].  Python's [None] is [None] of an [option].

    Rounding.  Python's floats are binary64 doubles, and the exact
    embedding is the program only where no operation rounds.  A property
    that holds by the control flow, or by the code's own operations taken
    one at a time, is stated for all numbers; a property that rounding can
    break is stated for amounts the program computes exactly (whole
    numbers below 2^53, see [whole_lots] and [exact_sale]).  Where the
    program rounds, the module [Double] evaluates the resolver on doubles.
    Infinities and NaN are not numbers of the embedding.

    Objects.  A lot is a Python [dict] with the keys ['date'],
    ['quantity'], ['price'] and (optionally) ['remaining'].  The functions
    are given twice: first on the list of lot records, by value, and then
    with the lot objects in a store and the ledger a list of references,
    to follow the copies and the in-place updates of the planners.  The
    two are related in the section on the caller's ledger.

    Exceptions.  A function that can raise returns a [result]. *)

From Stdlib Require Import String.
From stdpp Require Import base list.
From Stdlib Require Import ZArith QArith Qround Qpower Lqa Lia.
From Stdlib Require PrimFloat FloatOps Uint63.

#[local] Open Scope Q_scope.

(** ** Python primitives on exact numbers *)

Definition Qleb (x y : Q) : bool := Qle_bool x y.
Definition Qltb (x y : Q) : bool := negb (Qle_bool y x).

(** [min(a, b)] returns [a] unless [b < a]; [max(a, b)] returns [a]
    unless [b > a]. *)
Definition py_min (a b : Q) : Q := if Qltb b a then b else a.
Definition py_max (a b : Q) : Q := if Qltb a b then b else a.

(** [int(x)]: truncation toward zero. *)
Definition py_int (x : Q) : Z := Z.quot (Qnum x) (Zpos (Qden x)).

(** ** Tax constants *)

Definition BASE_LIMIT : Q := 10000.
Definition BUFFER_ZONE : Q := 1000.
Definition TAX_RATE : Q := 1 # 10.

(** ** Lots *)

(** One purchase lot; ['remaining'] may be absent from the dict. *)
Record lot : Type := mkLot {
  date : string;
  quantity : Q;
  price : Q;
  remaining : option Q
}.

(** [lot.get('remaining', lot['quantity'])] *)
Definition lot_available (l : lot) : Q :=
  match remaining l with
  | Some r => r
  | None => quantity l
  end.

(** One record of the consumption breakdown. *)
Record lot_used : Type := mkUsed {
  used_date : string;
  used_quantity : Q;
  used_price : Q
}.

(** ** FIFO resolver *)

(** The [for lot in lots] loop of [calculate_fifo_cost_basis], carrying
    the three locals [cost], [remaining] and [lots_used]. *)
Fixpoint fifo_loop (lots : list lot) (cost rem : Q) (lots_used : list lot_used)
  : Q * Q * list lot_used :=
  match lots with
  | [] => (cost, rem, lots_used)
  | l :: rest =>
      if Qleb rem 0 then (cost, rem, lots_used)
      else
        let available := lot_available l in
        if Qleb available 0 then fifo_loop rest cost rem lots_used
        else
          let use := py_min rem available in
          fifo_loop rest (cost + use * price l) (rem - use)
            (lots_used ++ [mkUsed (date l) use (price l)])
  end.

(** [calculate_fifo_cost_basis(lots, quantity)]: the pair
    [(total_cost, lots_used)], or [(None, [])] when the lots do not cover
    the quantity. *)
Definition calculate_fifo_cost_basis (lots : list lot) (qty : Q)
  : option Q * list lot_used :=
  let '(cost, rem, lots_used) := fifo_loop lots 0 qty [] in
  if Qltb 0 rem then (None, []) else (Some cost, lots_used).

(** [get_total_available(lots)] *)
Definition get_total_available (lots : list lot) : Q :=
  fold_left (fun acc l => acc + lot_available l) lots 0.

(** [get_total_cost(lots)] *)
Definition get_total_cost (lots : list lot) : Q :=
  fold_left (fun acc l => acc + lot_available l * price l) lots 0.

(** [calculate_gain(lots, quantity, sale_price)] *)
Definition calculate_gain (lots : list lot) (qty sale_price : Q) : option Q :=
  match fst (calculate_fifo_cost_basis lots qty) with
  | None => None
  | Some cost => Some (qty * sale_price - cost)
  end.

(** ** Quantity optimizer *)

(** The locals of the binary search in [max_sellable_for_gain]. *)
Record search : Type := mkSearch {
  low : Q;
  high : Q;
  best_n : Q;
  best_gain : Q
}.

(** One pass through the body of [for _ in range(100)]; [None] is the
    [break]. *)
Definition bisect_step (lots : list lot) (sale_price target_gain : Q) (s : search)
  : option search :=
  if Qltb (high s - low s) (1 # 2) then None
  else
    let mid := (low s + high s) / 2 in
    match calculate_gain lots mid sale_price with
    | None => Some (mkSearch (low s) mid (best_n s) (best_gain s))
    | Some gain =>
        if Qleb gain target_gain
        then Some (mkSearch mid (high s) mid gain)
        else Some (mkSearch (low s) mid (best_n s) (best_gain s))
    end.

Fixpoint bisect (fuel : nat) (lots : list lot) (sale_price target_gain : Q) (s : search)
  : search :=
  match fuel with
  | O => s
  | S fuel' =>
      match bisect_step lots sale_price target_gain s with
      | None => s
      | Some s' => bisect fuel' lots sale_price target_gain s'
      end
  end.

(** [max_sellable_for_gain(lots, sale_price, target_gain)]: the pair
    [(units, gain)]; the second component is [None] when the final
    [calculate_gain] call returns [None]. *)
Definition max_sellable_for_gain (lots : list lot) (sale_price target_gain : Q)
  : Z * option Q :=
  let total_available := get_total_available lots in
  if Qeq_bool total_available 0 then (0%Z, Some 0)
  else
    let gain_all := calculate_gain lots total_available sale_price in
    let search_result :=
      let s := bisect 100 lots sale_price target_gain
                 (mkSearch 0 total_available 0 0) in
      let n := py_int (best_n s) in
      if (0 <? n)%Z
      then (n, calculate_gain lots (inject_Z n) sale_price)
      else (n, Some (best_gain s)) in
    match gain_all with
    | Some g =>
        if Qleb g target_gain then (py_int total_available, Some g)
        else search_result
    | None => search_result
    end.

(** ** Tax rules *)

(** [calculate_tax(gain, yearly_limit)]: the pair [(taxable, tax)]. *)
Definition calculate_tax (gain yearly_limit : Q) : Q * Q :=
  if Qleb gain yearly_limit then (0, 0)
  else
    let taxable := gain - yearly_limit in
    let tax := taxable * TAX_RATE in
    (taxable, tax).

(** [calculate_tax_with_buffer(gain, buffer_available)]: the tuple
    [(taxable, tax, buffer_used, buffer_remaining)]. *)
Definition calculate_tax_with_buffer (gain buffer_available : Q) : Q * Q * Q * Q :=
  if Qleb gain BASE_LIMIT then (0, 0, 0, buffer_available)
  else
    let excess := gain - BASE_LIMIT in
    if Qleb excess buffer_available
    then (0, 0, excess, buffer_available - excess)
    else
      let taxable := excess in
      let tax := taxable * TAX_RATE in
      let buffer_remaining :=
        if Qleb BUFFER_ZONE tax then 0 else BUFFER_ZONE - excess in
      (taxable, tax, excess, py_max 0 buffer_remaining).

(** ** Exceptions *)

Inductive py_exn : Type :=
| ZeroDivisionError
| TypeError.

Inductive result (A : Type) : Type :=
| Ok (a : A)
| Raise (e : py_exn).

Arguments Ok {A} a.
Arguments Raise {A} e.

#[global] Instance result_ret : MRet result := fun A a => Ok a.

#[global] Instance result_bind : MBind result := fun A B k r =>
  match r with
  | Ok a => k a
  | Raise e => Raise e
  end.

(** Python's true division [a / b]. *)
Definition py_div (a b : Q) : result Q :=
  if Qeq_bool b 0 then Raise ZeroDivisionError else Ok (a / b).

(** ** Revenue targeter *)

(** [shares_for_target_revenue(lots, sale_price, target_revenue)]: the
    tuple [(shares, actual_revenue, gain, cost_basis)]. *)
Definition shares_for_target_revenue (lots : list lot) (sale_price target_revenue : Q)
  : result (Z * Q * Q * Q) :=
  shares_needed ← py_div target_revenue sale_price;
  let total_available := get_total_available lots in
  let shares_needed :=
    if Qltb total_available shares_needed then total_available else shares_needed in
  let shares_needed := py_int shares_needed in
  if (shares_needed <=? 0)%Z then Ok (0%Z, 0, 0, 0)
  else
    match fst (calculate_fifo_cost_basis lots (inject_Z shares_needed)) with
    | None => Ok (0%Z, 0, 0, 0)
    | Some cost =>
        let actual_revenue := inject_Z shares_needed * sale_price in
        let gain := actual_revenue - cost in
        Ok (shares_needed, actual_revenue, gain, cost)
    end.

(** ** Multi-year planning *)

(** One entry of a plan; the zero-activity entries have no
    ['cost_basis'] key. *)
Record plan_entry : Type := mkEntry {
  e_year : nat;
  e_price : Q;
  e_limit : Q;
  e_units : Z;
  e_revenue : Q;
  e_cost_basis : option Q;
  e_gain : Q;
  e_taxable : Q;
  e_tax : Q;
  e_net : Q;
  e_remaining : Q;
  e_cumulative_sold : Z;
  e_cumulative_revenue : Q;
  e_cumulative_tax : Q
}.

(** The state a planner carries from year to year: the working lots and
    the three running totals. *)
Record planner : Type := mkPlanner {
  remaining_lots : list lot;
  total_sold : Z;
  total_revenue : Q;
  total_tax : Q
}.

Definition set_remaining (l : lot) (r : Q) : lot :=
  mkLot (date l) (quantity l) (price l) (Some r).

(** [if 'remaining' not in lot: lot['remaining'] = lot['quantity']] *)
Definition default_remaining (l : lot) : lot :=
  match remaining l with
  | Some _ => l
  | None => set_remaining l (quantity l)
  end.

(** The planners' first statements: copy every lot, default the missing
    ['remaining'] keys, zero the totals. *)
Definition planner_init (lots : list lot) : planner :=
  mkPlanner (map default_remaining lots) 0 0 0.

(** [sale_price * ((1 + price_increase) ** year)].  Python's [**] raises
    [OverflowError] when the power is beyond the largest double (about
    1.8e308, which 5% a year reaches after some 14,500 years); the
    embedding takes the power to be a number. *)
Definition current_price (sale_price price_increase : Q) (year : nat) : Q :=
  sale_price * (1 + price_increase) ^ Z.of_nat year.

(** The inner [for lot in remaining_lots] loop that books a sale of
    [to_sell] units on the working lots; returns the updated lots and
    [cost_basis]. *)
Fixpoint sell_loop (lots : list lot) (to_sell cost_basis : Q) : list lot * Q :=
  match lots with
  | [] => ([], cost_basis)
  | l :: rest =>
      if Qleb to_sell 0 then (lots, cost_basis)
      else
        let avail := match remaining l with Some r => r | None => 0 end in
        if Qleb avail 0 then
          let '(rest', c) := sell_loop rest to_sell cost_basis in (l :: rest', c)
        else
          let use := py_min to_sell avail in
          let '(rest', c) :=
            sell_loop rest (to_sell - use) (cost_basis + use * price l) in
          (set_remaining l (avail - use) :: rest', c)
  end.

(** The entry appended when nothing is sold in a year. *)
Definition idle_entry (year : nat) (cur_price left : Q) (st : planner) : plan_entry :=
  mkEntry (year + 1) cur_price BASE_LIMIT 0 0 None 0 0 0 0 left
    (total_sold st) (total_revenue st) (total_tax st).

(** The entry appended after a sale, and the state after it. *)
Definition sold_step (year : nat) (cur_price : Q) (units : Z) (gain : Q)
    (lots' : list lot) (cost_basis : Q) (st : planner) : plan_entry * planner :=
  let revenue := inject_Z units * cur_price in
  let '(taxable, tax) := calculate_tax gain BASE_LIMIT in
  let net := revenue - tax in
  let sold := (total_sold st + units)%Z in
  let rev := total_revenue st + revenue in
  let tx := total_tax st + tax in
  (mkEntry (year + 1) cur_price BASE_LIMIT units revenue (Some cost_basis)
     gain taxable tax net (get_total_available lots') sold rev tx,
   mkPlanner lots' sold rev tx).

(** Body of the year loop of [plan_multi_year_sales]. *)
Definition multi_year_step (sale_price price_increase : Q) (year : nat) (st : planner)
  : result (plan_entry * planner) :=
  let cur_price := current_price sale_price price_increase year in
  let available := get_total_available (remaining_lots st) in
  if Qleb available 0 then Ok (idle_entry year cur_price 0 st, st)
  else
    let '(units, gain) :=
      max_sellable_for_gain (remaining_lots st) cur_price BASE_LIMIT in
    if (0 <? units)%Z then
      let '(lots', cost_basis) := sell_loop (remaining_lots st) (inject_Z units) 0 in
      match gain with
      | None => Raise TypeError
      | Some g => Ok (sold_step year cur_price units g lots' cost_basis st)
      end
    else Ok (idle_entry year cur_price available st, st).

(** Body of the year loop of [plan_full_extraction]. *)
Definition full_extraction_step (sale_price price_increase : Q) (years year : nat)
    (st : planner) : result (plan_entry * planner) :=
  let cur_price := current_price sale_price price_increase year in
  let available := get_total_available (remaining_lots st) in
  if Qleb available 0 then Ok (idle_entry year cur_price 0 st, st)
  else
    let is_last_year := Nat.eqb year (years - 1) in
    let units :=
      if is_last_year then py_int available
      else fst (max_sellable_for_gain (remaining_lots st) cur_price BASE_LIMIT) in
    if (0 <? units)%Z then
      let '(lots', cost_basis) := sell_loop (remaining_lots st) (inject_Z units) 0 in
      let revenue := inject_Z units * cur_price in
      let gain := revenue - cost_basis in
      Ok (sold_step year cur_price units gain lots' cost_basis st)
    else Ok (idle_entry year cur_price available st, st).

(** [for year in range(years)] with the plan built by [append]. *)
Fixpoint plan_loop (step : nat -> planner -> result (plan_entry * planner))
    (years : list nat) (st : planner) (plan : list plan_entry)
  : result (list plan_entry * planner) :=
  match years with
  | [] => Ok (plan, st)
  | year :: rest =>
      r ← step year st;
      plan_loop step rest r.2 (plan ++ [r.1])
  end.

(** [plan_multi_year_sales(lots, sale_price, years, price_increase)] *)
Definition plan_multi_year_sales (lots : list lot) (sale_price : Q) (years : nat)
    (price_increase : Q) : result (list plan_entry) :=
  r ← plan_loop (multi_year_step sale_price price_increase) (seq 0 years)
        (planner_init lots) [];
  Ok r.1.

(** [plan_full_extraction(lots, sale_price, years, price_increase)] *)
Definition plan_full_extraction (lots : list lot) (sale_price : Q) (years : nat)
    (price_increase : Q) : result (list plan_entry) :=
  r ← plan_loop (full_extraction_step sale_price price_increase years) (seq 0 years)
        (planner_init lots) [];
  Ok r.1.

(** ** Yearly limits *)

(** [calculate_yearly_limits(years)]: one [{'year': y + 1, 'limit':
    BASE_LIMIT}] per year, here a pair. *)
Definition calculate_yearly_limits (years : nat) : list (nat * Q) :=
  map (fun y => ((y + 1)%nat, BASE_LIMIT)) (seq 0 years).

(** ** Adding a purchase to the ledger *)

(** [lots.sort(key=lambda x: x['date'])].  Python's sort is stable and
    compares the date strings code point by code point, which for strings
    held as UTF-8 byte sequences is the order of [String.leb]; the list it
    produces is the one of the stable insertion sort below. *)
Fixpoint insert_by_date (l : lot) (later : list lot) : list lot :=
  match later with
  | [] => [l]
  | l' :: rest =>
      if String.leb (date l) (date l') then l :: l' :: rest
      else l' :: insert_by_date l rest
  end.

Fixpoint sort_by_date (lots : list lot) : list lot :=
  match lots with
  | [] => []
  | l :: rest => insert_by_date l (sort_by_date rest)
  end.

(** What [float(text)] gives for the text of a form field: a number, or
    one of the other values [float] accepts, ['inf'], ['-inf'] and
    ['nan']. *)
Inductive form_number : Type :=
  | Finite (q : Q)
  | PlusInfinity
  | MinusInfinity
  | NaN.

(** [x <= 0]: false for NaN, as every comparison with NaN is. *)
Definition not_positive (x : form_number) : bool :=
  match x with
  | Finite q => Qleb q 0
  | MinusInfinity => true
  | PlusInfinity => false
  | NaN => false
  end.

(** How [add_lot] leaves the ledger of the asset: a new ledger is stored;
    or a lot is stored whose quantity or price is an infinity or NaN, which
    no lot record of this embedding stands for; or the request is turned
    down with the ledger as it was, either because a number is not
    positive or because [float] raised [ValueError]. *)
Inductive add_lot_outcome : Type :=
  | Stored (lots : list lot)
  | StoredNonFinite
  | NotPositive
  | InvalidInput.

(** The ledger part of the route [add_lot], after the access check.
    [lots] is [asset.get_lots()]; [amount_only] is
    [request.form.get('amount_only') == 'true']; the three number fields
    are the results of [float(request.form.get(..., 0))], with [None] for
    a text that [float] rejects; [date_field] is the form's date or
    today's. *)
Definition add_lot (lots : list lot) (amount_only : bool)
    (amount_field quantity_field price_field : option form_number)
    (date_field : string) : add_lot_outcome :=
  let store (quantity price : form_number) :=
    match quantity, price with
    | Finite q, Finite p =>
        Stored (sort_by_date (lots ++ [mkLot date_field q p (Some q)]))
    | _, _ => StoredNonFinite
    end in
  if amount_only then
    match amount_field with
    | None => InvalidInput
    | Some amount =>
        if not_positive amount then NotPositive else store (Finite 1) amount
    end
  else
    match quantity_field with
    | None => InvalidInput
    | Some quantity =>
        match price_field with
        | None => InvalidInput
        | Some price =>
            if not_positive quantity || not_positive price then NotPositive
            else store quantity price
        end
    end.

(** ** The calculation endpoint *)

(** One scenario of the response of [api_calculate].  The cost basis and
    the gain of the first scenario are stored as the engine returns them,
    [None] included; the other scenarios compute with them. *)
Record scenario : Type := mkScenario {
  s_units : Z;
  s_cost_basis : option Q;
  s_revenue : Q;
  s_gain : option Q;
  s_taxable : Q;
  s_tax : Q;
  s_net : Q
}.

(** The [results] dict; a scenario that was not added is [None]. *)
Record calculation : Type := mkCalculation {
  c_total_available : Z;
  c_total_cost : Q;
  c_sale_price : Q;
  c_yearly_limit : Q;
  c_tax_rate : Q;
  within_limit : option scenario;
  sell_all : option scenario;
  custom_quantity : option scenario;
  target_revenue_scenario : option scenario
}.

(** The response: the 400 error when no units are available, or the
    results. *)
Inductive response : Type :=
  | NoShares
  | Calculated (c : calculation).

(** [revenue - cost] with the cost the resolver returned; subtracting
    [None] raises [TypeError]. *)
Definition minus_cost (revenue : Q) (cost : option Q) : result Q :=
  match cost with
  | Some c => Ok (revenue - c)
  | None => Raise TypeError
  end.

(** The calculating part of the route [api_calculate], after the access
    check.  [lots] is [asset.get_lots()]; [sale_price] and [yearly_limit]
    are the results of [float(...)]; [quantity] and [target_revenue] are
    [data.get(...)], a number or [None]. *)
Definition api_calculate (lots : list lot) (sale_price : Q)
    (quantity target_revenue : option Q) (yearly_limit : Q) : result response :=
  let total_available := get_total_available lots in
  let total_cost := get_total_cost lots in
  if Qeq_bool total_available 0 then Ok NoShares
  else
    let '(max_units, max_gain) :=
      max_sellable_for_gain lots sale_price yearly_limit in
    let within :=
      if (0 <? max_units)%Z then
        let cost := fst (calculate_fifo_cost_basis lots (inject_Z max_units)) in
        let revenue := inject_Z max_units * sale_price in
        Some (mkScenario max_units cost revenue max_gain 0 0 revenue)
      else None in
    all ←
      (if Qltb 0 total_available then
         let cost_all := fst (calculate_fifo_cost_basis lots total_available) in
         let revenue_all := total_available * sale_price in
         gain_all ← minus_cost revenue_all cost_all;
         let '(taxable_all, tax_all) := calculate_tax gain_all yearly_limit in
         Ok (Some (mkScenario (py_int total_available) cost_all revenue_all
                     (Some gain_all) taxable_all tax_all
                     (revenue_all - tax_all)))
       else Ok None);
    custom ←
      match quantity with
      | Some q =>
          if negb (Qeq_bool q 0) && Qltb 0 q && Qleb q total_available then
            let units := py_int q in
            let cost_q := fst (calculate_fifo_cost_basis lots (inject_Z units)) in
            let revenue_q := inject_Z units * sale_price in
            gain_q ← minus_cost revenue_q cost_q;
            let '(taxable_q, tax_q) := calculate_tax gain_q yearly_limit in
            Ok (Some (mkScenario units cost_q revenue_q (Some gain_q)
                        taxable_q tax_q (revenue_q - tax_q)))
          else Ok None
      | None => Ok None
      end;
    target ←
      match target_revenue with
      | Some t =>
          if negb (Qeq_bool t 0) && Qltb 0 t then
            '(units_rev, actual_rev, gain_rev, cost_rev) ←
              shares_for_target_revenue lots sale_price t;
            if (0 <? units_rev)%Z then
              let '(taxable_rev, tax_rev) := calculate_tax gain_rev yearly_limit in
              Ok (Some (mkScenario units_rev (Some cost_rev) actual_rev
                          (Some gain_rev) taxable_rev tax_rev
                          (actual_rev - tax_rev)))
            else Ok None
          else Ok None
      | None => Ok None
      end;
    Ok (Calculated
          (mkCalculation (py_int total_available) total_cost sale_price
             yearly_limit TAX_RATE within all custom target)).

(** * The resolver on binary64 doubles

    Python's floats are binary64 doubles and every operation on them
    rounds.  The definitions above compute exactly; here the resolver is
    given once more on doubles (Rocq's primitive floats, whose operations
    are those of the machine), to evaluate the program where it rounds.
    The ledger is read as the program reads it: a decimal such as [0.1] is
    the double nearest to it. *)
Module Double.
Import PrimFloat.
#[local] Open Scope float_scope.

Record lot : Type := mkLot {
  date : string;
  quantity : float;
  price : float;
  remaining : option float
}.

(** [lot.get('remaining', lot['quantity'])] *)
Definition lot_available (l : lot) : float :=
  match remaining l with
  | Some r => r
  | None => quantity l
  end.

Record lot_used : Type := mkUsed {
  used_date : string;
  used_quantity : float;
  used_price : float
}.

(** [min(a, b)]: [b] when [b < a], else [a]. *)
Definition py_min (a b : float) : float := if b <? a then b else a.

(** The [for lot in lots] loop of [calculate_fifo_cost_basis]. *)
Fixpoint fifo_loop (lots : list lot) (cost rem : float) (lots_used : list lot_used)
  : float * float * list lot_used :=
  match lots with
  | [] => (cost, rem, lots_used)
  | l :: rest =>
      if rem <=? 0 then (cost, rem, lots_used)
      else
        let available := lot_available l in
        if available <=? 0 then fifo_loop rest cost rem lots_used
        else
          let use := py_min rem available in
          fifo_loop rest (cost + use * price l) (rem - use)
            (lots_used ++ [mkUsed (date l) use (price l)])
  end.

(** [calculate_fifo_cost_basis(lots, quantity)] *)
Definition calculate_fifo_cost_basis (lots : list lot) (qty : float)
  : option float * list lot_used :=
  let '(cost, rem, lots_used) := fifo_loop lots 0 qty [] in
  if 0 <? rem then (None, []) else (Some cost, lots_used).

(** [calculate_gain(lots, quantity, sale_price)] *)
Definition calculate_gain (lots : list lot) (qty sale_price : float)
  : option float :=
  match fst (calculate_fifo_cost_basis lots qty) with
  | None => None
  | Some cost => Some (qty * sale_price - cost)
  end.

(** The decimal [n / d] as Python reads it: the double nearest to the
    quotient, for [n] and [d] below 2^53. *)
Definition decimal (n d : Z) : float :=
  of_uint63 (Uint63.of_Z n) / of_uint63 (Uint63.of_Z d).

(** The rational number a finite double stands for. *)
Definition exact (x : float) : Q :=
  match FloatOps.Prim2SF x with
  | SpecFloat.S754_finite s m e =>
      ((if s then -1 else 1) * (inject_Z (Zpos m) * Qpower 2 e))%Q
  | _ => 0%Q
  end.
End Double.

(** * The lots as objects in a store

    The functions above take the ledger by value.  In the program a ledger
    is a list of references to [dict] objects, [lot.copy()] allocates a new
    object, and [lot['remaining'] -= use] updates an object in place.  Here
    the objects live in a store, a ledger is the list of their addresses,
    and each function returns the store it leaves behind.  A reference
    always denotes an object; reading an address outside the store yields
    an arbitrary lot, which no statement below relies on. *)

#[global] Instance lot_inhabited : Inhabited lot :=
  populate (mkLot EmptyString 0 0 None).

(** What a ledger denotes in a store. *)
Definition snapshot (h : list lot) (refs : list nat) : list lot :=
  map (fun a => h !!! a) refs.

(** [calculate_fifo_cost_basis] on references: every iteration reads the
    lot it visits from the store. *)
Fixpoint fifo_loop_h (lots : list nat) (cost rem : Q) (lots_used : list lot_used)
    (h : list lot) : Q * Q * list lot_used * list lot :=
  match lots with
  | [] => (cost, rem, lots_used, h)
  | a :: rest =>
      if Qleb rem 0 then (cost, rem, lots_used, h)
      else
        let l := h !!! a in
        let available := lot_available l in
        if Qleb available 0 then fifo_loop_h rest cost rem lots_used h
        else
          let use := py_min rem available in
          fifo_loop_h rest (cost + use * price l) (rem - use)
            (lots_used ++ [mkUsed (date l) use (price l)]) h
  end.

Definition calculate_fifo_cost_basis_h (lots : list nat) (qty : Q) (h : list lot)
  : (option Q * list lot_used) * list lot :=
  let '(cost, rem, lots_used, h') := fifo_loop_h lots 0 qty [] h in
  if Qltb 0 rem then ((None, []), h') else ((Some cost, lots_used), h').

(** [[lot.copy() for lot in lots]]: one new object per element, in order. *)
Fixpoint copy_lots (lots : list nat) (h : list lot) : list nat * list lot :=
  match lots with
  | [] => ([], h)
  | a :: rest =>
      let copy := h !!! a in
      let '(refs, h') := copy_lots rest (h ++ [copy]) in
      (length h :: refs, h')
  end.

(** [for lot in remaining_lots: if 'remaining' not in lot: ...] *)
Fixpoint default_remaining_h (refs : list nat) (h : list lot) : list lot :=
  match refs with
  | [] => h
  | a :: rest =>
      let l := h !!! a in
      match remaining l with
      | Some _ => default_remaining_h rest h
      | None => default_remaining_h rest (<[a := set_remaining l (quantity l)]> h)
      end
  end.

(** The planners' sale loop, updating the working lots in place; returns
    [cost_basis] and the store. *)
Fixpoint sell_loop_h (refs : list nat) (to_sell cost_basis : Q) (h : list lot)
  : Q * list lot :=
  match refs with
  | [] => (cost_basis, h)
  | a :: rest =>
      if Qleb to_sell 0 then (cost_basis, h)
      else
        let l := h !!! a in
        let avail := match remaining l with Some r => r | None => 0 end in
        if Qleb avail 0 then sell_loop_h rest to_sell cost_basis h
        else
          let use := py_min to_sell avail in
          sell_loop_h rest (to_sell - use) (cost_basis + use * price l)
            (<[a := set_remaining l (avail - use)]> h)
  end.

(** A planner's locals, with the working lots by reference, and the
    store. *)
Record planner_h : Type := mkPlannerH {
  store_of : list lot;
  lot_refs : list nat;
  sold_h : Z;
  revenue_h : Q;
  tax_h : Q
}.

(** The same state with the working lots read out of the store. *)
Definition view (s : planner_h) : planner :=
  mkPlanner (snapshot (store_of s) (lot_refs s)) (sold_h s) (revenue_h s) (tax_h s).

Definition planner_init_h (lots : list nat) (h : list lot) : planner_h :=
  let '(refs, h1) := copy_lots lots h in
  mkPlannerH (default_remaining_h refs h1) refs 0 0 0.

(** The state after a sale: the store the sale loop left and the totals
    that [sold_step] computed. *)
Definition after_sale (s : planner_h) (h' : list lot) (st' : planner) : planner_h :=
  mkPlannerH h' (lot_refs s) (total_sold st') (total_revenue st') (total_tax st').

(** Body of the year loop of [plan_multi_year_sales], on the store.  The
    calls [get_total_available] and [max_sellable_for_gain] only read the
    working lots. *)
Definition multi_year_step_h (sale_price price_increase : Q) (year : nat)
    (s : planner_h) : result plan_entry * planner_h :=
  let cur_price := current_price sale_price price_increase year in
  let lots := snapshot (store_of s) (lot_refs s) in
  let available := get_total_available lots in
  if Qleb available 0 then (Ok (idle_entry year cur_price 0 (view s)), s)
  else
    let '(units, gain) := max_sellable_for_gain lots cur_price BASE_LIMIT in
    if (0 <? units)%Z then
      let '(cost_basis, h') :=
        sell_loop_h (lot_refs s) (inject_Z units) 0 (store_of s) in
      match gain with
      | None => (Raise TypeError, after_sale s h' (view s))
      | Some g =>
          let '(e, st') :=
            sold_step year cur_price units g (snapshot h' (lot_refs s))
              cost_basis (view s) in
          (Ok e, after_sale s h' st')
      end
    else (Ok (idle_entry year cur_price available (view s)), s).

(** Body of the year loop of [plan_full_extraction], on the store. *)
Definition full_extraction_step_h (sale_price price_increase : Q)
    (years year : nat) (s : planner_h) : result plan_entry * planner_h :=
  let cur_price := current_price sale_price price_increase year in
  let lots := snapshot (store_of s) (lot_refs s) in
  let available := get_total_available lots in
  if Qleb available 0 then (Ok (idle_entry year cur_price 0 (view s)), s)
  else
    let is_last_year := Nat.eqb year (years - 1) in
    let units :=
      if is_last_year then py_int available
      else fst (max_sellable_for_gain lots cur_price BASE_LIMIT) in
    if (0 <? units)%Z then
      let '(cost_basis, h') :=
        sell_loop_h (lot_refs s) (inject_Z units) 0 (store_of s) in
      let revenue := inject_Z units * cur_price in
      let gain := revenue - cost_basis in
      let '(e, st') :=
        sold_step year cur_price units gain (snapshot h' (lot_refs s))
          cost_basis (view s) in
      (Ok e, after_sale s h' st')
    else (Ok (idle_entry year cur_price available (view s)), s).

(** The year loop on the store; an exception leaves the store as it is at
    that point. *)
Fixpoint plan_loop_h (step : nat -> planner_h -> result plan_entry * planner_h)
    (years : list nat) (s : planner_h) (plan : list plan_entry)
  : result (list plan_entry) * list lot :=
  match years with
  | [] => (Ok plan, store_of s)
  | year :: rest =>
      match step year s with
      | (Ok e, s') => plan_loop_h step rest s' (plan ++ [e])
      | (Raise err, s') => (Raise err, store_of s')
      end
  end.

(** The planners called with the ledger by reference: the plan (or the
    exception) and the store after the call. *)
Definition plan_multi_year_sales_h (lots : list nat) (sale_price : Q) (years : nat)
    (price_increase : Q) (h : list lot) : result (list plan_entry) * list lot :=
  plan_loop_h (multi_year_step_h sale_price price_increase) (seq 0 years)
    (planner_init_h lots h) [].

Definition plan_full_extraction_h (lots : list nat) (sale_price : Q) (years : nat)
    (price_increase : Q) (h : list lot) : result (list plan_entry) * list lot :=
  plan_loop_h (full_extraction_step_h sale_price price_increase years) (seq 0 years)
    (planner_init_h lots h) [].

(** Every address of [h] still holds the same object in [h']. *)
Definition preserved (h h' : list lot) : Prop :=
  forall a : nat, (a < length h)%nat -> h' !! a = h !! a.

(** A planner state whose working lots are distinct objects allocated
    after the caller's store [h], which it has left as it was. *)
Definition working (h : list lot) (s : planner_h) : Prop :=
  preserved h (store_of s) /\ NoDup (lot_refs s) /\
  Forall (fun a => (length h <= a < length (store_of s))%nat) (lot_refs s).

(** What a step on the store returns, read as the result of the step on
    values. *)
Definition read_step (r : result plan_entry * planner_h)
  : result (plan_entry * planner) :=
  match r with
  | (Ok e, s') => Ok (e, view s')
  | (Raise err, _) => Raise err
  end.

(** * Auxiliary definitions for the proofs *)

(** ** The resolver loop, component by component

    The three locals of [fifo_loop] as functions of the lots and of the
    quantity still needed, with the accumulators started empty. *)

Fixpoint fifo_rem (lots : list lot) (rem : Q) : Q :=
  match lots with
  | [] => rem
  | l :: rest =>
      if Qleb rem 0 then rem
      else if Qleb (lot_available l) 0 then fifo_rem rest rem
      else fifo_rem rest (rem - py_min rem (lot_available l))
  end.

Fixpoint fifo_cost (lots : list lot) (rem : Q) : Q :=
  match lots with
  | [] => 0
  | l :: rest =>
      if Qleb rem 0 then 0
      else if Qleb (lot_available l) 0 then fifo_cost rest rem
      else
        let use := py_min rem (lot_available l) in
        use * price l + fifo_cost rest (rem - use)
  end.

Fixpoint fifo_used (lots : list lot) (rem : Q) : list lot_used :=
  match lots with
  | [] => []
  | l :: rest =>
      if Qleb rem 0 then []
      else if Qleb (lot_available l) 0 then fifo_used rest rem
      else
        let use := py_min rem (lot_available l) in
        mkUsed (date l) use (price l) :: fifo_used rest (rem - use)
  end.

(** Sums over a ledger and over a breakdown. *)
Fixpoint sum_available (lots : list lot) : Q :=
  match lots with
  | [] => 0
  | l :: rest => lot_available l + sum_available rest
  end.

Fixpoint sum_positive (lots : list lot) : Q :=
  match lots with
  | [] => 0
  | l :: rest => py_max 0 (lot_available l) + sum_positive rest
  end.

Fixpoint used_units (used : list lot_used) : Q :=
  match used with
  | [] => 0
  | u :: rest => used_quantity u + used_units rest
  end.

Fixpoint used_cost (used : list lot_used) : Q :=
  match used with
  | [] => 0
  | u :: rest => used_quantity u * used_price u + used_cost rest
  end.

(** A lot that the resolver does not skip, and the breakdown record of a
    lot consumed entirely. *)
Definition in_stock (l : lot) : bool := Qltb 0 (lot_available l).

Definition full_use (l : lot) : lot_used :=
  mkUsed (date l) (lot_available l) (price l).

(** ** Invariant of the binary search

    What every state of the search in [max_sellable_for_gain] satisfies:
    [best_n] is [low]; [low] is non-negative and [high] at most the total;
    and a positive [low] is a quantity the lots cover whose gain is within
    the target. *)
Definition search_inv (lots : list lot) (sale_price target_gain : Q) (s : search)
  : Prop :=
  best_n s = low s /\ 0 <= low s /\ high s <= get_total_available lots /\
  (0 < low s ->
     low s <= get_total_available lots /\
     exists g, calculate_gain lots (low s) sale_price = Some g /\ g <= target_gain).

(** ** Ledgers of whole units

    A quantity that is a non-negative whole number, and a working lot
    whose ['remaining'] key is present and not negative. *)
Definition whole_units (q : Q) : Prop :=
  exists z : Z, (0 <= z)%Z /\ q == inject_Z z.

Definition stocked (l : lot) : Prop :=
  exists r, remaining l = Some r /\ 0 <= r.

(** ** Reading a plan *)

(** Entry [later] reports no activity and the cumulative totals of
    [earlier]. *)
Definition flat_since (earlier later : plan_entry) : Prop :=
  e_units later = 0%Z /\ e_revenue later = 0 /\ e_gain later = 0 /\
  e_taxable later = 0 /\ e_tax later = 0 /\ e_net later = 0 /\
  e_cumulative_sold later = e_cumulative_sold earlier /\
  e_cumulative_revenue later = e_cumulative_revenue earlier /\
  e_cumulative_tax later = e_cumulative_tax earlier.

(** Once an entry reports that no units remain, all later entries are
    flat. *)
Definition flat_after_exhaustion (plan : list plan_entry) : Prop :=
  forall (i j : nat) (ei ej : plan_entry),
    (i < j)%nat -> plan !! i = Some ei -> plan !! j = Some ej ->
    e_remaining ei == 0 -> flat_since ei ej.

(** The entries are numbered from year 1 and priced with the compounded
    price. *)
Definition one_entry_per_year (sale_price price_increase : Q)
    (plan : list plan_entry) : Prop :=
  forall (i : nat) (e : plan_entry),
    plan !! i = Some e ->
    e_year e = (i + 1)%nat /\
    e_price e = current_price sale_price price_increase i.

(** The totals a state carries are those of the entry just appended. *)
Definition totals_of (e : plan_entry) (st : planner) : Prop :=
  e_cumulative_sold e = total_sold st /\
  e_cumulative_revenue e = total_revenue st /\
  e_cumulative_tax e = total_tax st.

(** An entry of a year without activity. *)
Definition idle (e : plan_entry) : Prop :=
  e_units e = 0%Z /\ e_revenue e = 0 /\ e_gain e = 0 /\
  e_taxable e = 0 /\ e_tax e = 0 /\ e_net e = 0.


(** An entry on which no tax falls. *)
Definition tax_free (e : plan_entry) : Prop :=
  e_taxable e = 0 /\ e_tax e = 0 /\ e_net e == e_revenue e /\
  e_cumulative_tax e == 0.


(** What full extraction keeps from year to year on a ledger of whole
    units: the working lots are stocked, the units still available are a
    whole number, and together with the units sold so far they make up the
    initial holding [held]. *)
Definition conserved (held : Q) (st : planner) : Prop :=
  Forall stocked (remaining_lots st) /\
  whole_units (get_total_available (remaining_lots st)) /\
  inject_Z (total_sold st) + get_total_available (remaining_lots st) == held.

(** ** Sums used by the further properties *)

(** The cost of all units of a ledger, lot by lot. *)
Fixpoint sum_cost (lots : list lot) : Q :=
  match lots with
  | [] => 0
  | l :: rest => lot_available l * price l + sum_cost rest
  end.

(** The gain of a breakdown at a sale price, record by record. *)
Fixpoint used_gain (sale_price : Q) (used : list lot_used) : Q :=
  match used with
  | [] => 0
  | u :: rest => used_quantity u * (sale_price - used_price u) + used_gain sale_price rest
  end.

(** A working lot after a sale: the same purchase, with no more units left
    than before and not fewer than none. *)
Definition drawn_down (l l' : lot) : Prop :=
  date l' = date l /\ quantity l' = quantity l /\ price l' = price l /\
  exists r r', remaining l = Some r /\ remaining l' = Some r' /\ 0 <= r' <= r.

(** Column sums of a plan. *)
Fixpoint sum_units (plan : list plan_entry) : Z :=
  match plan with
  | [] => 0%Z
  | e :: rest => (e_units e + sum_units rest)%Z
  end.

Fixpoint sum_revenue (plan : list plan_entry) : Q :=
  match plan with
  | [] => 0
  | e :: rest => e_revenue e + sum_revenue rest
  end.

Fixpoint sum_tax (plan : list plan_entry) : Q :=
  match plan with
  | [] => 0
  | e :: rest => e_tax e + sum_tax rest
  end.

(** The cumulative columns of entry [e] are the totals [sold], [revenue]
    and [tax] carried into the plan plus the column sums of [upto], the
    entries up to and including [e]. *)
Definition running_totals (sold : Z) (revenue tax : Q) (upto : list plan_entry)
    (e : plan_entry) : Prop :=
  e_cumulative_sold e = (sold + sum_units upto)%Z /\
  e_cumulative_revenue e == revenue + sum_revenue upto /\
  e_cumulative_tax e == tax + sum_tax upto.

(** The bookkeeping inside one entry. *)
Definition booked (e : plan_entry) : Prop :=
  e_limit e = BASE_LIMIT /\ (0 <= e_units e)%Z /\
  e_revenue e == inject_Z (e_units e) * e_price e /\
  (e_taxable e, e_tax e) = calculate_tax (e_gain e) BASE_LIMIT /\
  e_net e == e_revenue e - e_tax e /\
  (e_units e = 0%Z -> e_cost_basis e = None) /\
  ((0 < e_units e)%Z -> exists c, e_cost_basis e = Some c).

(** A planner state on a ledger without negative lots: the working lots
    are stocked and, with the units sold so far, make up the holding. *)
Definition accounted (held : Q) (st : planner) : Prop :=
  Forall stocked (remaining_lots st) /\
  inject_Z (total_sold st) + get_total_available (remaining_lots st) == held.

(** ** Plans without sales *)

(** The plan of [years] years in which nothing is sold, nothing remains
    and nothing was sold before. *)
Definition idle_plan (sale_price price_increase : Q) (years : nat)
  : list plan_entry :=
  map (fun year =>
         mkEntry (year + 1) (current_price sale_price price_increase year)
           BASE_LIMIT 0 0 None 0 0 0 0 0 0 0 0)
      (seq 0 years).

(** The [year] and [limit] columns of a plan. *)
Definition limits_of (plan : list plan_entry) : list (nat * Q) :=
  map (fun e => (e_year e, e_limit e)) plan.

(** ** The stored ledger *)

(** The lots are in the order of their dates. *)
Fixpoint sorted_by_date (lots : list lot) : Prop :=
  match lots with
  | [] => True
  | l :: rest =>
      Forall (fun l' => String.leb (date l) (date l') = true) rest /\
      sorted_by_date rest
  end.

(** A lot as [add_lot] writes it: a positive quantity at a positive price,
    nothing of it sold. *)
Definition untouched (l : lot) : Prop :=
  0 < quantity l /\ 0 < price l /\ remaining l = Some (quantity l).

(** The ledgers the application stores when the numbers entered are
    finite: [add_asset] stores the empty ledger and [add_lot] is the only
    other function that stores one. *)
Inductive stored_ledger : list lot -> Prop :=
  | stored_empty : stored_ledger []
  | stored_add lots amount_only amount_field quantity_field price_field
      date_field lots' :
      stored_ledger lots ->
      add_lot lots amount_only amount_field quantity_field price_field
        date_field = Stored lots' ->
      stored_ledger lots'.

(** ** Amounts the program computes exactly

    The program computes with binary64 doubles.  Whole numbers up to 2^53
    are doubles, and a sum, difference or product of such numbers that is
    again a whole number up to 2^53 is computed without rounding.  The
    same holds for whole multiples of a fixed power of 1/2, which is what
    the probes of the optimizer's search are.  On such amounts the exact
    arithmetic of this embedding is the arithmetic of the program; the
    properties that rounding can break are stated on them. *)

(** Every lot holds a whole number of units, and the holding is at most
    2^53 units. *)
Definition whole_lots (lots : list lot) : Prop :=
  Forall (fun l => whole_units (lot_available l)) lots /\
  get_total_available lots <= 2 ^ 53.

(** Every lot was bought at a whole price. *)
Definition whole_prices (lots : list lot) : Prop :=
  Forall (fun l => whole_units (price l)) lots.

(** Whole units bought at whole prices and sold at a whole price that no
    purchase price exceeds, of a size at which every probe of the
    optimizer's search and every product with a price is computed
    exactly: the search halves an interval of [total] units while it is
    at least 0.5 long, so a probe is a whole multiple of [1 / 2^k] with
    [2^k <= 4 * total], and its product with a price is a whole multiple
    of [1 / 2^k] below [total * sale_price]: a number of at most 53 bits
    when [4 * total * total * sale_price <= 2^53]. *)
Definition exact_sale (lots : list lot) (sale_price : Q) : Prop :=
  whole_lots lots /\ whole_prices lots /\ whole_units sale_price /\
  Forall (fun l => price l <= sale_price) lots /\
  4 * get_total_available lots * get_total_available lots * sale_price
  <= 2 ^ 53.

(** * Properties *)

(** ** Comparisons, [min], [max] and [int] *)

Lemma Qleb_true x y : Qleb x y = true <-> x <= y.
Proof. apply Qle_bool_iff. Qed.

Lemma Qleb_false x y : Qleb x y = false <-> y < x.
Proof.
  unfold Qleb. split; intros H.
  - apply Qnot_le_lt. intros Hle. apply Qle_bool_iff in Hle. congruence.
  - destruct (Qle_bool x y) eqn:E; [|reflexivity].
    apply Qle_bool_iff in E. lra.
Qed.

Lemma Qltb_true x y : Qltb x y = true <-> x < y.
Proof.
  unfold Qltb. rewrite negb_true_iff. apply Qleb_false.
Qed.

Lemma Qltb_false x y : Qltb x y = false <-> y <= x.
Proof.
  unfold Qltb. rewrite negb_false_iff. apply Qleb_true.
Qed.

(** Case analysis on a comparison, leaving the order fact in the context. *)
Ltac case_Qleb x y :=
  let E := fresh "E" in
  destruct (Qleb x y) eqn:E;
  [apply Qleb_true in E | apply Qleb_false in E].

Ltac case_Qltb x y :=
  let E := fresh "E" in
  destruct (Qltb x y) eqn:E;
  [apply Qltb_true in E | apply Qltb_false in E].

Lemma py_min_le_l a b : py_min a b <= a.
Proof. unfold py_min. case_Qltb b a; lra. Qed.

Lemma py_min_le_r a b : py_min a b <= b.
Proof. unfold py_min. case_Qltb b a; lra. Qed.

Lemma py_min_pos a b : 0 < a -> 0 < b -> 0 < py_min a b.
Proof. unfold py_min. case_Qltb b a; lra. Qed.

Lemma py_max_nonneg x : 0 <= py_max 0 x.
Proof. unfold py_max. case_Qltb 0 x; lra. Qed.

(** [int] of a whole number is that number, whatever fraction represents
    it. *)
Lemma py_int_whole x z : x == inject_Z z -> py_int x = z.
Proof.
  destruct x as [n d]. unfold py_int, Qeq. simpl. intros H.
  rewrite Z.mul_1_r in H. subst n. apply Z.quot_mul. lia.
Qed.

Lemma py_int_inject z : py_int (inject_Z z) = z.
Proof. apply py_int_whole. reflexivity. Qed.

(** On non-negative numbers [int] is the floor. *)
Lemma py_int_floor x : 0 <= x -> py_int x = Qfloor x.
Proof.
  destruct x as [n d]. unfold py_int, Qfloor, Qle. simpl. intros H.
  apply Z.quot_div_nonneg; lia.
Qed.

Lemma py_int_nonneg x : 0 <= x -> (0 <= py_int x)%Z.
Proof.
  intros H. rewrite py_int_floor by assumption.
  change 0%Z with (Qfloor 0). apply Qfloor_resp_le. assumption.
Qed.

Lemma py_int_le x : 0 <= x -> inject_Z (py_int x) <= x.
Proof. intros H. rewrite py_int_floor by assumption. apply Qfloor_le. Qed.

Lemma py_int_lt x : 0 <= x -> x < inject_Z (py_int x + 1).
Proof. intros H. rewrite py_int_floor by assumption. apply Qlt_floor. Qed.

Lemma inject_Z_pos z : (0 < z)%Z -> 0 < inject_Z z.
Proof. intros H. change 0 with (inject_Z 0). rewrite <- Zlt_Qlt. assumption. Qed.

Lemma inject_Z_nonneg z : (0 <= z)%Z -> 0 <= inject_Z z.
Proof. intros H. change 0 with (inject_Z 0). rewrite <- Zle_Qle. assumption. Qed.

(** ** The resolver *)

Lemma fifo_loop_split lots : forall cost rem used,
  let '(c, r, u) := fifo_loop lots cost rem used in
  c == cost + fifo_cost lots rem /\ r = fifo_rem lots rem /\
  u = used ++ fifo_used lots rem.
Proof.
  induction lots as [|l rest IH]; intros cost rem used; simpl.
  - split; [lra|]. split; [reflexivity|]. now rewrite app_nil_r.
  - case_Qleb rem 0.
    + split; [lra|]. split; [reflexivity|]. now rewrite app_nil_r.
    + case_Qleb (lot_available l) 0.
      * apply IH.
      * specialize (IH (cost + py_min rem (lot_available l) * price l)
                       (rem - py_min rem (lot_available l))
                       (used ++ [mkUsed (date l) (py_min rem (lot_available l)) (price l)])).
        destruct (fifo_loop rest _ _ _) as [[c r] u].
        destruct IH as (Hc & Hr & Hu). split; [lra|]. split; [assumption|].
        rewrite Hu, <- app_assoc. reflexivity.
Qed.

Lemma fifo_rem_nonpos lots rem : rem <= 0 -> fifo_rem lots rem = rem.
Proof.
  intros H. destruct lots as [|l rest]; simpl; [reflexivity|].
  apply Qleb_true in H. now rewrite H.
Qed.

Lemma fifo_cost_nonpos lots rem : rem <= 0 -> fifo_cost lots rem = 0.
Proof.
  intros H. destruct lots as [|l rest]; simpl; [reflexivity|].
  apply Qleb_true in H. now rewrite H.
Qed.

Lemma fifo_used_nonpos lots rem : rem <= 0 -> fifo_used lots rem = [].
Proof.
  intros H. destruct lots as [|l rest]; simpl; [reflexivity|].
  apply Qleb_true in H. now rewrite H.
Qed.

Lemma sum_positive_nonneg lots : 0 <= sum_positive lots.
Proof.
  induction lots as [|l rest IH]; simpl; [lra|].
  pose proof (py_max_nonneg (lot_available l)). lra.
Qed.

Lemma sum_available_le_positive lots : sum_available lots <= sum_positive lots.
Proof.
  induction lots as [|l rest IH]; simpl; [lra|].
  unfold py_max. case_Qltb 0 (lot_available l); lra.
Qed.

Lemma sum_positive_available lots :
  Forall (fun l => 0 <= lot_available l) lots ->
  sum_positive lots == sum_available lots.
Proof.
  induction 1 as [|l rest Hl _ IH]; simpl; [lra|].
  unfold py_max. case_Qltb 0 (lot_available l); lra.
Qed.

Lemma fold_available lots : forall acc,
  fold_left (fun a l => a + lot_available l) lots acc == acc + sum_available lots.
Proof.
  induction lots as [|l rest IH]; intros acc; simpl; [lra|].
  rewrite IH. lra.
Qed.

Lemma get_total_available_sum lots : get_total_available lots == sum_available lots.
Proof. unfold get_total_available. rewrite fold_available. lra. Qed.

(** What is left to find after the scan: nothing when the stock covers
    the request, the shortfall otherwise. *)
Lemma fifo_rem_spec lots : forall rem, 0 <= rem ->
  (rem <= sum_positive lots -> fifo_rem lots rem == 0) /\
  (sum_positive lots <= rem -> fifo_rem lots rem == rem - sum_positive lots).
Proof.
  induction lots as [|l rest IH]; intros rem Hrem; simpl.
  - split; intros; lra.
  - pose proof (sum_positive_nonneg rest) as Hp.
    case_Qleb rem 0.
    + unfold py_max. case_Qltb 0 (lot_available l); split; intros; lra.
    + case_Qleb (lot_available l) 0.
      * unfold py_max. case_Qltb 0 (lot_available l); [lra|].
        destruct (IH rem Hrem) as [H1 H2]. split; intros H.
        -- apply H1. lra.
        -- rewrite H2 by lra. lra.
      * unfold py_max, py_min.
        case_Qltb 0 (lot_available l); [|lra].
        case_Qltb (lot_available l) rem.
        -- destruct (IH (rem - lot_available l)) as [H1 H2]; [lra|].
           split; intros H.
           ++ apply H1. lra.
           ++ rewrite H2 by lra. lra.
        -- rewrite fifo_rem_nonpos by lra. split; intros; lra.
Qed.

Lemma fifo_rem_nonneg lots rem : 0 <= rem -> 0 <= fifo_rem lots rem.
Proof.
  intros H. destruct (fifo_rem_spec lots rem H) as [H1 H2].
  destruct (Qlt_le_dec rem (sum_positive lots)) as [Hlt|Hle].
  - rewrite H1; lra.
  - rewrite H2; lra.
Qed.

(** The resolver's result in terms of the loop components. *)
Lemma calculate_fifo_cost_basis_unfold lots qty :
  (0 < fifo_rem lots qty /\ calculate_fifo_cost_basis lots qty = (None, [])) \/
  (fifo_rem lots qty <= 0 /\
   exists cost, cost == fifo_cost lots qty /\
     calculate_fifo_cost_basis lots qty = (Some cost, fifo_used lots qty)).
Proof.
  unfold calculate_fifo_cost_basis.
  pose proof (fifo_loop_split lots 0 qty []) as H.
  destruct (fifo_loop lots 0 qty []) as [[c r] u].
  destruct H as (Hc & -> & ->). simpl.
  case_Qltb 0 (fifo_rem lots qty).
  - left. split; [assumption|reflexivity].
  - right. split; [assumption|]. exists c. split; [lra|reflexivity].
Qed.

Lemma fifo_used_cost lots : forall rem,
  used_cost (fifo_used lots rem) == fifo_cost lots rem.
Proof.
  induction lots as [|l rest IH]; intros rem; simpl; [lra|].
  case_Qleb rem 0; simpl; [lra|].
  case_Qleb (lot_available l) 0; simpl; [apply IH|].
  rewrite IH. lra.
Qed.

Lemma fifo_used_units lots : forall rem,
  used_units (fifo_used lots rem) + fifo_rem lots rem == rem.
Proof.
  induction lots as [|l rest IH]; intros rem; simpl; [lra|].
  case_Qleb rem 0; simpl; [lra|].
  case_Qleb (lot_available l) 0; simpl; [apply IH|].
  specialize (IH (rem - py_min rem (lot_available l))). lra.
Qed.

(** Oldest first: the breakdown consumes a prefix of the ledger entirely
    and at most one more lot, the next one, in part. *)
Lemma fifo_used_prefix lots : forall rem,
  0 < rem -> rem <= sum_positive lots ->
  exists pre l post u,
    lots = pre ++ l :: post /\ 0 < u <= lot_available l /\
    fifo_used lots rem =
      map full_use (List.filter in_stock pre) ++ [mkUsed (date l) u (price l)] /\
    sum_positive pre + u == rem.
Proof.
  induction lots as [|l rest IH]; intros rem Hpos Hle; simpl in *; [lra|].
  case_Qleb rem 0; [lra|].
  case_Qleb (lot_available l) 0.
  - assert (Hs : in_stock l = false) by (apply Qltb_false; lra).
    assert (Hm : py_max 0 (lot_available l) == 0).
    { unfold py_max. case_Qltb 0 (lot_available l); lra. }
    destruct (IH rem Hpos) as (pre & l' & post & u & -> & Hu & Hused & Hsum); [lra|].
    exists (l :: pre), l', post, u. simpl. rewrite Hs.
    repeat split; try tauto. lra.
  - assert (Hs : in_stock l = true) by (apply Qltb_true; lra).
    assert (Hm : py_max 0 (lot_available l) == lot_available l).
    { unfold py_max. case_Qltb 0 (lot_available l); lra. }
    unfold py_min. case_Qltb (lot_available l) rem.
    + destruct (IH (rem - lot_available l))
        as (pre & l' & post & u & -> & Hu & Hused & Hsum); [lra|lra|].
      exists (l :: pre), l', post, u. simpl. rewrite Hs. simpl.
      rewrite Hused. repeat split; try tauto. lra.
    + exists [], l, rest, rem. simpl.
      rewrite fifo_used_nonpos by lra.
      repeat split; try lra.
Qed.

Lemma sum_positive_prefix pre post :
  Forall (fun l => 0 <= lot_available l) (pre ++ post) ->
  sum_positive pre == sum_available pre.
Proof.
  intros H. apply sum_positive_available.
  apply Forall_app in H. tauto.
Qed.

(** ** C2: the FIFO resolver *)

(** In exact arithmetic, for lots with non-negative availability and a
    quantity [qty >= 0], the resolver succeeds exactly when [qty] is at
    most the total availability: on success the cost is the cost of the
    breakdown, the breakdown adds up to [qty], and it consumes the ledger
    oldest first (a prefix entirely, then the next lot in part); beyond
    the total the result is the failure signal [(None, [])]; quantity zero
    succeeds with zero cost and an empty breakdown; and for the ledger
    [(d1,10,@5),(d2,10,@8)] and quantity 15 the cost is 90 with 10 units
    of lot 1 and 5 of lot 2. *)
Lemma fifo_cost_basis_covered (lots : list lot) (qty : Q) :
  Forall (fun l => 0 <= lot_available l) lots -> 0 <= qty ->
  (qty <= get_total_available lots ->
     exists cost used,
       calculate_fifo_cost_basis lots qty = (Some cost, used) /\
       cost == used_cost used /\ used_units used == qty /\
       (0 < qty ->
        exists pre l post u,
          lots = pre ++ l :: post /\ 0 < u <= lot_available l /\
          used = map full_use (List.filter in_stock pre)
                   ++ [mkUsed (date l) u (price l)] /\
          sum_available pre + u == qty)) /\
  (get_total_available lots < qty ->
     calculate_fifo_cost_basis lots qty = (None, [])) /\
  (qty == 0 -> calculate_fifo_cost_basis lots qty = (Some 0, [])) /\
  calculate_fifo_cost_basis
    [mkLot "d1" 10 5 (Some 10); mkLot "d2" 10 8 (Some 10)] 15
  = (Some 90, [mkUsed "d1" 10 5; mkUsed "d2" 5 8]).
Proof.
  intros Hwf Hq.
  pose proof (get_total_available_sum lots) as Htot.
  pose proof (sum_positive_available lots Hwf) as Hpos.
  destruct (fifo_rem_spec lots qty Hq) as [Hcover Hshort].
  split; [|split; [|split]].
  - intros Hle.
    destruct (calculate_fifo_cost_basis_unfold lots qty)
      as [[Hrem _]|(_ & cost & Hcost & Heq)].
    { rewrite Hcover in Hrem by lra. lra. }
    exists cost, (fifo_used lots qty). split; [assumption|].
    split; [rewrite fifo_used_cost; assumption|].
    split.
    + pose proof (fifo_used_units lots qty) as Hu.
      rewrite Hcover in Hu by lra. lra.
    + intros Hqpos.
      destruct (fifo_used_prefix lots qty Hqpos)
        as (pre & l & post & u & Hsplit & Hu & Hused & Hsum); [lra|].
      exists pre, l, post, u. repeat split; try tauto.
      subst lots. rewrite <- (sum_positive_prefix pre (l :: post) Hwf).
      assumption.
  - intros Hlt.
    destruct (calculate_fifo_cost_basis_unfold lots qty)
      as [[_ Heq]|(Hrem & _)]; [assumption|].
    rewrite Hshort in Hrem by lra. lra.
  - intros Hz. unfold calculate_fifo_cost_basis.
    assert (Hloop : fifo_loop lots 0 qty [] = (0, qty, [])).
    { destruct lots as [|l rest]; simpl; [reflexivity|].
      assert (Hb : Qleb qty 0 = true) by (apply Qleb_true; lra).
      now rewrite Hb. }
    rewrite Hloop.
    assert (Hb : Qltb 0 qty = false) by (apply Qltb_false; lra).
    now rewrite Hb.
  - reflexivity.
Qed.

Lemma whole_lots_nonneg lots :
  whole_lots lots -> Forall (fun l => 0 <= lot_available l) lots.
Proof.
  intros [Hwhole _]. eapply Forall_impl; [exact Hwhole|].
  simpl. intros l (z & Hz & Hl). rewrite Hl. apply inject_Z_nonneg. assumption.
Qed.

(** C2, on doubles.  A ledger with lots of 0.1, 0.1 and 0.2 units holds
    exactly the 0.4 units that are requested, and no lot is empty, yet
    [calculate_fifo_cost_basis] returns the failure signal [(None, [])]:
    [0.4 - 0.1] rounds to 0.30000000000000004, and after the three lots
    [remaining] is 2^-55, which is above 0. *)
Theorem resolver_rejects_covered_request :
  Double.calculate_fifo_cost_basis
    [Double.mkLot "d1" (Double.decimal 1 10) (Double.decimal 10 1)
       (Some (Double.decimal 1 10));
     Double.mkLot "d2" (Double.decimal 1 10) (Double.decimal 10 1)
       (Some (Double.decimal 1 10));
     Double.mkLot "d3" (Double.decimal 2 10) (Double.decimal 10 1)
       (Some (Double.decimal 2 10))]
    (Double.decimal 4 10)
  = (None, []) /\
  Double.exact (Double.decimal 4 10)
  == Double.exact (Double.decimal 1 10) + Double.exact (Double.decimal 1 10)
     + Double.exact (Double.decimal 2 10) /\
  Double.exact
    (Double.fifo_loop
       [Double.mkLot "d1" (Double.decimal 1 10) (Double.decimal 10 1)
          (Some (Double.decimal 1 10));
        Double.mkLot "d2" (Double.decimal 1 10) (Double.decimal 10 1)
          (Some (Double.decimal 1 10));
        Double.mkLot "d3" (Double.decimal 2 10) (Double.decimal 10 1)
          (Some (Double.decimal 2 10))]
       (Double.decimal 0 1) (Double.decimal 4 10) []).1.2
  == 2 ^ (-55).
Proof.
  split; [vm_compute; reflexivity|]. split; vm_compute; reflexivity.
Qed.

(** ** C3: the simple tax rule *)

(** C3.  [calculate_tax gain limit] is [(0, 0)] when [gain <= limit] and
    otherwise [(gain - limit, (gain - limit) * 0.10)]; at the boundary,
    [calculate_tax 10000 10000 = (0, 0)] and
    [calculate_tax 10001 10000 = (1, 0.1)]. *)
Theorem calculate_tax_correct (gain yearly_limit : Q) :
  (gain <= yearly_limit -> calculate_tax gain yearly_limit = (0, 0)) /\
  (yearly_limit < gain ->
     calculate_tax gain yearly_limit
     = (gain - yearly_limit, (gain - yearly_limit) * (1 # 10))) /\
  calculate_tax 10000 10000 = (0, 0) /\
  calculate_tax 10001 10000 = (1, 1 # 10).
Proof.
  unfold calculate_tax. repeat split.
  - intros H. apply Qleb_true in H. now rewrite H.
  - intros H. apply Qleb_false in H. now rewrite H.
Qed.

Lemma calculate_tax_correct_witness :
  calculate_tax 9000 10000 = (0, 0) /\
  calculate_tax 12000 10000 = (12000 - 10000, (12000 - 10000) * (1 # 10)).
Proof.
  destruct (calculate_tax_correct 9000 10000) as (Hfree & _).
  destruct (calculate_tax_correct 12000 10000) as (_ & Htaxed & _).
  split.
  - apply Hfree. unfold Qle; simpl; lia.
  - apply Htaxed. unfold Qlt; simpl; lia.
Defined.

(** ** C7: the buffered tax rule *)

(** C7, as stated, fails: for a gain of 12000 and the full buffer of 1000
    the excess 2000 exceeds the buffer and the tax 200 is below the cap, yet
    the remaining buffer returned is 0, not the cap reduced by the excess
    (-1000). *)
Lemma tax_with_buffer_not_cap_minus_excess :
  1000 < 12000 - BASE_LIMIT /\
  (12000 - BASE_LIMIT) * TAX_RATE < BUFFER_ZONE /\
  snd (calculate_tax_with_buffer 12000 1000) = 0 /\
  ~ snd (calculate_tax_with_buffer 12000 1000) == BUFFER_ZONE - (12000 - BASE_LIMIT).
Proof.
  repeat split; try reflexivity. vm_compute. discriminate.
Qed.

(** C7, amended.  With [excess = gain - 10000]: a gain of at most 10000
    gives no tax and leaves the buffer intact; an excess of at most the
    available buffer gives no tax and reduces the buffer by the excess; a
    larger excess is taxed at 10% in full, and the remaining buffer
    returned is 0 when that tax reaches the 1000 cap and otherwise the cap
    reduced by the excess, but never below 0. *)
Theorem tax_with_buffer_correct (gain buffer_available : Q) :
  (gain <= BASE_LIMIT ->
     calculate_tax_with_buffer gain buffer_available = (0, 0, 0, buffer_available)) /\
  (BASE_LIMIT < gain -> gain - BASE_LIMIT <= buffer_available ->
     calculate_tax_with_buffer gain buffer_available
     = (0, 0, gain - BASE_LIMIT, buffer_available - (gain - BASE_LIMIT))) /\
  (BASE_LIMIT < gain -> buffer_available < gain - BASE_LIMIT ->
     exists left,
       calculate_tax_with_buffer gain buffer_available
       = (gain - BASE_LIMIT, (gain - BASE_LIMIT) * TAX_RATE, gain - BASE_LIMIT, left) /\
       (BUFFER_ZONE <= (gain - BASE_LIMIT) * TAX_RATE -> left == 0) /\
       ((gain - BASE_LIMIT) * TAX_RATE < BUFFER_ZONE ->
          (0 < BUFFER_ZONE - (gain - BASE_LIMIT) ->
             left == BUFFER_ZONE - (gain - BASE_LIMIT)) /\
          (BUFFER_ZONE - (gain - BASE_LIMIT) <= 0 -> left == 0))).
Proof.
  unfold calculate_tax_with_buffer. split; [|split].
  - intros H. apply Qleb_true in H. now rewrite H.
  - intros H1 H2. apply Qleb_false in H1. apply Qleb_true in H2.
    now rewrite H1, H2.
  - intros H1 H2. apply Qleb_false in H1. apply Qleb_false in H2.
    rewrite H1, H2. eexists. split; [reflexivity|].
    unfold py_max.
    case_Qleb BUFFER_ZONE ((gain - BASE_LIMIT) * TAX_RATE).
    + split; [intros _; reflexivity|]. intros; lra.
    + split; [intros; lra|]. intros _.
      case_Qltb 0 (BUFFER_ZONE - (gain - BASE_LIMIT)); split; intros; lra.
Qed.

Lemma tax_with_buffer_correct_witness :
  calculate_tax_with_buffer 9000 1000 = (0, 0, 0, 1000) /\
  calculate_tax_with_buffer 10400 500
  = (0, 0, 10400 - BASE_LIMIT, 500 - (10400 - BASE_LIMIT)) /\
  exists left,
    calculate_tax_with_buffer 10600 500
    = (10600 - BASE_LIMIT, (10600 - BASE_LIMIT) * TAX_RATE, 10600 - BASE_LIMIT, left) /\
    (BUFFER_ZONE <= (10600 - BASE_LIMIT) * TAX_RATE -> left == 0) /\
    ((10600 - BASE_LIMIT) * TAX_RATE < BUFFER_ZONE ->
       (0 < BUFFER_ZONE - (10600 - BASE_LIMIT) ->
          left == BUFFER_ZONE - (10600 - BASE_LIMIT)) /\
       (BUFFER_ZONE - (10600 - BASE_LIMIT) <= 0 -> left == 0)).
Proof.
  destruct (tax_with_buffer_correct 9000 1000) as (Hfree & _).
  destruct (tax_with_buffer_correct 10400 500) as (_ & Habsorbed & _).
  destruct (tax_with_buffer_correct 10600 500) as (_ & _ & Htaxed).
  split; [|split].
  - apply Hfree. unfold Qle; simpl; lia.
  - apply Habsorbed.
    + unfold Qlt; simpl; lia.
    + unfold Qle; simpl; lia.
  - apply Htaxed.
    + unfold Qlt; simpl; lia.
    + unfold Qlt; simpl; lia.
Defined.

(** ** C5: gain as a function of the quantity *)

(** The cost of the extra units is bounded by their number times any
    price that bounds the lot prices. *)
Lemma fifo_cost_increment (sale_price : Q) lots :
  Forall (fun l => price l <= sale_price) lots ->
  forall q1 q2, q1 <= q2 ->
  fifo_cost lots q2 - fifo_cost lots q1
  <= ((q2 - fifo_rem lots q2) - (q1 - fifo_rem lots q1)) * sale_price.
Proof.
  induction 1 as [|l rest Hl _ IH]; intros q1 q2 Hq; simpl; [lra|].
  case_Qleb q2 0.
  { case_Qleb q1 0; lra. }
  case_Qleb q1 0.
  - case_Qleb (lot_available l) 0.
    + specialize (IH q1 q2 Hq).
      rewrite (fifo_cost_nonpos rest q1), (fifo_rem_nonpos rest q1) in IH by lra.
      lra.
    + pose proof (py_min_le_l q2 (lot_available l)) as Hmin.
      assert (Hpos : 0 < py_min q2 (lot_available l)) by (apply py_min_pos; lra).
      specialize (IH q1 (q2 - py_min q2 (lot_available l))).
      rewrite (fifo_cost_nonpos rest q1), (fifo_rem_nonpos rest q1) in IH by lra.
      assert (Hprod : 0 <= py_min q2 (lot_available l) * (sale_price - price l)).
      { apply Qmult_le_0_compat; lra. }
      lra.
  - case_Qleb (lot_available l) 0; [apply IH; assumption|].
    assert (Huse : py_min q1 (lot_available l) <= py_min q2 (lot_available l) /\
                   q1 - py_min q1 (lot_available l) <= q2 - py_min q2 (lot_available l)).
    { unfold py_min.
      case_Qltb (lot_available l) q1; case_Qltb (lot_available l) q2; lra. }
    destruct Huse as [Huse Hrest].
    specialize (IH _ _ Hrest).
    assert (Hprod : 0 <= (py_min q2 (lot_available l) - py_min q1 (lot_available l))
                         * (sale_price - price l)).
    { apply Qmult_le_0_compat; lra. }
    lra.
Qed.

Lemma calculate_gain_covered lots qty sale_price :
  0 <= qty -> qty <= sum_positive lots ->
  exists g, calculate_gain lots qty sale_price = Some g /\
            g == qty * sale_price - fifo_cost lots qty.
Proof.
  intros H0 Hle. unfold calculate_gain.
  destruct (fifo_rem_spec lots qty H0) as [Hcover _].
  destruct (calculate_fifo_cost_basis_unfold lots qty)
    as [[Hrem _]|(_ & cost & Hcost & ->)].
  - rewrite Hcover in Hrem by assumption. lra.
  - simpl. eexists. split; [reflexivity|]. lra.
Qed.

Lemma calculate_gain_total lots qty sale_price :
  0 <= qty -> qty <= get_total_available lots ->
  exists g, calculate_gain lots qty sale_price = Some g /\
            g == qty * sale_price - fifo_cost lots qty.
Proof.
  intros H0 Hle. apply calculate_gain_covered; [assumption|].
  pose proof (get_total_available_sum lots).
  pose proof (sum_available_le_positive lots). lra.
Qed.

(** Gain is monotone when no lot costs more than the sale price. *)
Lemma gain_monotone lots sale_price q1 q2 g1 g2 :
  Forall (fun l => price l <= sale_price) lots ->
  0 <= q1 -> q1 <= q2 ->
  calculate_gain lots q1 sale_price = Some g1 ->
  calculate_gain lots q2 sale_price = Some g2 ->
  g1 <= g2.
Proof.
  intros Hp H0 Hq Hg1 Hg2.
  pose proof (fifo_cost_increment sale_price lots Hp q1 q2 Hq) as Hinc.
  unfold calculate_gain in Hg1, Hg2.
  destruct (calculate_fifo_cost_basis_unfold lots q1)
    as [[_ E1]|(Hr1 & c1 & Hc1 & E1)]; rewrite E1 in Hg1; simpl in Hg1;
    [discriminate|].
  destruct (calculate_fifo_cost_basis_unfold lots q2)
    as [[_ E2]|(Hr2 & c2 & Hc2 & E2)]; rewrite E2 in Hg2; simpl in Hg2;
    [discriminate|].
  injection Hg1 as <-. injection Hg2 as <-.
  pose proof (fifo_rem_nonneg lots q1 H0).
  pose proof (fifo_rem_nonneg lots q2 ltac:(lra)).
  assert (Hz1 : fifo_rem lots q1 == 0) by lra.
  assert (Hz2 : fifo_rem lots q2 == 0) by lra.
  rewrite Hz1, Hz2 in Hinc. lra.
Qed.


(** In exact arithmetic, when no lot's unit price exceeds the sale price,
    for all quantities [0 <= q1 < q2] at most the total available units
    both gains are defined and the gain of [q1] is at most the gain of
    [q2]. *)
Lemma gain_monotone_exact (lots : list lot) (sale_price q1 q2 : Q) :
  Forall (fun l => price l <= sale_price) lots ->
  0 <= q1 -> q1 < q2 -> q2 <= get_total_available lots ->
  exists g1 g2,
    calculate_gain lots q1 sale_price = Some g1 /\
    calculate_gain lots q2 sale_price = Some g2 /\
    g1 <= g2.
Proof.
  intros Hp H0 Hlt Hle.
  destruct (calculate_gain_total lots q1 sale_price) as (g1 & Hg1 & _); [lra|lra|].
  destruct (calculate_gain_total lots q2 sale_price) as (g2 & Hg2 & _); [lra|lra|].
  exists g1, g2. split; [assumption|]. split; [assumption|].
  apply (gain_monotone lots sale_price q1 q2); try assumption. lra.
Qed.

(** On doubles the gain can fall where the exact gain is constant: with
    10 units bought at 10.0 and 10 at 10.1, sold at 10.1, selling 11 units
    gains 1.0 and selling 12 units gains 0.9999999999999858. *)
Lemma gain_falls_by_rounding :
  exists g11 g12,
    Double.calculate_gain
      [Double.mkLot "d1" (Double.decimal 10 1) (Double.decimal 10 1) None;
       Double.mkLot "d2" (Double.decimal 10 1) (Double.decimal 101 10) None]
      (Double.decimal 11 1) (Double.decimal 101 10) = Some g11 /\
    Double.calculate_gain
      [Double.mkLot "d1" (Double.decimal 10 1) (Double.decimal 10 1) None;
       Double.mkLot "d2" (Double.decimal 10 1) (Double.decimal 101 10) None]
      (Double.decimal 12 1) (Double.decimal 101 10) = Some g12 /\
    PrimFloat.ltb g12 g11 = true /\
    Double.exact g11 == 1.
Proof.
  eexists _, _. split; [vm_compute; reflexivity|].
  split; [vm_compute; reflexivity|]. split; vm_compute; reflexivity.
Qed.



(** ** The optimizer *)

Lemma bisect_step_inv lots sale_price target_gain s s' :
  search_inv lots sale_price target_gain s ->
  bisect_step lots sale_price target_gain s = Some s' ->
  search_inv lots sale_price target_gain s'.
Proof.
  intros (Hbest & Hlow & Hhigh & Hfeas) Hstep.
  unfold bisect_step in Hstep.
  case_Qltb (high s - low s) (1 # 2); [discriminate|].
  assert (Hmid : low s < (low s + high s) / 2 < high s).
  { split.
    - apply Qlt_shift_div_l; lra.
    - apply Qlt_shift_div_r; lra. }
  destruct (calculate_gain lots ((low s + high s) / 2) sale_price) as [g|] eqn:Hg.
  - case_Qleb g target_gain; injection Hstep as <-; unfold search_inv; simpl.
    + split; [reflexivity|]. split; [lra|]. split; [assumption|].
      intros _. split; [lra|]. exists g. split; assumption.
    + split; [assumption|]. split; [assumption|]. split; [lra|]. assumption.
  - injection Hstep as <-; unfold search_inv; simpl.
    split; [assumption|]. split; [assumption|]. split; [lra|]. assumption.
Qed.

Lemma bisect_inv fuel lots sale_price target_gain : forall s,
  search_inv lots sale_price target_gain s ->
  search_inv lots sale_price target_gain (bisect fuel lots sale_price target_gain s).
Proof.
  induction fuel as [|fuel IH]; intros s Hs; simpl; [assumption|].
  destruct (bisect_step lots sale_price target_gain s) as [s'|] eqn:Hstep;
    [|assumption].
  apply IH. eapply bisect_step_inv; eassumption.
Qed.

Lemma search_inv_init lots sale_price target_gain :
  search_inv lots sale_price target_gain
    (mkSearch 0 (get_total_available lots) 0 0).
Proof.
  unfold search_inv. simpl. split; [reflexivity|]. split; [lra|].
  split; [lra|]. intros H. lra.
Qed.

(** The optimizer always returns a number of units with a gain (never
    [None]); the units are covered by the lots; and when no lot costs
    more than the sale price, a positive number of units has a gain within
    the target. *)
Lemma max_sellable_for_gain_spec lots sale_price target_gain :
  exists units g,
    max_sellable_for_gain lots sale_price target_gain = (units, Some g) /\
    (0 <= get_total_available lots ->
       (0 <= units)%Z /\ inject_Z units <= get_total_available lots) /\
    (Forall (fun l => price l <= sale_price) lots ->
       (0 < units)%Z -> g <= target_gain).
Proof.
  unfold max_sellable_for_gain.
  destruct (Qeq_bool (get_total_available lots) 0) eqn:Hzero.
  { apply Qeq_bool_iff in Hzero. exists 0%Z, 0. split; [reflexivity|].
    split; [intros _; split; [lia|change (inject_Z 0) with 0; lra]|].
    intros _ H. lia. }
  pose proof (bisect_inv 100 lots sale_price target_gain _
                (search_inv_init lots sale_price target_gain)) as Hinv.
  set (s := bisect 100 lots sale_price target_gain
              (mkSearch 0 (get_total_available lots) 0 0)) in *.
  destruct Hinv as (Hbest & Hlow & Hhigh & Hfeas).
  assert (Hsearch : exists units g,
    (if (0 <? py_int (best_n s))%Z
     then (py_int (best_n s),
           calculate_gain lots (inject_Z (py_int (best_n s))) sale_price)
     else (py_int (best_n s), Some (best_gain s))) = (units, Some g) /\
    (0 <= get_total_available lots ->
       (0 <= units)%Z /\ inject_Z units <= get_total_available lots) /\
    (Forall (fun l => price l <= sale_price) lots ->
       (0 < units)%Z -> g <= target_gain)).
  { rewrite Hbest.
    pose proof (py_int_nonneg _ Hlow) as Hn0.
    pose proof (py_int_le _ Hlow) as Hnle.
    destruct (0 <? py_int (low s))%Z eqn:Hpos.
    - apply Z.ltb_lt in Hpos.
      assert (Hlowpos : 0 < low s).
      { pose proof (inject_Z_pos _ Hpos). lra. }
      destruct (Hfeas Hlowpos) as (Hle & g0 & Hg0 & Hg0le).
      destruct (calculate_gain_total lots (inject_Z (py_int (low s))) sale_price)
        as (g & Hg & _); [apply inject_Z_nonneg; assumption | lra |].
      exists (py_int (low s)), g. rewrite Hg. split; [reflexivity|].
      split; [intros _; split; [assumption|lra]|].
      intros Hp _.
      apply Qle_trans with g0; [|assumption].
      apply (gain_monotone lots sale_price (inject_Z (py_int (low s))) (low s));
        try assumption.
      apply inject_Z_nonneg; assumption.
    - apply Z.ltb_ge in Hpos.
      exists (py_int (low s)), (best_gain s). split; [reflexivity|].
      split; [|intros _ H; lia].
      intros Htot. split; [assumption|].
      assert (py_int (low s) = 0%Z) as -> by lia. assumption. }
  destruct (calculate_gain lots (get_total_available lots) sale_price)
    as [g|] eqn:Hall; [|exact Hsearch].
  case_Qleb g target_gain; [|exact Hsearch].
  exists (py_int (get_total_available lots)), g. split; [reflexivity|].
  split; [|intros _ _; assumption].
  intros Htot. split; [apply py_int_nonneg | apply py_int_le]; assumption.
Qed.

(** ** C1: maximality of the optimizer's result *)

(** C1 at a ledger whose gain is monotone: one lot of 100 units bought at
    10, sale price 210 (a gain of 200 a unit) and target 10220.  The search
    stops with [low = 50.78125] and [high = 51.171875], and the result is
    50 units with a gain of 10000, although 51 units are available and
    their gain, 10200, is below the target. *)
Theorem max_sellable_misses_last_unit :
  max_sellable_for_gain [mkLot "d1" 100 10 (Some 100)] 210 10220
  = (50%Z, Some 10000) /\
  low (bisect 100 [mkLot "d1" 100 10 (Some 100)] 210 10220 (mkSearch 0 100 0 0))
  == 1625 # 32 /\
  high (bisect 100 [mkLot "d1" 100 10 (Some 100)] 210 10220 (mkSearch 0 100 0 0))
  == 3275 # 64 /\
  calculate_gain [mkLot "d1" 100 10 (Some 100)] 51 210 = Some 10200 /\
  10200 < 10220 /\
  inject_Z 50 < get_total_available [mkLot "d1" 100 10 (Some 100)].
Proof.
  split; [vm_compute; reflexivity|].
  split; [vm_compute; reflexivity|].
  split; [vm_compute; reflexivity|].
  split; [reflexivity|].
  split; reflexivity.
Qed.

(** ** C4: the gain reported with the units *)

(** C4 at one lot of a single unit bought at 10000, sale price 40000 and
    target 10000: selling the unit gains 30000, over the target; the search
    accepts the probe of a quarter unit, with gain 7500, and stops; the
    result is 0 units together with that gain of 7500, while selling 0
    units gains 0. *)
Theorem max_sellable_reports_probe_gain :
  exists g,
    max_sellable_for_gain [mkLot "d1" 1 10000 (Some 1)] 40000 10000
    = (0%Z, Some g) /\
    g == 7500 /\
    calculate_gain [mkLot "d1" 1 10000 (Some 1)] (1 # 4) 40000 = Some g /\
    calculate_gain [mkLot "d1" 1 10000 (Some 1)] 0 40000 = Some 0.
Proof.
  eexists. split; [vm_compute; reflexivity|].
  split; [reflexivity|]. split; reflexivity.
Qed.

(** ** C6: non-positive quantities and prices *)

Lemma py_int_below_one x : x < 1 -> (py_int x <= 0)%Z.
Proof.
  destruct x as [n d]. unfold py_int, Qlt. simpl. intros H.
  destruct (Z.le_gt_cases 0 n) as [Hn|Hn].
  - rewrite Z.quot_small; lia.
  - replace n with (- (- n))%Z by lia.
    rewrite Z.quot_opp_l by lia.
    assert (0 <= (- n) ÷ Z.pos d)%Z by (apply Z.quot_pos; lia). lia.
Qed.




(** ** The year loop *)

Lemma app_eq_self {A : Type} (l es : list A) : l = l ++ es -> es = [].
Proof.
  intros H. rewrite <- (app_nil_r l) in H at 1.
  apply app_inv_head in H. now symmetry.
Qed.

Section YearLoop.
Variable step : nat -> planner -> result (plan_entry * planner).

(** The step never raises. *)
Hypothesis step_ok : forall year st, exists e st', step year st = Ok (e, st').

(** The step numbers and prices its entry. *)
Variables sale_price price_increase : Q.
Hypothesis step_year : forall year st e st',
  step year st = Ok (e, st') ->
  e_year e = (year + 1)%nat /\
  e_price e = current_price sale_price price_increase year.

(** The entry carries the totals of the state after the step. *)
Hypothesis step_totals : forall year st e st',
  step year st = Ok (e, st') -> totals_of e st'.

(** Without units the step is idle and leaves the state alone. *)
Hypothesis step_idle : forall year st e st',
  get_total_available (remaining_lots st) <= 0 ->
  step year st = Ok (e, st') -> idle e /\ st' = st.

(** An entry that reports nothing remaining leaves nothing. *)
Hypothesis step_exhausted : forall year st e st',
  step year st = Ok (e, st') -> e_remaining e == 0 ->
  get_total_available (remaining_lots st') <= 0.

Lemma plan_loop_app ys1 : forall ys2 st plan,
  plan_loop step (ys1 ++ ys2) st plan
  = (r ← plan_loop step ys1 st plan; plan_loop step ys2 r.2 r.1).
Proof.
  induction ys1 as [|y ys1 IH]; intros ys2 st plan; simpl; [reflexivity|].
  destruct (step y st) as [[e st']|err]; simpl; [apply IH|reflexivity].
Qed.

(** The loop appends one entry per year. *)
Lemma plan_loop_entries ys : forall st plan,
  exists es st',
    plan_loop step ys st plan = Ok (plan ++ es, st') /\
    length es = length ys.
Proof.
  induction ys as [|y ys IH]; intros st plan; simpl.
  - exists [], st. rewrite app_nil_r. split; reflexivity.
  - destruct (step_ok y st) as (e & st1 & Hstep). rewrite Hstep. simpl.
    destruct (IH st1 (plan ++ [e])) as (es & st' & Hloop & Hlen).
    exists (e :: es), st'. rewrite Hloop, <- app_assoc. simpl.
    split; [reflexivity|]. now rewrite Hlen.
Qed.

Lemma plan_loop_years n : forall first st plan es st',
  plan_loop step (seq first n) st plan = Ok (plan ++ es, st') ->
  forall i e, es !! i = Some e ->
    e_year e = (first + i + 1)%nat /\
    e_price e = current_price sale_price price_increase (first + i).
Proof.
  induction n as [|n IH]; intros first st plan es st' Hloop i e Hi; simpl in Hloop.
  - injection Hloop as Hes _. apply app_eq_self in Hes. subst es.
    discriminate.
  - destruct (step first st) as [[e1 st1]|err] eqn:Hstep; simpl in Hloop;
      [|discriminate].
    destruct (plan_loop_entries (seq (S first) n) st1 (plan ++ [e1]))
      as (es1 & st1' & Hloop1 & _).
    rewrite Hloop1 in Hloop. injection Hloop as Hes <-.
    rewrite <- app_assoc in Hes. apply app_inv_head in Hes. simpl in Hes.
    subst es. destruct i as [|i]; simpl in Hi.
    + injection Hi as <-. rewrite !Nat.add_0_r.
      eapply step_year; eassumption.
    + replace (first + S i)%nat with (S first + i)%nat by lia.
      eapply IH; eassumption.
Qed.

(** From a state without units, every entry is idle and carries the
    same totals. *)
Lemma plan_loop_idle ys : forall st plan es st',
  get_total_available (remaining_lots st) <= 0 ->
  plan_loop step ys st plan = Ok (plan ++ es, st') ->
  st' = st /\ Forall (fun e => idle e /\ totals_of e st) es.
Proof.
  induction ys as [|y ys IH]; intros st plan es st' Hnone Hloop; simpl in Hloop.
  - injection Hloop as Hes <-. apply app_eq_self in Hes. subst es.
    split; [reflexivity|constructor].
  - destruct (step y st) as [[e1 st1]|err] eqn:Hstep; simpl in Hloop;
      [|discriminate].
    destruct (step_idle _ _ _ _ Hnone Hstep) as [Hidle ->].
    destruct (plan_loop_entries ys st (plan ++ [e1]))
      as (es1 & st1' & Hloop1 & _).
    rewrite Hloop1 in Hloop. injection Hloop as Hes <-.
    rewrite <- app_assoc in Hes. apply app_inv_head in Hes. simpl in Hes.
    subst es.
    destruct (IH st (plan ++ [e1]) es1 st1' Hnone Hloop1) as [-> Hall].
    split; [reflexivity|]. constructor; [|assumption].
    split; [assumption|]. eapply step_totals; eassumption.
Qed.

Lemma plan_loop_flat ys : forall st plan es st',
  plan_loop step ys st plan = Ok (plan ++ es, st') ->
  flat_after_exhaustion es.
Proof.
  induction ys as [|y ys IH]; intros st plan es st' Hloop; simpl in Hloop.
  - injection Hloop as Hes _. apply app_eq_self in Hes. subst es.
    intros i j ei ej _ Hi. discriminate.
  - destruct (step y st) as [[e1 st1]|err] eqn:Hstep; simpl in Hloop;
      [|discriminate].
    destruct (plan_loop_entries ys st1 (plan ++ [e1]))
      as (es1 & st1' & Hloop1 & _).
    rewrite Hloop1 in Hloop. injection Hloop as Hes <-.
    rewrite <- app_assoc in Hes. apply app_inv_head in Hes. simpl in Hes.
    subst es. intros i j ei ej Hij Hi Hj Hzero.
    destruct j as [|j]; [lia|]. simpl in Hj.
    destruct i as [|i]; simpl in Hi.
    + injection Hi as <-.
      pose proof (step_exhausted _ _ _ _ Hstep Hzero) as Hnone.
      destruct (plan_loop_idle ys st1 (plan ++ [e1]) es1 st1' Hnone Hloop1)
        as [_ Hall].
      rewrite Forall_forall in Hall.
      destruct (Hall ej) as [Hidle Htot].
      { apply list_elem_of_lookup. eauto. }
      destruct (step_totals _ _ _ _ Hstep) as (Hs & Hr & Ht).
      destruct Htot as (Hs' & Hr' & Ht').
      destruct Hidle as (? & ? & ? & ? & ? & ?).
      unfold flat_since. repeat split; congruence.
    + eapply (IH st1 (plan ++ [e1]) es1 st1' Hloop1 i j); try eassumption. lia.
Qed.
End YearLoop.

(** ** The two year steps *)

Lemma sold_step_fields year cur_price units gain lots' cost_basis st e st' :
  sold_step year cur_price units gain lots' cost_basis st = (e, st') ->
  e_year e = (year + 1)%nat /\ e_price e = cur_price /\ e_units e = units /\
  e_revenue e = inject_Z units * cur_price /\
  e_taxable e = (calculate_tax gain BASE_LIMIT).1 /\
  e_tax e = (calculate_tax gain BASE_LIMIT).2 /\
  e_net e = e_revenue e - e_tax e /\
  e_remaining e = get_total_available lots' /\
  totals_of e st' /\
  remaining_lots st' = lots' /\
  total_sold st' = (total_sold st + units)%Z /\
  total_tax st' = total_tax st + e_tax e.
Proof.
  unfold sold_step. destruct (calculate_tax gain BASE_LIMIT) as [taxable tax].
  intros [= <- <-]. unfold totals_of. simpl. repeat split; reflexivity.
Qed.

(** The three ways through the body of the steady-state year loop. *)
Lemma multi_year_step_cases sale_price price_increase year st e st' :
  multi_year_step sale_price price_increase year st = Ok (e, st') ->
  let cur_price := current_price sale_price price_increase year in
  let available := get_total_available (remaining_lots st) in
  (available <= 0 /\ e = idle_entry year cur_price 0 st /\ st' = st) \/
  (0 < available /\ e = idle_entry year cur_price available st /\ st' = st) \/
  (0 < available /\
   exists units gain lots' cost_basis,
     (0 < units)%Z /\
     max_sellable_for_gain (remaining_lots st) cur_price BASE_LIMIT
     = (units, Some gain) /\
     sell_loop (remaining_lots st) (inject_Z units) 0 = (lots', cost_basis) /\
     sold_step year cur_price units gain lots' cost_basis st = (e, st')).
Proof.
  intros Hstep cur_price available. unfold multi_year_step in Hstep.
  fold cur_price available in Hstep.
  case_Qleb available 0.
  { injection Hstep as <- <-. left. tauto. }
  right.
  destruct (max_sellable_for_gain (remaining_lots st) cur_price BASE_LIMIT)
    as [units gain] eqn:Hmax.
  destruct (0 <? units)%Z eqn:Hpos.
  - right. apply Z.ltb_lt in Hpos.
    destruct (sell_loop (remaining_lots st) (inject_Z units) 0)
      as [lots' cost_basis] eqn:Hsell.
    destruct gain as [gain|]; [|discriminate].
    injection Hstep as Hstep. split; [assumption|].
    exists units, gain, lots', cost_basis. tauto.
  - injection Hstep as <- <-. left. tauto.
Qed.

(** The three ways through the body of the full-extraction year loop. *)
Lemma full_extraction_step_cases sale_price price_increase years year st e st' :
  full_extraction_step sale_price price_increase years year st = Ok (e, st') ->
  let cur_price := current_price sale_price price_increase year in
  let available := get_total_available (remaining_lots st) in
  let units :=
    if Nat.eqb year (years - 1) then py_int available
    else (max_sellable_for_gain (remaining_lots st) cur_price BASE_LIMIT).1 in
  (available <= 0 /\ e = idle_entry year cur_price 0 st /\ st' = st) \/
  (0 < available /\ (units <= 0)%Z /\
   e = idle_entry year cur_price available st /\ st' = st) \/
  (0 < available /\ (0 < units)%Z /\
   exists lots' cost_basis,
     sell_loop (remaining_lots st) (inject_Z units) 0 = (lots', cost_basis) /\
     sold_step year cur_price units (inject_Z units * cur_price - cost_basis)
       lots' cost_basis st = (e, st')).
Proof.
  intros Hstep cur_price available units.
  unfold full_extraction_step in Hstep.
  fold cur_price available in Hstep. fold units in Hstep.
  case_Qleb available 0.
  { injection Hstep as <- <-. left. tauto. }
  right.
  destruct (0 <? units)%Z eqn:Hpos.
  - right. apply Z.ltb_lt in Hpos.
    destruct (sell_loop (remaining_lots st) (inject_Z units) 0)
      as [lots' cost_basis] eqn:Hsell.
    injection Hstep as Hstep. split; [assumption|]. split; [assumption|].
    exists lots', cost_basis. tauto.
  - apply Z.ltb_ge in Hpos. injection Hstep as <- <-. left. tauto.
Qed.

Lemma multi_year_step_ok sale_price price_increase year st :
  exists e st', multi_year_step sale_price price_increase year st = Ok (e, st').
Proof.
  unfold multi_year_step.
  case_Qleb (get_total_available (remaining_lots st)) 0; [eauto|].
  destruct (max_sellable_for_gain_spec (remaining_lots st)
              (current_price sale_price price_increase year) BASE_LIMIT)
    as (units & g & -> & _).
  destruct (0 <? units)%Z; [|eauto].
  destruct (sell_loop (remaining_lots st) (inject_Z units) 0) as [lots' c].
  destruct (sold_step year (current_price sale_price price_increase year)
              units g lots' c st) as [e st'] eqn:Hsold.
  eauto.
Qed.

Lemma full_extraction_step_ok sale_price price_increase years year st :
  exists e st',
    full_extraction_step sale_price price_increase years year st = Ok (e, st').
Proof.
  unfold full_extraction_step.
  case_Qleb (get_total_available (remaining_lots st)) 0; [eauto|].
  match goal with |- context [(0 <? ?u)%Z] => destruct (0 <? u)%Z end; [|eauto].
  match goal with |- context [sell_loop ?l ?q ?c] =>
    destruct (sell_loop l q c) as [lots' cb] end.
  match goal with |- context [sold_step ?a ?b ?c ?d ?e ?f ?g] =>
    destruct (sold_step a b c d e f g) as [en st'] end.
  eauto.
Qed.

Lemma idle_entry_idle year cur_price left st : idle (idle_entry year cur_price left st).
Proof. unfold idle. simpl. repeat split; reflexivity. Qed.

Lemma idle_entry_totals year cur_price left st :
  totals_of (idle_entry year cur_price left st) st.
Proof. unfold totals_of. simpl. repeat split; reflexivity. Qed.

(** What the generic loop lemmas ask of a step, for each planner. *)
Lemma multi_year_step_year sale_price price_increase year st e st' :
  multi_year_step sale_price price_increase year st = Ok (e, st') ->
  e_year e = (year + 1)%nat /\
  e_price e = current_price sale_price price_increase year.
Proof.
  intros Hstep. apply multi_year_step_cases in Hstep.
  destruct Hstep as [(_ & -> & _)|[(_ & -> & _)|(_ & u & g & l & c & _ & _ & _ & Hs)]];
    [split; reflexivity|split; reflexivity|].
  apply sold_step_fields in Hs. tauto.
Qed.

Lemma multi_year_step_totals sale_price price_increase year st e st' :
  multi_year_step sale_price price_increase year st = Ok (e, st') -> totals_of e st'.
Proof.
  intros Hstep. apply multi_year_step_cases in Hstep.
  destruct Hstep as [(_ & -> & ->)|[(_ & -> & ->)|(_ & u & g & l & c & _ & _ & _ & Hs)]];
    [apply idle_entry_totals|apply idle_entry_totals|].
  apply sold_step_fields in Hs. tauto.
Qed.

Lemma multi_year_step_idle sale_price price_increase year st e st' :
  get_total_available (remaining_lots st) <= 0 ->
  multi_year_step sale_price price_increase year st = Ok (e, st') ->
  idle e /\ st' = st.
Proof.
  intros Hnone Hstep. apply multi_year_step_cases in Hstep.
  destruct Hstep as [(_ & -> & ->)|[(Hpos & _)|(Hpos & _)]]; [|lra|lra].
  split; [apply idle_entry_idle|reflexivity].
Qed.

Lemma multi_year_step_exhausted sale_price price_increase year st e st' :
  multi_year_step sale_price price_increase year st = Ok (e, st') ->
  e_remaining e == 0 ->
  get_total_available (remaining_lots st') <= 0.
Proof.
  intros Hstep Hzero. apply multi_year_step_cases in Hstep.
  destruct Hstep as [(Hnone & _ & ->)|[(Hpos & -> & _)|(_ & u & g & l & c & _ & _ & _ & Hs)]].
  - assumption.
  - simpl in Hzero. lra.
  - apply sold_step_fields in Hs.
    destruct Hs as (_ & _ & _ & _ & _ & _ & _ & Hrem & _ & -> & _).
    rewrite Hrem in Hzero. lra.
Qed.

Lemma full_extraction_step_year sale_price price_increase years year st e st' :
  full_extraction_step sale_price price_increase years year st = Ok (e, st') ->
  e_year e = (year + 1)%nat /\
  e_price e = current_price sale_price price_increase year.
Proof.
  intros Hstep. apply full_extraction_step_cases in Hstep.
  destruct Hstep as [(_ & -> & _)|[(_ & _ & -> & _)|(_ & _ & l & c & _ & Hs)]];
    [split; reflexivity|split; reflexivity|].
  apply sold_step_fields in Hs. tauto.
Qed.

Lemma full_extraction_step_totals sale_price price_increase years year st e st' :
  full_extraction_step sale_price price_increase years year st = Ok (e, st') ->
  totals_of e st'.
Proof.
  intros Hstep. apply full_extraction_step_cases in Hstep.
  destruct Hstep as [(_ & -> & ->)|[(_ & _ & -> & ->)|(_ & _ & l & c & _ & Hs)]];
    [apply idle_entry_totals|apply idle_entry_totals|].
  apply sold_step_fields in Hs. tauto.
Qed.

Lemma full_extraction_step_idle sale_price price_increase years year st e st' :
  get_total_available (remaining_lots st) <= 0 ->
  full_extraction_step sale_price price_increase years year st = Ok (e, st') ->
  idle e /\ st' = st.
Proof.
  intros Hnone Hstep. apply full_extraction_step_cases in Hstep.
  destruct Hstep as [(_ & -> & ->)|[(Hpos & _)|(Hpos & _)]]; [|lra|lra].
  split; [apply idle_entry_idle|reflexivity].
Qed.

Lemma full_extraction_step_exhausted sale_price price_increase years year st e st' :
  full_extraction_step sale_price price_increase years year st = Ok (e, st') ->
  e_remaining e == 0 ->
  get_total_available (remaining_lots st') <= 0.
Proof.
  intros Hstep Hzero. apply full_extraction_step_cases in Hstep.
  destruct Hstep as [(Hnone & _ & ->)|[(Hpos & _ & -> & _)|(_ & _ & l & c & _ & Hs)]].
  - assumption.
  - simpl in Hzero. lra.
  - apply sold_step_fields in Hs.
    destruct Hs as (_ & _ & _ & _ & _ & _ & _ & Hrem & _ & -> & _).
    rewrite Hrem in Hzero. lra.
Qed.

(** ** Booking a sale on the working lots *)

Lemma sell_loop_prices lots : forall to_sell cost_basis,
  map price (sell_loop lots to_sell cost_basis).1 = map price lots.
Proof.
  induction lots as [|l rest IH]; intros to_sell cost_basis; simpl; [reflexivity|].
  case_Qleb to_sell 0; [reflexivity|].
  destruct (remaining l) as [r|]; simpl.
  - case_Qleb r 0.
    + specialize (IH to_sell cost_basis).
      destruct (sell_loop rest to_sell cost_basis) as [rest' c]. simpl in *.
      now rewrite IH.
    + specialize (IH (to_sell - py_min to_sell r)
                     (cost_basis + py_min to_sell r * price l)).
      destruct (sell_loop rest _ _) as [rest' c]. simpl in *.
      now rewrite IH.
  - specialize (IH to_sell cost_basis).
    destruct (sell_loop rest to_sell cost_basis) as [rest' c]. simpl in *.
    now rewrite IH.
Qed.

Lemma sell_loop_stocked lots : forall to_sell cost_basis,
  Forall stocked lots -> Forall stocked (sell_loop lots to_sell cost_basis).1.
Proof.
  induction lots as [|l rest IH]; intros to_sell cost_basis Hall; simpl;
    [constructor|].
  apply Forall_cons in Hall. destruct Hall as [(r & Hr & Hr0) Hrest].
  case_Qleb to_sell 0; [constructor; [exists r; tauto|assumption]|].
  rewrite Hr. case_Qleb r 0.
  - specialize (IH to_sell cost_basis Hrest).
    destruct (sell_loop rest to_sell cost_basis) as [rest' c]. simpl in *.
    constructor; [exists r; tauto|assumption].
  - specialize (IH (to_sell - py_min to_sell r)
                   (cost_basis + py_min to_sell r * price l) Hrest).
    destruct (sell_loop rest _ _) as [rest' c]. simpl in *.
    constructor; [|assumption].
    exists (r - py_min to_sell r). split; [reflexivity|].
    pose proof (py_min_le_r to_sell r). lra.
Qed.

Lemma sum_available_stocked lots : Forall stocked lots -> 0 <= sum_available lots.
Proof.
  induction 1 as [|l rest (r & Hr & Hr0) _ IH]; simpl; [lra|].
  unfold lot_available. rewrite Hr. lra.
Qed.

(** A sale of [to_sell] units that the lots cover takes exactly that many
    units out of them. *)
Lemma sell_loop_total lots : forall to_sell cost_basis,
  Forall stocked lots -> 0 <= to_sell -> to_sell <= sum_available lots ->
  sum_available (sell_loop lots to_sell cost_basis).1
  == sum_available lots - to_sell.
Proof.
  induction lots as [|l rest IH]; intros to_sell cost_basis Hall H0 Hle; simpl in *;
    [lra|].
  apply Forall_cons in Hall. destruct Hall as [(r & Hr & Hr0) Hrest].
  pose proof (sum_available_stocked rest Hrest) as Hsum.
  assert (Hav : lot_available l = r) by (unfold lot_available; now rewrite Hr).
  rewrite Hav in *.
  case_Qleb to_sell 0; [simpl; rewrite Hav; lra|].
  rewrite Hr. case_Qleb r 0.
  - specialize (IH to_sell cost_basis Hrest H0).
    destruct (sell_loop rest to_sell cost_basis) as [rest' c]. simpl in *.
    rewrite Hav, IH by lra. lra.
  - assert (Hmin : 0 <= to_sell - py_min to_sell r <= sum_available rest).
    { unfold py_min. case_Qltb r to_sell; lra. }
    specialize (IH (to_sell - py_min to_sell r)
                   (cost_basis + py_min to_sell r * price l) Hrest).
    destruct (sell_loop rest _ _) as [rest' c]. simpl in *.
    rewrite IH by tauto. unfold lot_available. simpl. lra.
Qed.

(** ** Invariants of the year loop *)

Lemma plan_loop_prefix step ys : forall st plan plan' st',
  plan_loop step ys st plan = Ok (plan', st') -> exists es, plan' = plan ++ es.
Proof.
  induction ys as [|y ys IH]; intros st plan plan' st' Hloop; simpl in Hloop.
  - injection Hloop as <- _. exists []. now rewrite app_nil_r.
  - destruct (step y st) as [[e1 st1]|err]; simpl in Hloop; [|discriminate].
    destruct (IH _ _ _ _ Hloop) as (es & ->).
    exists (e1 :: es). now rewrite <- app_assoc.
Qed.

(** The loop after its first step, in the shape the induction needs. *)
Lemma plan_loop_tail step ys st1 plan e1 es st' :
  plan_loop step ys st1 (plan ++ [e1]) = Ok (plan ++ es, st') ->
  exists es1, es = e1 :: es1 /\
    plan_loop step ys st1 (plan ++ [e1]) = Ok ((plan ++ [e1]) ++ es1, st').
Proof.
  intros Hloop. destruct (plan_loop_prefix _ _ _ _ _ _ Hloop) as (es1 & Hes).
  exists es1. rewrite <- app_assoc in Hes. apply app_inv_head in Hes.
  simpl in Hes. subst es. split; [reflexivity|].
  rewrite Hloop. now rewrite <- app_assoc.
Qed.

Section LoopInvariant.
Variable step : nat -> planner -> result (plan_entry * planner).
Variable year_ok : nat -> Prop.
Variable inv : planner -> Prop.
Variable entry_ok : plan_entry -> Prop.

Hypothesis step_inv : forall year st e st',
  year_ok year -> inv st -> step year st = Ok (e, st') ->
  inv st' /\ entry_ok e.

Lemma plan_loop_inv ys : forall st plan es st',
  Forall year_ok ys -> inv st ->
  plan_loop step ys st plan = Ok (plan ++ es, st') ->
  inv st' /\ Forall entry_ok es.
Proof.
  induction ys as [|y ys IH]; intros st plan es st' Hys Hinv Hloop;
    simpl in Hloop.
  - injection Hloop as Hes <-. apply app_eq_self in Hes. subst es.
    split; [assumption|constructor].
  - apply Forall_cons in Hys. destruct Hys as [Hy Hys].
    destruct (step y st) as [[e1 st1]|err] eqn:Hstep; simpl in Hloop;
      [|discriminate].
    destruct (step_inv _ _ _ _ Hy Hinv Hstep) as [Hinv1 He1].
    destruct (plan_loop_tail _ _ _ _ _ _ _ Hloop) as (es1 & -> & Hloop1).
    destruct (IH _ _ _ _ Hys Hinv1 Hloop1) as [Hinv' Hes1].
    split; [assumption|]. constructor; assumption.
Qed.
End LoopInvariant.

(** ** C10: the steady-state plan under rising prices *)

Lemma default_remaining_price l : price (default_remaining l) = price l.
Proof. unfold default_remaining. destruct (remaining l); reflexivity. Qed.

Lemma default_remaining_available l :
  lot_available (default_remaining l) = lot_available l.
Proof.
  unfold default_remaining, lot_available.
  destruct (remaining l) eqn:E; simpl; [now rewrite E|reflexivity].
Qed.

Lemma planner_init_prices lots :
  map price (remaining_lots (planner_init lots)) = map price lots.
Proof.
  simpl. induction lots as [|l rest IH]; simpl; [reflexivity|].
  now rewrite default_remaining_price, IH.
Qed.

Lemma Forall_price_map (bound : Q) lots lots' :
  map price lots' = map price lots ->
  Forall (fun l => price l <= bound) lots ->
  Forall (fun l => price l <= bound) lots'.
Proof.
  intros Hmap Hall.
  apply (Forall_map price (fun x => x <= bound)) in Hall.
  rewrite <- Hmap in Hall.
  apply (Forall_map price (fun x => x <= bound)). assumption.
Qed.

(** A steady-state year keeps the lot prices and books no tax when no lot
    costs more than the year's price. *)
Lemma multi_year_step_tax_free lots0 sale_price price_increase year st e st' :
  Forall (fun l => price l <= current_price sale_price price_increase year) lots0 ->
  map price (remaining_lots st) = map price lots0 /\ total_tax st == 0 ->
  multi_year_step sale_price price_increase year st = Ok (e, st') ->
  (map price (remaining_lots st') = map price lots0 /\ total_tax st' == 0) /\
  tax_free e.
Proof.
  intros Hprice [Hmap Htax] Hstep. apply multi_year_step_cases in Hstep.
  destruct Hstep
    as [(_ & -> & ->)|[(_ & -> & ->)|(_ & u & g & l & c & Hu & Hmax & Hsell & Hs)]].
  - split; [tauto|]. unfold tax_free. simpl. repeat split; try reflexivity.
    assumption.
  - split; [tauto|]. unfold tax_free. simpl. repeat split; try reflexivity.
    assumption.
  - destruct (max_sellable_for_gain_spec (remaining_lots st)
                (current_price sale_price price_increase year) BASE_LIMIT)
      as (u' & g' & Hmax' & _ & Hwithin).
    rewrite Hmax in Hmax'. injection Hmax' as <- <-.
    assert (Hg : g <= BASE_LIMIT).
    { apply Hwithin; [|assumption].
      apply (Forall_price_map _ lots0); assumption. }
    assert (Hfree : calculate_tax g BASE_LIMIT = (0, 0)).
    { unfold calculate_tax. apply Qleb_true in Hg. now rewrite Hg. }
    apply sold_step_fields in Hs. rewrite Hfree in Hs. simpl in Hs.
    destruct Hs as (_ & _ & _ & Hrev & Htaxable & Htx & Hnet & _ & Htot & Hlots & _ & Htt).
    destruct Htot as (_ & _ & Hct).
    split; [split|].
    + rewrite Hlots, <- Hmap.
      pose proof (sell_loop_prices (remaining_lots st) (inject_Z u) 0) as Hp.
      rewrite Hsell in Hp. exact Hp.
    + rewrite Htt, Htx. lra.
    + unfold tax_free. rewrite Htaxable, Hnet, Htx, Hct, Htt, Htx.
      split; [reflexivity|]. split; [reflexivity|]. split; lra.
Qed.

Lemma multi_year_plan_tax_free lots sale_price years price_increase :
  (forall year, (year < years)%nat ->
     Forall (fun l => price l <= current_price sale_price price_increase year) lots) ->
  exists plan,
    plan_multi_year_sales lots sale_price years price_increase = Ok plan /\
    length plan = years /\ Forall tax_free plan.
Proof.
  intros Hprice. unfold plan_multi_year_sales.
  destruct (plan_loop_entries (multi_year_step sale_price price_increase)
              (multi_year_step_ok sale_price price_increase)
              (seq 0 years) (planner_init lots) [])
    as (es & st' & Hloop & Hlen).
  rewrite Hloop. simpl. exists es. split; [reflexivity|].
  split; [now rewrite Hlen, length_seq|].
  refine (proj2 (plan_loop_inv (multi_year_step sale_price price_increase)
                   (fun year => (year < years)%nat)
                   (fun st => map price (remaining_lots st) = map price lots /\
                              total_tax st == 0)
                   tax_free _ (seq 0 years) (planner_init lots) [] es st' _ _ Hloop)).
  - intros year st e st1 Hyear Hinv Hstep.
    eapply multi_year_step_tax_free; eauto.
  - apply Forall_forall. intros y Hy. apply elem_of_seq in Hy. lia.
  - split; [apply planner_init_prices|reflexivity].
Qed.

Lemma Qpower_ge_one (a : Q) (n : nat) : 1 <= a -> 1 <= a ^ Z.of_nat n.
Proof. intros Ha. apply Qpower_1_le; [assumption|lia]. Qed.

Lemma current_price_grows sale_price price_increase year :
  0 <= sale_price -> 0 <= price_increase ->
  sale_price <= current_price sale_price price_increase year.
Proof.
  intros HP Hg. unfold current_price.
  pose proof (Qpower_ge_one (1 + price_increase) year ltac:(lra)) as Hpow.
  assert (0 <= sale_price * ((1 + price_increase) ^ Z.of_nat year - 1))
    by (apply Qmult_le_0_compat; lra).
  lra.
Qed.


(** In exact arithmetic, when in every simulated year no lot's unit price
    exceeds that year's sale price [sale_price * (1 + growth) ^ (year - 1)]
    -- as is the case when no lot's unit price exceeds the sale price, the
    sale price is not negative and the growth rate is not negative -- the
    steady-state plan has one entry per year and every entry has
    [taxable = 0] and [tax = 0], net proceeds equal to the revenue, and a
    cumulative tax of 0. *)
Lemma steady_state_plan_tax_free_exact
    (lots : list lot) (sale_price : Q) (years : nat) (price_increase : Q) :
  ((forall year, (year < years)%nat ->
      Forall (fun l => price l <= current_price sale_price price_increase year) lots) ->
   exists plan,
     plan_multi_year_sales lots sale_price years price_increase = Ok plan /\
     length plan = years /\ Forall tax_free plan) /\
  (0 <= sale_price -> 0 <= price_increase ->
   Forall (fun l => price l <= sale_price) lots ->
   exists plan,
     plan_multi_year_sales lots sale_price years price_increase = Ok plan /\
     length plan = years /\ Forall tax_free plan).
Proof.
  split.
  - apply multi_year_plan_tax_free.
  - intros HP Hg Hprice. apply multi_year_plan_tax_free.
    intros year _. eapply Forall_impl; [exact Hprice|].
    intros l Hl. simpl in Hl.
    pose proof (current_price_grows sale_price price_increase year HP Hg). lra.
Qed.



(** ** C8: one entry per year, exhaustion, and the final year *)

Lemma whole_units_plus a b : whole_units a -> whole_units b -> whole_units (a + b).
Proof.
  intros (x & Hx & Ha) (y & Hy & Hb). exists (x + y)%Z. split; [lia|].
  rewrite inject_Z_plus, Ha, Hb. reflexivity.
Qed.

Lemma whole_units_nonneg a : whole_units a -> 0 <= a.
Proof.
  intros (x & Hx & Ha). rewrite Ha. apply inject_Z_nonneg. assumption.
Qed.

Lemma sum_available_whole lots :
  Forall (fun l => whole_units (lot_available l)) lots ->
  whole_units (sum_available lots).
Proof.
  induction 1 as [|l rest Hl _ IH]; simpl.
  - exists 0%Z. split; [lia|reflexivity].
  - apply whole_units_plus; assumption.
Qed.

Lemma planner_init_available lots :
  sum_available (remaining_lots (planner_init lots)) = sum_available lots.
Proof.
  simpl. induction lots as [|l rest IH]; simpl; [reflexivity|].
  now rewrite default_remaining_available, IH.
Qed.

Lemma planner_init_conserved lots :
  Forall (fun l => whole_units (lot_available l)) lots ->
  conserved (get_total_available lots) (planner_init lots).
Proof.
  intros Hwhole. unfold conserved.
  assert (Htot : get_total_available (remaining_lots (planner_init lots))
                 == get_total_available lots).
  { rewrite !get_total_available_sum, planner_init_available. reflexivity. }
  split; [|split].
  - simpl. clear Htot.
    induction Hwhole as [|l rest Hl _ IH]; simpl; [constructor|].
    constructor; [|assumption].
    exists (lot_available l). split; [|apply whole_units_nonneg; assumption].
    unfold default_remaining, lot_available.
    destruct (remaining l) eqn:E; simpl; [assumption|reflexivity].
  - destruct (sum_available_whole lots Hwhole) as (z & Hz & Hsum).
    exists z. split; [assumption|].
    rewrite Htot, get_total_available_sum. assumption.
  - rewrite Htot. change (inject_Z (total_sold (planner_init lots))) with 0. lra.
Qed.

(** A sale of [units] that the working lots cover keeps the invariant. *)
Lemma sold_step_conserved held year cur_price units gain lots' cost_basis st e st' :
  conserved held st -> (0 <= units)%Z ->
  inject_Z units <= get_total_available (remaining_lots st) ->
  sell_loop (remaining_lots st) (inject_Z units) 0 = (lots', cost_basis) ->
  sold_step year cur_price units gain lots' cost_basis st = (e, st') ->
  conserved held st' /\
  get_total_available (remaining_lots st')
  == get_total_available (remaining_lots st) - inject_Z units.
Proof.
  intros (Hstocked & (z & Hz & Hwhole) & Hheld) Hu Hle Hsell Hs.
  apply sold_step_fields in Hs.
  destruct Hs as (_ & _ & _ & _ & _ & _ & _ & _ & _ & Hlots & Hsold & _).
  assert (Hl : lots' = (sell_loop (remaining_lots st) (inject_Z units) 0).1)
    by now rewrite Hsell.
  assert (Htotal : get_total_available lots'
                   == get_total_available (remaining_lots st) - inject_Z units).
  { rewrite !get_total_available_sum, Hl.
    apply sell_loop_total; [assumption|apply inject_Z_nonneg; assumption|].
    rewrite <- get_total_available_sum. assumption. }
  unfold conserved. rewrite Hlots. split; [|assumption].
  split; [|split].
  - rewrite Hl. apply sell_loop_stocked. assumption.
  - exists (z - units)%Z.
    assert (units <= z)%Z by (rewrite Zle_Qle, <- Hwhole; assumption).
    split; [lia|].
    rewrite Htotal, Hwhole. unfold Z.sub.
    rewrite inject_Z_plus, inject_Z_opp. lra.
  - rewrite Hsold, inject_Z_plus, Htotal. lra.
Qed.

Lemma full_extraction_step_conserved held sale_price price_increase years year
    st e st' :
  conserved held st ->
  full_extraction_step sale_price price_increase years year st = Ok (e, st') ->
  conserved held st'.
Proof.
  intros Hinv Hstep. apply full_extraction_step_cases in Hstep.
  destruct Hstep as [(_ & _ & ->)|[(_ & _ & _ & ->)|(Hpos & Hu & l & c & Hsell & Hs)]];
    [assumption|assumption|].
  eapply (sold_step_conserved held); try eassumption; [lia|].
  destruct (Nat.eqb year (years - 1)).
  - apply py_int_le. lra.
  - destruct (max_sellable_for_gain_spec (remaining_lots st)
                (current_price sale_price price_increase year) BASE_LIMIT)
      as (u & g & Hmax & Hcov & _).
    rewrite Hmax. simpl. apply Hcov. lra.
Qed.

(** Every entry accounts for the whole holding: what remains plus what
    has been sold. *)
Lemma full_extraction_step_accounts held sale_price price_increase years year
    st e st' :
  conserved held st ->
  full_extraction_step sale_price price_increase years year st = Ok (e, st') ->
  e_remaining e + inject_Z (e_cumulative_sold e) == held.
Proof.
  intros Hinv Hstep.
  pose proof (full_extraction_step_totals _ _ _ _ _ _ _ Hstep) as (Hcs & _ & _).
  pose proof (full_extraction_step_conserved _ _ _ _ _ _ _ _ Hinv Hstep)
    as (_ & _ & Hheld').
  destruct Hinv as (Hstocked & _ & Hheld).
  apply full_extraction_step_cases in Hstep.
  destruct Hstep
    as [(Hnone & -> & ->)|[(_ & _ & -> & ->)|(_ & _ & l & c & _ & Hs)]].
  - simpl. pose proof (sum_available_stocked _ Hstocked) as Hnn.
    rewrite <- get_total_available_sum in Hnn. lra.
  - simpl. lra.
  - apply sold_step_fields in Hs.
    destruct Hs as (_ & _ & _ & _ & _ & _ & _ & Hrem & _ & Hlots & _).
    rewrite Hcs, Hrem. rewrite Hlots in Hheld'. lra.
Qed.

(** In the final year everything still held is sold. *)
Lemma full_extraction_last_step held sale_price price_increase years year
    st e st' :
  conserved held st -> Nat.eqb year (years - 1) = true ->
  full_extraction_step sale_price price_increase years year st = Ok (e, st') ->
  e_remaining e == 0 /\ inject_Z (e_cumulative_sold e) == held.
Proof.
  intros Hinv Hlast Hstep.
  pose proof (full_extraction_step_totals _ _ _ _ _ _ _ Hstep) as (Hcs & _ & _).
  pose proof (full_extraction_step_conserved _ _ _ _ _ _ _ _ Hinv Hstep)
    as (_ & _ & Hheld').
  destruct Hinv as (Hstocked & (z & Hz & Hwhole) & Hheld).
  apply full_extraction_step_cases in Hstep. rewrite Hlast in Hstep.
  destruct Hstep
    as [(Hnone & -> & ->)|[(Hpos & Hu & _)|(Hpos & Hu & l & c & Hsell & Hs)]].
  - simpl. split; [reflexivity|].
    pose proof (sum_available_stocked _ Hstocked) as Hnn.
    rewrite <- get_total_available_sum in Hnn. lra.
  - rewrite (py_int_whole _ z Hwhole) in Hu.
    assert (0 < inject_Z z) by lra.
    change 0 with (inject_Z 0) in H. rewrite <- Zlt_Qlt in H. lia.
  - rewrite (py_int_whole _ z Hwhole) in *.
    assert (Hinv : conserved held st).
    { split; [assumption|]. split; [exists z; tauto|assumption]. }
    assert (Hle : inject_Z z <= get_total_available (remaining_lots st)) by lra.
    destruct (sold_step_conserved held _ _ _ _ _ _ _ _ _
                Hinv Hz Hle Hsell Hs) as [_ Htotal].
    apply sold_step_fields in Hs.
    destruct Hs as (_ & _ & _ & _ & _ & _ & _ & Hrem & _ & Hlots & _).
    rewrite Hcs, Hrem. rewrite Hlots in Hheld', Htotal.
    split; lra.
Qed.

Lemma multi_year_plan_shape lots sale_price years price_increase :
  exists plan,
    plan_multi_year_sales lots sale_price years price_increase = Ok plan /\
    length plan = years /\
    one_entry_per_year sale_price price_increase plan /\
    flat_after_exhaustion plan.
Proof.
  unfold plan_multi_year_sales.
  destruct (plan_loop_entries _ (multi_year_step_ok sale_price price_increase)
              (seq 0 years) (planner_init lots) [])
    as (es & st' & Hloop & Hlen).
  rewrite Hloop. simpl. exists es. split; [reflexivity|].
  split; [now rewrite Hlen, length_seq|]. split.
  - intros i e Hi.
    exact (plan_loop_years _ (multi_year_step_ok sale_price price_increase)
             sale_price price_increase
             (multi_year_step_year sale_price price_increase)
             years 0%nat _ _ _ _ Hloop i e Hi).
  - exact (plan_loop_flat _ (multi_year_step_ok sale_price price_increase)
             (multi_year_step_totals sale_price price_increase)
             (multi_year_step_idle sale_price price_increase)
             (multi_year_step_exhausted sale_price price_increase)
             _ _ _ _ _ Hloop).
Qed.

Lemma full_extraction_plan_shape lots sale_price years price_increase :
  exists plan,
    plan_full_extraction lots sale_price years price_increase = Ok plan /\
    length plan = years /\
    one_entry_per_year sale_price price_increase plan /\
    flat_after_exhaustion plan /\
    (Forall (fun l => whole_units (lot_available l)) lots ->
     Forall (fun e => e_remaining e + inject_Z (e_cumulative_sold e)
                      == get_total_available lots) plan /\
     forall e, plan !! (years - 1)%nat = Some e ->
       e_remaining e == 0 /\
       inject_Z (e_cumulative_sold e) == get_total_available lots).
Proof.
  unfold plan_full_extraction.
  set (step := full_extraction_step sale_price price_increase years).
  assert (Hok : forall year st, exists e st', step year st = Ok (e, st'))
    by apply full_extraction_step_ok.
  destruct (plan_loop_entries _ Hok (seq 0 years) (planner_init lots) [])
    as (es & st' & Hloop & Hlen).
  rewrite Hloop. simpl. exists es. split; [reflexivity|].
  rewrite length_seq in Hlen.
  split; [assumption|]. split; [|split].
  - intros i e Hi.
    exact (plan_loop_years _ Hok sale_price price_increase
             (full_extraction_step_year sale_price price_increase years)
             years 0%nat _ _ _ _ Hloop i e Hi).
  - exact (plan_loop_flat _ Hok
             (full_extraction_step_totals sale_price price_increase years)
             (full_extraction_step_idle sale_price price_increase years)
             (full_extraction_step_exhausted sale_price price_increase years)
             _ _ _ _ _ Hloop).
  - intros Hwhole. split.
    { refine (proj2 (plan_loop_inv step (fun _ => True)
                       (conserved (get_total_available lots))
                       (fun e => e_remaining e + inject_Z (e_cumulative_sold e)
                                 == get_total_available lots)
                       _ (seq 0 years) (planner_init lots) [] es st' _ _ Hloop)).
      - intros year st e st0 _ Hinv Hs. split.
        + eapply full_extraction_step_conserved; eassumption.
        + eapply full_extraction_step_accounts; eassumption.
      - apply Forall_forall. intros; exact I.
      - apply planner_init_conserved. assumption. }
    intros e He.
    destruct years as [|k].
    { destruct es; [discriminate|discriminate]. }
    replace (S k - 1)%nat with k in He by lia.
    rewrite seq_S, plan_loop_app in Hloop. simpl in Hloop.
    destruct (plan_loop_entries _ Hok (seq 0 k) (planner_init lots) [])
      as (es1 & st1 & Hloop1 & Hlen1).
    rewrite length_seq in Hlen1.
    rewrite Hloop1 in Hloop. simpl in Hloop.
    destruct (step k st1) as [[e1 st2]|err] eqn:Hstep; simpl in Hloop;
      [|discriminate].
    injection Hloop as Hes _. subst es.
    rewrite lookup_app_r in He by lia.
    replace (k - length es1)%nat with 0%nat in He by lia. simpl in He.
    injection He as <-.
    assert (Hinv : conserved (get_total_available lots) st1).
    { refine (proj1 (plan_loop_inv step (fun _ => True)
                       (conserved (get_total_available lots)) (fun _ => True)
                       _ (seq 0 k) (planner_init lots) [] es1 st1 _ _ Hloop1)).
      - intros year st e st0 _ Hinv Hs. split; [|exact I].
        eapply full_extraction_step_conserved; eassumption.
      - apply Forall_forall. intros; exact I.
      - apply planner_init_conserved. assumption. }
    eapply full_extraction_last_step; [exact Hinv| |exact Hstep].
    apply Nat.eqb_eq. lia.
Qed.

(** C8.  With a fractional holding the final year of full extraction
    does not sell all remaining units: for a single lot of 2.5 units and
    a plan of one year, the year sells [int(2.5) = 2] units and reports
    half a unit remaining, where the code's own comment for that year
    reads "Last year: sell everything remaining". *)
Lemma full_extraction_leaves_fraction :
  exists plan e,
    plan_full_extraction [mkLot "d1" (5 # 2) 10 (Some (5 # 2))] 20 1 0 = Ok plan /\
    plan !! 0%nat = Some e /\
    e_units e = 2%Z /\ e_remaining e == 1 # 2 /\ ~ e_remaining e == 0.
Proof.
  eexists. eexists. split; [vm_compute; reflexivity|].
  split; [reflexivity|]. simpl.
  split; [reflexivity|]. split; [reflexivity|]. intros H. discriminate H.
Qed.



(** ** C9: the caller's ledger *)

(** *** Reading the store *)

Lemma fifo_loop_h_reads lots : forall cost rem used h,
  fifo_loop_h lots cost rem used h = (fifo_loop (snapshot h lots) cost rem used, h).
Proof.
  induction lots as [|a rest IH]; intros cost rem used h; simpl; [reflexivity|].
  destruct (Qleb rem 0); [reflexivity|].
  destruct (Qleb (lot_available (h !!! a)) 0); apply IH.
Qed.

Lemma calculate_fifo_cost_basis_h_reads lots qty h :
  calculate_fifo_cost_basis_h lots qty h
  = (calculate_fifo_cost_basis (snapshot h lots) qty, h).
Proof.
  unfold calculate_fifo_cost_basis_h, calculate_fifo_cost_basis.
  rewrite fifo_loop_h_reads.
  destruct (fifo_loop (snapshot h lots) 0 qty []) as [[c r] u].
  destruct (Qltb 0 r); reflexivity.
Qed.

Lemma snapshot_ext (h h' : list lot) (refs : list nat) :
  (forall a, a ∈ refs -> h' !! a = h !! a) -> snapshot h' refs = snapshot h refs.
Proof.
  intros Hsame. unfold snapshot. apply map_ext_in. intros a Ha.
  rewrite !list_lookup_total_alt, Hsame; [reflexivity|].
  apply list_elem_of_In. assumption.
Qed.

Lemma lookup_total_same (h h' : list lot) (a : nat) :
  h' !! a = h !! a -> h' !!! a = h !!! a.
Proof. intros H. now rewrite !list_lookup_total_alt, H. Qed.

Lemma snapshot_insert (h : list lot) (refs : list nat) (a : nat) (v : lot) :
  a ∉ refs -> snapshot (<[a := v]> h) refs = snapshot h refs.
Proof.
  intros Ha. apply snapshot_ext. intros b Hb.
  apply list_lookup_insert_ne. intros ->. contradiction.
Qed.

Lemma snapshot_app (h extra : list lot) (refs : list nat) :
  Forall (fun a => (a < length h)%nat) refs ->
  snapshot (h ++ extra) refs = snapshot h refs.
Proof.
  intros Hvalid. apply snapshot_ext. intros a Ha.
  rewrite Forall_forall in Hvalid. apply lookup_app_l. auto.
Qed.

Lemma snapshot_fresh (extra : list lot) : forall h : list lot,
  snapshot (h ++ extra) (seq (length h) (length extra)) = extra.
Proof.
  induction extra as [|v extra IH]; intros h; simpl; [reflexivity|].
  f_equal.
  - rewrite list_lookup_total_alt, lookup_app_r by lia.
    now rewrite Nat.sub_diag.
  - specialize (IH (h ++ [v])).
    rewrite <- app_assoc, length_app in IH. simpl in IH.
    rewrite Nat.add_1_r in IH. exact IH.
Qed.

(** *** Copying the ledger *)

Lemma copy_lots_spec lots : forall h,
  Forall (fun a => (a < length h)%nat) lots ->
  copy_lots lots h = (seq (length h) (length lots), h ++ snapshot h lots).
Proof.
  induction lots as [|a rest IH]; intros h Hvalid; simpl.
  - now rewrite app_nil_r.
  - apply Forall_cons in Hvalid. destruct Hvalid as [Ha Hrest].
    rewrite IH.
    + rewrite length_app. simpl. rewrite Nat.add_1_r.
      rewrite snapshot_app by assumption.
      now rewrite <- app_assoc.
    + eapply Forall_impl; [exact Hrest|].
      intros b Hb. simpl in Hb. rewrite length_app. simpl. lia.
Qed.

(** *** Updates in place touch the working lots only *)

Lemma default_remaining_h_length refs : forall h,
  length (default_remaining_h refs h) = length h.
Proof.
  induction refs as [|a rest IH]; intros h; simpl; [reflexivity|].
  destruct (remaining (h !!! a)); rewrite IH; [reflexivity|apply length_insert].
Qed.

Lemma default_remaining_h_frame refs : forall h b,
  b ∉ refs -> default_remaining_h refs h !! b = h !! b.
Proof.
  induction refs as [|a rest IH]; intros h b Hb; simpl; [reflexivity|].
  apply not_elem_of_cons in Hb. destruct Hb as [Hne Hb].
  destruct (remaining (h !!! a)); rewrite IH by assumption; [reflexivity|].
  apply list_lookup_insert_ne. congruence.
Qed.

Lemma default_remaining_h_snapshot refs : forall h,
  NoDup refs -> Forall (fun a => (a < length h)%nat) refs ->
  snapshot (default_remaining_h refs h) refs = map default_remaining (snapshot h refs).
Proof.
  induction refs as [|a rest IH]; intros h Hnd Hvalid; simpl; [reflexivity|].
  apply NoDup_cons in Hnd. destruct Hnd as [Ha Hnd].
  apply Forall_cons in Hvalid. destruct Hvalid as [Hlt Hvalid].
  unfold default_remaining at 1.
  destruct (remaining (h !!! a)) eqn:Hrem.
  - rewrite (lookup_total_same h _ a)
      by (apply default_remaining_h_frame; assumption).
    now rewrite IH by assumption.
  - set (h1 := <[a := set_remaining (h !!! a) (quantity (h !!! a))]> h).
    assert (Hvalid1 : Forall (fun b => (b < length h1)%nat) rest).
    { eapply Forall_impl; [exact Hvalid|].
      intros b Hb. simpl in Hb. subst h1. now rewrite length_insert. }
    rewrite (lookup_total_same h1 _ a)
      by (apply default_remaining_h_frame; assumption).
    rewrite IH by assumption.
    subst h1. rewrite list_lookup_total_insert_eq by assumption.
    now rewrite snapshot_insert by assumption.
Qed.

Lemma sell_loop_h_length refs : forall to_sell cost_basis h,
  length (sell_loop_h refs to_sell cost_basis h).2 = length h.
Proof.
  induction refs as [|a rest IH]; intros to_sell cost_basis h; simpl; [reflexivity|].
  destruct (Qleb to_sell 0); [reflexivity|].
  destruct (Qleb _ 0); rewrite IH; [reflexivity|apply length_insert].
Qed.

Lemma sell_loop_h_frame refs : forall to_sell cost_basis h b,
  b ∉ refs -> (sell_loop_h refs to_sell cost_basis h).2 !! b = h !! b.
Proof.
  induction refs as [|a rest IH]; intros to_sell cost_basis h b Hb; simpl;
    [reflexivity|].
  apply not_elem_of_cons in Hb. destruct Hb as [Hne Hb].
  destruct (Qleb to_sell 0); [reflexivity|].
  destruct (Qleb _ 0); rewrite IH by assumption; [reflexivity|].
  apply list_lookup_insert_ne. congruence.
Qed.

(** On distinct working lots the sale loop in place does what the sale
    loop on values does. *)
Lemma sell_loop_h_snapshot refs : forall to_sell cost_basis h,
  NoDup refs -> Forall (fun a => (a < length h)%nat) refs ->
  sell_loop (snapshot h refs) to_sell cost_basis
  = (snapshot (sell_loop_h refs to_sell cost_basis h).2 refs,
     (sell_loop_h refs to_sell cost_basis h).1).
Proof.
  induction refs as [|a rest IH]; intros to_sell cost_basis h Hnd Hvalid; simpl;
    [reflexivity|].
  apply NoDup_cons in Hnd. destruct Hnd as [Ha Hnd].
  apply Forall_cons in Hvalid. destruct Hvalid as [Hlt Hvalid].
  destruct (Qleb to_sell 0); [reflexivity|].
  set (avail := match remaining (h !!! a) with Some r => r | None => 0 end).
  destruct (Qleb avail 0).
  - rewrite IH by assumption. simpl.
    rewrite (lookup_total_same h (sell_loop_h rest to_sell cost_basis h).2 a)
      by (apply sell_loop_h_frame; assumption).
    reflexivity.
  - set (h1 := <[a := set_remaining (h !!! a) (avail - py_min to_sell avail)]> h).
    assert (Hvalid1 : Forall (fun b => (b < length h1)%nat) rest).
    { eapply Forall_impl; [exact Hvalid|].
      intros b Hb. simpl in Hb. subst h1. now rewrite length_insert. }
    rewrite <- (snapshot_insert h rest a
                  (set_remaining (h !!! a) (avail - py_min to_sell avail))) by assumption.
    fold h1. rewrite IH by assumption. simpl.
    match goal with |- context [(sell_loop_h rest ?t ?c h1).2 !!! a] =>
      rewrite (lookup_total_same h1 (sell_loop_h rest t c h1).2 a)
        by (apply sell_loop_h_frame; assumption)
    end.
    subst h1. rewrite list_lookup_total_insert_eq by assumption.
    reflexivity.
Qed.

(** *** The planners on the store *)

Lemma snapshot_length (h : list lot) refs : length (snapshot h refs) = length refs.
Proof. unfold snapshot. apply length_map. Qed.

Lemma planner_init_h_spec h lots :
  Forall (fun a => (a < length h)%nat) lots ->
  working h (planner_init_h lots h) /\
  view (planner_init_h lots h) = planner_init (snapshot h lots).
Proof.
  intros Hvalid. unfold planner_init_h. rewrite copy_lots_spec by assumption.
  set (refs := seq (length h) (length lots)).
  set (h1 := h ++ snapshot h lots).
  assert (Hrefs : Forall (fun a => (length h <= a < length h1)%nat) refs).
  { apply Forall_forall. intros a Ha. apply elem_of_seq in Ha.
    subst h1. rewrite length_app, snapshot_length. lia. }
  split; [split; [|split]|]; simpl.
  - intros a Ha. rewrite default_remaining_h_frame.
    + subst h1. now apply lookup_app_l.
    + intros Hin. apply elem_of_seq in Hin. lia.
  - apply NoDup_seq.
  - rewrite default_remaining_h_length. exact Hrefs.
  - unfold view, planner_init. simpl. f_equal.
    rewrite default_remaining_h_snapshot.
    + f_equal. subst refs h1.
      pose proof (snapshot_fresh (snapshot h lots) h) as Hfresh.
      rewrite snapshot_length in Hfresh. exact Hfresh.
    + apply NoDup_seq.
    + eapply Forall_impl; [exact Hrefs|]. intros a Ha. simpl in Ha. lia.
Qed.

Lemma after_sale_working h s to_sell cost_basis st' :
  working h s ->
  working h (after_sale s (sell_loop_h (lot_refs s) to_sell cost_basis (store_of s)).2 st').
Proof.
  intros (Hpres & Hnd & Hrefs). unfold working. simpl.
  rewrite Forall_forall in Hrefs.
  split; [|split].
  - intros a Ha. rewrite sell_loop_h_frame; [now apply Hpres|].
    intros Hin. apply Hrefs in Hin. lia.
  - assumption.
  - rewrite sell_loop_h_length. apply Forall_forall. assumption.
Qed.

Lemma working_valid h s :
  working h s -> Forall (fun a => (a < length (store_of s))%nat) (lot_refs s).
Proof.
  intros (_ & _ & Hrefs). eapply Forall_impl; [exact Hrefs|].
  intros a Ha. simpl in Ha. lia.
Qed.

Lemma sold_step_view year cur_price units gain h' cost_basis s e st' :
  sold_step year cur_price units gain (snapshot h' (lot_refs s)) cost_basis (view s)
  = (e, st') ->
  view (after_sale s h' st') = st'.
Proof.
  unfold sold_step. destruct (calculate_tax gain BASE_LIMIT) as [taxable tax].
  intros [= <- <-]. reflexivity.
Qed.

(** A steady-state year on the store is the year on the values it
    stores, and writes to the working lots only. *)
Lemma multi_year_step_h_refines h sale_price price_increase year s :
  working h s ->
  multi_year_step sale_price price_increase year (view s)
  = read_step (multi_year_step_h sale_price price_increase year s) /\
  working h (multi_year_step_h sale_price price_increase year s).2.
Proof.
  intros Hw. pose proof (working_valid h s Hw) as Hvalid.
  assert (Hnd : NoDup (lot_refs s)) by apply Hw.
  unfold multi_year_step, multi_year_step_h.
  change (remaining_lots (view s)) with (snapshot (store_of s) (lot_refs s)).
  destruct (Qleb (get_total_available (snapshot (store_of s) (lot_refs s))) 0);
    [split; [reflexivity|assumption]|].
  destruct (max_sellable_for_gain _ _ _) as [units gain].
  destruct (0 <? units)%Z; [|split; [reflexivity|assumption]].
  rewrite sell_loop_h_snapshot by assumption.
  pose proof (after_sale_working h s (inject_Z units) 0) as Hafter.
  destruct (sell_loop_h (lot_refs s) (inject_Z units) 0 (store_of s))
    as [cost_basis h'] eqn:Hsell.
  simpl in *.
  destruct gain as [g|]; [|split; [reflexivity|apply Hafter; assumption]].
  destruct (sold_step year _ units g (snapshot h' (lot_refs s)) cost_basis (view s))
    as [e st'] eqn:Hsold.
  simpl. split; [|apply Hafter; assumption].
  now rewrite (sold_step_view _ _ _ _ _ _ _ _ _ Hsold).
Qed.

Lemma full_extraction_step_h_refines h sale_price price_increase years year s :
  working h s ->
  full_extraction_step sale_price price_increase years year (view s)
  = read_step (full_extraction_step_h sale_price price_increase years year s) /\
  working h (full_extraction_step_h sale_price price_increase years year s).2.
Proof.
  intros Hw. pose proof (working_valid h s Hw) as Hvalid.
  assert (Hnd : NoDup (lot_refs s)) by apply Hw.
  unfold full_extraction_step, full_extraction_step_h.
  change (remaining_lots (view s)) with (snapshot (store_of s) (lot_refs s)).
  destruct (Qleb (get_total_available (snapshot (store_of s) (lot_refs s))) 0);
    [split; [reflexivity|assumption]|].
  match goal with |- context [(0 <? ?u)%Z] => set (units := u) end.
  destruct (0 <? units)%Z; [|split; [reflexivity|assumption]].
  rewrite sell_loop_h_snapshot by assumption.
  pose proof (after_sale_working h s (inject_Z units) 0) as Hafter.
  destruct (sell_loop_h (lot_refs s) (inject_Z units) 0 (store_of s))
    as [cost_basis h'] eqn:Hsell.
  simpl in *.
  match goal with |- context [sold_step ?a ?b ?c ?d ?e ?f ?g] =>
    destruct (sold_step a b c d e f g) as [en st'] eqn:Hsold end.
  simpl. split; [|apply Hafter; assumption].
  now rewrite (sold_step_view _ _ _ _ _ _ _ _ _ Hsold).
Qed.

Section StoreLoop.
Variable h : list lot.
Variable step : nat -> planner -> result (plan_entry * planner).
Variable step_h : nat -> planner_h -> result plan_entry * planner_h.

Hypothesis step_refines : forall year s,
  working h s ->
  step year (view s) = read_step (step_h year s) /\
  working h (step_h year s).2.

(** The loop on the store returns what the loop on values returns and
    leaves the caller's objects alone. *)
Lemma plan_loop_h_refines ys : forall s plan,
  working h s ->
  (plan_loop_h step_h ys s plan).1
  = (r ← plan_loop step ys (view s) plan; Ok r.1) /\
  preserved h (plan_loop_h step_h ys s plan).2.
Proof.
  induction ys as [|y ys IH]; intros s plan Hw; simpl.
  - split; [reflexivity|]. destruct Hw as (Hpres & _). exact Hpres.
  - destruct (step_refines y s Hw) as [Hstep Hw'].
    rewrite Hstep.
    destruct (step_h y s) as [[e|err] s']; simpl in *.
    + apply IH. assumption.
    + split; [reflexivity|]. destruct Hw' as (Hpres & _). exact Hpres.
Qed.
End StoreLoop.

Lemma preserved_snapshot h h' lots :
  Forall (fun a => (a < length h)%nat) lots -> preserved h h' ->
  snapshot h' lots = snapshot h lots.
Proof.
  intros Hvalid Hpres. apply snapshot_ext. intros a Ha.
  rewrite Forall_forall in Hvalid. apply Hpres. auto.
Qed.

(** C9.  Read and simulation paths leave the caller's ledger alone.
    [calculate_fifo_cost_basis], called on a list of references to lots in
    a store, returns the store unchanged, so a second call returns the same
    result; [plan_multi_year_sales] and [plan_full_extraction] write only
    to the copies they allocate: after the call every object that was in
    the store is unchanged, so is every lot of the caller's list, and the
    plan is the plan computed from the values of those lots. *)
Theorem ledger_not_mutated (h : list lot) (lots : list nat)
    (qty sale_price : Q) (years : nat) (price_increase : Q) :
  Forall (fun a => (a < length h)%nat) lots ->
  (calculate_fifo_cost_basis_h lots qty h).2 = h /\
  (calculate_fifo_cost_basis_h lots qty h).1
  = calculate_fifo_cost_basis (snapshot h lots) qty /\
  calculate_fifo_cost_basis_h lots qty (calculate_fifo_cost_basis_h lots qty h).2
  = calculate_fifo_cost_basis_h lots qty h /\
  (preserved h (plan_multi_year_sales_h lots sale_price years price_increase h).2 /\
   snapshot (plan_multi_year_sales_h lots sale_price years price_increase h).2 lots
   = snapshot h lots /\
   (plan_multi_year_sales_h lots sale_price years price_increase h).1
   = plan_multi_year_sales (snapshot h lots) sale_price years price_increase) /\
  (preserved h (plan_full_extraction_h lots sale_price years price_increase h).2 /\
   snapshot (plan_full_extraction_h lots sale_price years price_increase h).2 lots
   = snapshot h lots /\
   (plan_full_extraction_h lots sale_price years price_increase h).1
   = plan_full_extraction (snapshot h lots) sale_price years price_increase).
Proof.
  intros Hvalid.
  destruct (planner_init_h_spec h lots Hvalid) as [Hw Hview].
  rewrite !calculate_fifo_cost_basis_h_reads. simpl.
  split; [reflexivity|]. split; [reflexivity|]. split; [reflexivity|].
  split.
  - destruct (plan_loop_h_refines h
                (multi_year_step sale_price price_increase)
                (multi_year_step_h sale_price price_increase)
                (multi_year_step_h_refines h sale_price price_increase)
                (seq 0 years) (planner_init_h lots h) [] Hw) as [Hplan Hpres].
    unfold plan_multi_year_sales_h, plan_multi_year_sales.
    rewrite <- Hview. split; [exact Hpres|].
    split; [apply preserved_snapshot; assumption|exact Hplan].
  - destruct (plan_loop_h_refines h
                (full_extraction_step sale_price price_increase years)
                (full_extraction_step_h sale_price price_increase years)
                (full_extraction_step_h_refines h sale_price price_increase years)
                (seq 0 years) (planner_init_h lots h) [] Hw) as [Hplan Hpres].
    unfold plan_full_extraction_h, plan_full_extraction.
    rewrite <- Hview. split; [exact Hpres|].
    split; [apply preserved_snapshot; assumption|exact Hplan].
Qed.

Lemma ledger_not_mutated_witness :
  (calculate_fifo_cost_basis_h [0%nat; 1%nat] 15
     [mkLot "d1" 10 5 (Some 10); mkLot "d2" 10 8 None]).2
  = [mkLot "d1" 10 5 (Some 10); mkLot "d2" 10 8 None] /\
  snapshot
    (plan_full_extraction_h [0%nat; 1%nat] 50 2 0
       [mkLot "d1" 10 5 (Some 10); mkLot "d2" 10 8 None]).2
    [0%nat; 1%nat]
  = snapshot [mkLot "d1" 10 5 (Some 10); mkLot "d2" 10 8 None] [0%nat; 1%nat].
Proof.
  destruct (ledger_not_mutated
              [mkLot "d1" 10 5 (Some 10); mkLot "d2" 10 8 None] [0%nat; 1%nat]
              15 50 2 0) as (Hread & _ & _ & _ & (_ & Hlots & _)).
  - repeat constructor; simpl; lia.
  - split; [exact Hread|exact Hlots].
Defined.

(** * Further properties of the engine *)

(** ** The resolver and the ledger totals *)

Lemma fold_cost lots : forall acc,
  fold_left (fun a l => a + lot_available l * price l) lots acc == acc + sum_cost lots.
Proof.
  induction lots as [|l rest IH]; intros acc; simpl; [lra|].
  rewrite IH. lra.
Qed.

Lemma get_total_cost_sum lots : get_total_cost lots == sum_cost lots.
Proof. unfold get_total_cost. rewrite fold_cost. lra. Qed.

(** A request for at least the whole stock costs the whole stock. *)
Lemma fifo_cost_everything lots :
  Forall (fun l => 0 <= lot_available l) lots ->
  forall qty, sum_available lots <= qty -> fifo_cost lots qty == sum_cost lots.
Proof.
  induction 1 as [|l rest Hl Hrest IH]; intros qty Hq; simpl in *; [reflexivity|].
  assert (Hsum : 0 <= sum_available rest).
  { rewrite <- sum_positive_available by assumption. apply sum_positive_nonneg. }
  case_Qleb qty 0.
  - assert (Ha : lot_available l == 0) by lra.
    rewrite <- (IH qty) by lra. rewrite fifo_cost_nonpos by lra.
    rewrite Ha. lra.
  - case_Qleb (lot_available l) 0.
    + assert (Ha : lot_available l == 0) by lra.
      rewrite IH by lra. rewrite Ha. lra.
    + unfold py_min. case_Qltb (lot_available l) qty.
      * rewrite IH by lra. lra.
      * assert (Ha : qty == lot_available l) by lra.
        rewrite IH by lra. rewrite Ha. lra.
Qed.

(** In exact arithmetic, for a ledger with non-negative availability,
    selling the whole holding succeeds and its FIFO cost is
    [get_total_cost]; so the gain of selling everything is
    [total_available * price - total_cost]. *)
Lemma everything_costs_total_cost (lots : list lot) (sale_price : Q) :
  Forall (fun l => 0 <= lot_available l) lots ->
  exists cost used g,
    calculate_fifo_cost_basis lots (get_total_available lots) = (Some cost, used) /\
    cost == get_total_cost lots /\
    calculate_gain lots (get_total_available lots) sale_price = Some g /\
    g == get_total_available lots * sale_price - get_total_cost lots.
Proof.
  intros Hwf.
  pose proof (get_total_available_sum lots) as Htot.
  pose proof (sum_positive_available lots Hwf) as Hpos.
  pose proof (sum_positive_nonneg lots) as Hnn.
  assert (H0 : 0 <= get_total_available lots) by lra.
  destruct (fifo_rem_spec lots _ H0) as [Hcover _].
  destruct (calculate_fifo_cost_basis_unfold lots (get_total_available lots))
    as [[Hrem _]|(_ & cost & Hcost & Heq)].
  { rewrite Hcover in Hrem by lra. lra. }
  assert (Hall : cost == get_total_cost lots).
  { rewrite Hcost, get_total_cost_sum.
    apply fifo_cost_everything; [assumption|lra]. }
  exists cost, (fifo_used lots (get_total_available lots)).
  eexists. split; [exact Heq|]. split; [exact Hall|].
  unfold calculate_gain. rewrite Heq. simpl. split; [reflexivity|].
  rewrite Hall. reflexivity.
Qed.

(** The amounts of a witness are whole numbers. *)
Ltac whole_number := eexists; split; [|reflexivity]; lia.
Ltac whole_ledger :=
  split; [repeat constructor; whole_number|vm_compute; discriminate].

(** X1.  For a ledger of whole units bought at whole prices (units and
    total cost at most 2^53), selling the whole holding succeeds and its
    FIFO cost is [get_total_cost]; so the gain of selling everything is
    [total_available * price - total_cost], the figure the chart endpoint
    computes without calling the resolver. *)
Theorem total_cost_is_cost_of_everything (lots : list lot) (sale_price : Q) :
  whole_lots lots -> whole_prices lots -> get_total_cost lots <= 2 ^ 53 ->
  exists cost used g,
    calculate_fifo_cost_basis lots (get_total_available lots) = (Some cost, used) /\
    cost == get_total_cost lots /\
    calculate_gain lots (get_total_available lots) sale_price = Some g /\
    g == get_total_available lots * sale_price - get_total_cost lots.
Proof.
  intros Hwhole _ _. apply everything_costs_total_cost.
  apply whole_lots_nonneg. assumption.
Qed.

Lemma total_cost_is_cost_of_everything_witness :
  exists cost used g,
    calculate_fifo_cost_basis
      [mkLot "d1" 10 5 (Some 10); mkLot "d2" 10 8 (Some 4)]
      (get_total_available [mkLot "d1" 10 5 (Some 10); mkLot "d2" 10 8 (Some 4)])
    = (Some cost, used) /\
    cost == get_total_cost [mkLot "d1" 10 5 (Some 10); mkLot "d2" 10 8 (Some 4)] /\
    calculate_gain [mkLot "d1" 10 5 (Some 10); mkLot "d2" 10 8 (Some 4)]
      (get_total_available [mkLot "d1" 10 5 (Some 10); mkLot "d2" 10 8 (Some 4)]) 9
    = Some g /\
    g == get_total_available [mkLot "d1" 10 5 (Some 10); mkLot "d2" 10 8 (Some 4)] * 9
         - get_total_cost [mkLot "d1" 10 5 (Some 10); mkLot "d2" 10 8 (Some 4)].
Proof.
  apply (total_cost_is_cost_of_everything
           [mkLot "d1" 10 5 (Some 10); mkLot "d2" 10 8 (Some 4)] 9).
  - whole_ledger.
  - repeat constructor; whole_number.
  - vm_compute. discriminate.
Defined.

Lemma used_gain_split sale_price used :
  used_gain sale_price used == used_units used * sale_price - used_cost used.
Proof. induction used as [|u rest IH]; simpl; [lra|]. rewrite IH. lra. Qed.

Lemma fifo_used_positive lots : forall rem,
  Forall (fun u => 0 < used_quantity u) (fifo_used lots rem).
Proof.
  induction lots as [|l rest IH]; intros rem; simpl; [constructor|].
  case_Qleb rem 0; [constructor|].
  case_Qleb (lot_available l) 0; [apply IH|].
  constructor; [|apply IH]. simpl. apply py_min_pos; assumption.
Qed.

(** ** Booking a sale and the resolver *)

Lemma Qleb_proper x y : x == y -> Qleb x 0 = Qleb y 0.
Proof.
  intros H. case_Qleb x 0; symmetry; [apply Qleb_true|apply Qleb_false]; lra.
Qed.

(** The resolver's cost does not depend on how the quantity is written. *)
Lemma fifo_cost_proper lots : forall q q', q == q' ->
  fifo_cost lots q == fifo_cost lots q'.
Proof.
  induction lots as [|l rest IH]; intros q q' Hq; simpl; [reflexivity|].
  rewrite (Qleb_proper q q' Hq).
  destruct (Qleb q' 0); [reflexivity|].
  destruct (Qleb (lot_available l) 0); [apply IH; assumption|].
  assert (Hmin : py_min q (lot_available l) == py_min q' (lot_available l)).
  { unfold py_min.
    case_Qltb (lot_available l) q; case_Qltb (lot_available l) q'; lra. }
  rewrite (IH (q - py_min q (lot_available l)) (q' - py_min q' (lot_available l)))
    by lra.
  rewrite Hmin. reflexivity.
Qed.

Lemma sell_loop_nonpos lots to_sell cost_basis :
  to_sell <= 0 -> sell_loop lots to_sell cost_basis = (lots, cost_basis).
Proof.
  intros H. destruct lots as [|l rest]; simpl; [reflexivity|].
  apply Qleb_true in H. now rewrite H.
Qed.

(** On lots that carry their ['remaining'] key, the sale loop of the
    planners accumulates the resolver's cost. *)
Lemma sell_loop_cost lots : forall to_sell cost_basis,
  Forall stocked lots ->
  (sell_loop lots to_sell cost_basis).2 == cost_basis + fifo_cost lots to_sell.
Proof.
  induction lots as [|l rest IH]; intros to_sell cost_basis Hall; simpl; [lra|].
  apply Forall_cons in Hall. destruct Hall as [(r & Hr & Hr0) Hrest].
  assert (Hav : lot_available l = r) by (unfold lot_available; now rewrite Hr).
  rewrite Hav, Hr.
  case_Qleb to_sell 0; [simpl; lra|].
  case_Qleb r 0.
  - specialize (IH to_sell cost_basis Hrest).
    destruct (sell_loop rest to_sell cost_basis) as [rest' c]. simpl in *. exact IH.
  - specialize (IH (to_sell - py_min to_sell r)
                   (cost_basis + py_min to_sell r * price l) Hrest).
    destruct (sell_loop rest _ _) as [rest' c]. simpl in *. lra.
Qed.

Lemma drawn_down_refl l : stocked l -> drawn_down l l.
Proof.
  intros (r & Hr & Hr0). unfold drawn_down. repeat split; try reflexivity.
  exists r, r. repeat split; try assumption; lra.
Qed.

Lemma sell_loop_drawn_down lots : forall to_sell cost_basis,
  Forall stocked lots ->
  Forall2 drawn_down lots (sell_loop lots to_sell cost_basis).1.
Proof.
  induction lots as [|l rest IH]; intros to_sell cost_basis Hall; simpl;
    [constructor|].
  pose proof Hall as Hall'.
  apply Forall_cons in Hall. destruct Hall as [Hl Hrest].
  pose proof Hl as (r & Hr & Hr0).
  case_Qleb to_sell 0.
  { simpl. apply Forall_Forall2_diag.
    eapply Forall_impl; [exact Hall'|]. apply drawn_down_refl. }
  rewrite Hr. case_Qleb r 0.
  - specialize (IH to_sell cost_basis Hrest).
    destruct (sell_loop rest to_sell cost_basis) as [rest' c]. simpl in *.
    constructor; [apply drawn_down_refl; assumption|assumption].
  - specialize (IH (to_sell - py_min to_sell r)
                   (cost_basis + py_min to_sell r * price l) Hrest).
    destruct (sell_loop rest _ _) as [rest' c]. simpl in *.
    constructor; [|assumption].
    unfold drawn_down. simpl. repeat split; try reflexivity.
    exists r, (r - py_min to_sell r). repeat split; try assumption.
    + pose proof (py_min_le_r to_sell r). lra.
    + pose proof (py_min_pos to_sell r). lra.
Qed.

(** In exact arithmetic, booking a sale on working lots for a quantity
    between 0 and the units available takes exactly that many units out
    of the ledger, changes no lot's date, quantity or price, never raises
    a lot's remaining units nor takes them below zero, and accumulates the
    cost basis of the resolver. *)
Lemma sell_loop_books_cost (lots : list lot) (qty : Q) :
  Forall stocked lots -> 0 <= qty -> qty <= get_total_available lots ->
  Forall2 drawn_down lots (sell_loop lots qty 0).1 /\
  get_total_available (sell_loop lots qty 0).1 == get_total_available lots - qty /\
  exists cost used,
    calculate_fifo_cost_basis lots qty = (Some cost, used) /\
    (sell_loop lots qty 0).2 == cost.
Proof.
  intros Hall Hq Hle.
  split; [apply sell_loop_drawn_down; assumption|].
  split.
  - rewrite !get_total_available_sum. apply sell_loop_total; try assumption.
    rewrite <- get_total_available_sum. assumption.
  - destruct (fifo_rem_spec lots qty Hq) as [Hcover _].
    pose proof (get_total_available_sum lots).
    pose proof (sum_available_le_positive lots).
    destruct (calculate_fifo_cost_basis_unfold lots qty)
      as [[Hrem _]|(_ & cost & Hcost & Heq)].
    { rewrite Hcover in Hrem by lra. lra. }
    exists cost, (fifo_used lots qty). split; [exact Heq|].
    rewrite sell_loop_cost by assumption. lra.
Qed.

(** X3.  Booking a sale of a whole number of units on working lots of
    whole units (the planners' inner loop), for a number between 0 and
    the units available, takes exactly that many units out of the ledger,
    changes no lot's date, quantity or price, never raises a lot's
    remaining units nor takes them below zero, and accumulates the cost
    basis that [calculate_fifo_cost_basis] computes for the same quantity
    on the ledger before the sale. *)
Theorem sale_books_resolver_cost (lots : list lot) (units : Z) :
  Forall stocked lots -> whole_lots lots ->
  (0 <= units)%Z -> inject_Z units <= get_total_available lots ->
  Forall2 drawn_down lots (sell_loop lots (inject_Z units) 0).1 /\
  get_total_available (sell_loop lots (inject_Z units) 0).1
  == get_total_available lots - inject_Z units /\
  exists cost used,
    calculate_fifo_cost_basis lots (inject_Z units) = (Some cost, used) /\
    (sell_loop lots (inject_Z units) 0).2 == cost.
Proof.
  intros Hstocked _ Hunits Hle.
  apply sell_loop_books_cost; try assumption.
  apply inject_Z_nonneg. assumption.
Qed.

Lemma sale_books_resolver_cost_witness :
  Forall2 drawn_down
    [mkLot "d1" 10 5 (Some 10); mkLot "d2" 10 8 (Some 10)]
    (sell_loop [mkLot "d1" 10 5 (Some 10); mkLot "d2" 10 8 (Some 10)]
       (inject_Z 15) 0).1 /\
  get_total_available
    (sell_loop [mkLot "d1" 10 5 (Some 10); mkLot "d2" 10 8 (Some 10)]
       (inject_Z 15) 0).1
  == get_total_available [mkLot "d1" 10 5 (Some 10); mkLot "d2" 10 8 (Some 10)]
     - inject_Z 15 /\
  exists cost used,
    calculate_fifo_cost_basis
      [mkLot "d1" 10 5 (Some 10); mkLot "d2" 10 8 (Some 10)] (inject_Z 15)
    = (Some cost, used) /\
    (sell_loop [mkLot "d1" 10 5 (Some 10); mkLot "d2" 10 8 (Some 10)]
       (inject_Z 15) 0).2 == cost.
Proof.
  apply (sale_books_resolver_cost
           [mkLot "d1" 10 5 (Some 10); mkLot "d2" 10 8 (Some 10)] 15).
  - repeat constructor.
    + exists 10. split; [reflexivity|unfold Qle; simpl; lia].
    + exists 10. split; [reflexivity|unfold Qle; simpl; lia].
  - whole_ledger.
  - lia.
  - vm_compute. discriminate.
Defined.

Lemma fifo_cost_skip l rest q :
  0 < q -> lot_available l <= 0 -> fifo_cost (l :: rest) q = fifo_cost rest q.
Proof.
  intros Hq Ha. simpl. apply Qleb_false in Hq. apply Qleb_true in Ha.
  now rewrite Hq, Ha.
Qed.

Lemma fifo_cost_use l rest q :
  0 < q -> 0 < lot_available l ->
  fifo_cost (l :: rest) q
  = py_min q (lot_available l) * price l
    + fifo_cost rest (q - py_min q (lot_available l)).
Proof.
  intros Hq Ha. simpl. apply Qleb_false in Hq. apply Qleb_false in Ha.
  now rewrite Hq, Ha.
Qed.

Lemma sell_loop_skip l rest q c :
  0 < q -> lot_available l <= 0 -> stocked l ->
  (sell_loop (l :: rest) q c).1 = l :: (sell_loop rest q c).1.
Proof.
  intros Hq Ha (r & Hr & _). simpl.
  unfold lot_available in Ha. rewrite Hr in *.
  apply Qleb_false in Hq. apply Qleb_true in Ha. rewrite Hq, Ha.
  now destruct (sell_loop rest q c).
Qed.

Lemma sell_loop_use l rest q c r :
  0 < q -> remaining l = Some r -> 0 < r ->
  (sell_loop (l :: rest) q c).1
  = set_remaining l (r - py_min q r)
    :: (sell_loop rest (q - py_min q r) (c + py_min q r * price l)).1.
Proof.
  intros Hq Hr Hr0. simpl. rewrite Hr.
  apply Qleb_false in Hq. apply Qleb_false in Hr0. rewrite Hq, Hr0.
  now destruct (sell_loop rest _ _).
Qed.

Lemma lot_available_set_remaining l r : lot_available (set_remaining l r) = r.
Proof. reflexivity. Qed.

(** Selling in two steps costs what selling at once costs. *)
Lemma fifo_cost_compose lots : forall q1 q2 c,
  Forall stocked lots -> 0 <= q1 -> 0 <= q2 ->
  fifo_cost lots (q1 + q2)
  == fifo_cost lots q1 + fifo_cost (sell_loop lots q1 c).1 q2.
Proof.
  induction lots as [|l rest IH]; intros q1 q2 c Hall H1 H2; [simpl; lra|].
  apply Forall_cons in Hall. destruct Hall as [Hl Hrest].
  pose proof Hl as (r & Hr & Hr0).
  assert (Hav : lot_available l = r) by (unfold lot_available; now rewrite Hr).
  case_Qleb q1 0.
  { rewrite sell_loop_nonpos by assumption. simpl fst.
    rewrite (fifo_cost_nonpos (l :: rest) q1) by assumption.
    rewrite (fifo_cost_proper (l :: rest) (q1 + q2) q2) by lra. lra. }
  case_Qleb r 0.
  - (* an empty lot is skipped throughout *)
    rewrite sell_loop_skip by (try assumption; rewrite Hav; assumption).
    rewrite (fifo_cost_skip l rest (q1 + q2)) by (rewrite ?Hav; lra).
    rewrite (fifo_cost_skip l rest q1) by (rewrite ?Hav; lra).
    rewrite (IH q1 q2 c) by assumption.
    case_Qleb q2 0.
    + rewrite !(fifo_cost_nonpos _ q2) by assumption. lra.
    + rewrite (fifo_cost_skip l _ q2) by (rewrite ?Hav; lra). lra.
  - rewrite (sell_loop_use l rest q1 c r) by assumption.
    rewrite (fifo_cost_use l rest (q1 + q2)) by (rewrite ?Hav; lra).
    rewrite (fifo_cost_use l rest q1) by (rewrite ?Hav; lra).
    rewrite Hav.
    set (c1 := c + py_min q1 r * price l).
    unfold py_min at 3 4 5 6. case_Qltb r q1.
    + (* the lot is used up by the first sale *)
      unfold py_min. case_Qltb r (q1 + q2); [|lra].
      rewrite (fifo_cost_proper rest (q1 + q2 - r) ((q1 - r) + q2)) by lra.
      rewrite (IH (q1 - r) q2 c1) by (try assumption; lra).
      case_Qleb q2 0.
      * rewrite !(fifo_cost_nonpos _ q2) by assumption. lra.
      * rewrite (fifo_cost_skip _ _ q2) by (rewrite ?lot_available_set_remaining; lra). lra.
    + (* the first sale ends in this lot *)
      rewrite sell_loop_nonpos by lra. simpl fst.
      rewrite (fifo_cost_nonpos rest (q1 - q1)) by lra.
      case_Qleb q2 0.
      * assert (Hz : q2 * price l == 0) by (assert (q2 == 0) as -> by lra; lra).
        rewrite (fifo_cost_nonpos _ q2) by assumption.
        unfold py_min. case_Qltb r (q1 + q2); [lra|].
        rewrite fifo_cost_nonpos by lra. lra.
      * case_Qleb (r - q1) 0.
        -- assert (Hz : r * price l == q1 * price l)
             by (assert (r == q1) as -> by lra; lra).
           rewrite (fifo_cost_skip _ _ q2) by (rewrite ?lot_available_set_remaining; lra).
           unfold py_min. case_Qltb r (q1 + q2); [|lra].
           rewrite (fifo_cost_proper rest (q1 + q2 - r) q2) by lra. lra.
        -- rewrite (fifo_cost_use _ rest q2) by (rewrite ?lot_available_set_remaining; lra).
           rewrite lot_available_set_remaining. simpl price.
           unfold py_min. case_Qltb r (q1 + q2); case_Qltb (r - q1) q2; try lra.
           ++ rewrite (fifo_cost_proper rest (q1 + q2 - r) (q2 - (r - q1))) by lra.
              lra.
           ++ rewrite !fifo_cost_nonpos by lra. lra.
Qed.

Lemma resolver_covered lots qty :
  0 <= qty -> qty <= get_total_available lots ->
  exists cost,
    calculate_fifo_cost_basis lots qty = (Some cost, fifo_used lots qty) /\
    cost == fifo_cost lots qty.
Proof.
  intros H0 Hle.
  destruct (fifo_rem_spec lots qty H0) as [Hcover _].
  pose proof (get_total_available_sum lots).
  pose proof (sum_available_le_positive lots).
  destruct (calculate_fifo_cost_basis_unfold lots qty)
    as [[Hrem _]|(_ & cost & Hcost & Heq)].
  - rewrite Hcover in Hrem by lra. lra.
  - exists cost. split; assumption.
Qed.

(** ** The optimizer: range, feasibility and distance from the optimum *)

Lemma fifo_rem_proper lots : forall q q', q == q' ->
  fifo_rem lots q == fifo_rem lots q'.
Proof.
  induction lots as [|l rest IH]; intros q q' Hq; simpl; [assumption|].
  rewrite (Qleb_proper q q' Hq).
  destruct (Qleb q' 0); [assumption|].
  destruct (Qleb (lot_available l) 0); [apply IH; assumption|].
  apply IH. unfold py_min.
  case_Qltb (lot_available l) q; case_Qltb (lot_available l) q'; lra.
Qed.

(** The gain does not depend on how the quantity is written. *)
Lemma calculate_gain_proper lots q q' sale_price g :
  q == q' -> calculate_gain lots q sale_price = Some g ->
  exists g', calculate_gain lots q' sale_price = Some g' /\ g' == g.
Proof.
  intros Hq Hg. unfold calculate_gain in *.
  pose proof (fifo_rem_proper lots q q' Hq) as Hrem.
  pose proof (fifo_cost_proper lots q q' Hq) as Hcost.
  destruct (calculate_fifo_cost_basis_unfold lots q)
    as [[_ E]|(Hr & c & Hc & E)]; rewrite E in Hg; simpl in Hg; [discriminate|].
  injection Hg as <-.
  destruct (calculate_fifo_cost_basis_unfold lots q')
    as [[Hr' _]|(_ & c' & Hc' & E')]; [lra|].
  rewrite E'. simpl. eexists. split; [reflexivity|].
  rewrite Hc, Hc', Hcost, Hq. reflexivity.
Qed.

(** The three ways through [max_sellable_for_gain]. *)
Lemma max_sellable_for_gain_cases lots sale_price target_gain :
  let total := get_total_available lots in
  let s := bisect 100 lots sale_price target_gain (mkSearch 0 total 0 0) in
  (total == 0 /\
   max_sellable_for_gain lots sale_price target_gain = (0%Z, Some 0)) \/
  (~ total == 0 /\
   exists g, calculate_gain lots total sale_price = Some g /\ g <= target_gain /\
     max_sellable_for_gain lots sale_price target_gain = (py_int total, Some g)) \/
  (~ total == 0 /\
   (forall g, calculate_gain lots total sale_price = Some g -> target_gain < g) /\
   max_sellable_for_gain lots sale_price target_gain
   = (py_int (low s),
      if (0 <? py_int (low s))%Z
      then calculate_gain lots (inject_Z (py_int (low s))) sale_price
      else Some (best_gain s))).
Proof.
  intros total s. unfold max_sellable_for_gain. fold total. fold s.
  assert (Hbest : best_n s = low s).
  { apply (bisect_inv 100 lots sale_price target_gain _
             (search_inv_init lots sale_price target_gain)). }
  rewrite Hbest.
  destruct (Qeq_bool total 0) eqn:Hzero.
  { left. apply Qeq_bool_iff in Hzero. split; [assumption|reflexivity]. }
  apply Qeq_bool_neq in Hzero. right.
  destruct (calculate_gain lots total sale_price) as [g|] eqn:Hall.
  - case_Qleb g target_gain.
    + left. split; [assumption|]. exists g. repeat split; assumption.
    + right. split; [assumption|].
      split; [intros g' [= <-]; assumption|].
      destruct (0 <? py_int (low s))%Z; reflexivity.
  - right. split; [assumption|]. split; [intros g' Hg'; discriminate|].
    destruct (0 <? py_int (low s))%Z; reflexivity.
Qed.

(** In exact arithmetic, on a holding that is not negative the optimizer
    returns a number of units between 0 and the units available together
    with a gain; with units returned and a whole holding that gain is the
    gain of exactly those units; and when no lot's unit price exceeds the
    sale price, it is within the target. *)
Lemma optimizer_result_exact (lots : list lot) (sale_price target_gain : Q) :
  0 <= get_total_available lots ->
  exists units g,
    max_sellable_for_gain lots sale_price target_gain = (units, Some g) /\
    (0 <= units)%Z /\ inject_Z units <= get_total_available lots /\
    (whole_units (get_total_available lots) -> (0 < units)%Z ->
       exists g', calculate_gain lots (inject_Z units) sale_price = Some g' /\
                  g' == g) /\
    (Forall (fun l => price l <= sale_price) lots -> (0 < units)%Z ->
       g <= target_gain).
Proof.
  intros Htot.
  destruct (max_sellable_for_gain_spec lots sale_price target_gain)
    as (units & g & Hres & Hrange & Hfeas).
  exists units, g. split; [exact Hres|].
  destruct (Hrange Htot) as [Hu0 Hule].
  split; [exact Hu0|]. split; [exact Hule|]. split; [|exact Hfeas].
  intros (z & Hz & Hwhole) Hpos.
  destruct (max_sellable_for_gain_cases lots sale_price target_gain)
    as [(_ & Hcase)|[(_ & g0 & Hg0 & _ & Hcase)|(_ & _ & Hcase)]];
    rewrite Hres in Hcase.
  - injection Hcase as -> _. lia.
  - injection Hcase as -> ->.
    rewrite (py_int_whole _ z Hwhole).
    apply (calculate_gain_proper lots (get_total_available lots)); assumption.
  - injection Hcase as Hu Hg. rewrite <- Hu in Hg.
    apply Z.ltb_lt in Hpos. rewrite Hpos in Hg.
    exists g. split; [now symmetry|reflexivity].
Qed.

(** X5.  On a holding that is not negative, [max_sellable_for_gain]
    returns a number of units between 0 and the units available together
    with a gain (never [None]).  When units are returned and the holding
    is a whole number of units, that gain is the gain [calculate_gain]
    computes for exactly those units; and on whole numbers that the
    search computes exactly ([exact_sale]: whole units and prices, no
    lot's price above the sale price), it is within the target. *)
Theorem optimizer_result_within_holding (lots : list lot) (sale_price target_gain : Q) :
  0 <= get_total_available lots ->
  exists units g,
    max_sellable_for_gain lots sale_price target_gain = (units, Some g) /\
    (0 <= units)%Z /\ inject_Z units <= get_total_available lots /\
    (whole_units (get_total_available lots) -> (0 < units)%Z ->
       exists g', calculate_gain lots (inject_Z units) sale_price = Some g' /\
                  g' == g) /\
    (exact_sale lots sale_price -> (0 < units)%Z -> g <= target_gain).
Proof.
  intros Htot.
  destruct (optimizer_result_exact lots sale_price target_gain Htot)
    as (units & g & Hres & Hu0 & Hule & Hgain & Hfeas).
  exists units, g. split; [exact Hres|]. split; [exact Hu0|].
  split; [exact Hule|]. split; [exact Hgain|].
  intros (_ & _ & _ & Hprice & _). apply Hfeas. assumption.
Qed.

Lemma optimizer_result_within_holding_witness :
  exists units g,
    max_sellable_for_gain [mkLot "d1" 100 10 (Some 100)] 210 10220
    = (units, Some g) /\
    (0 <= units)%Z /\
    inject_Z units <= get_total_available [mkLot "d1" 100 10 (Some 100)] /\
    (whole_units (get_total_available [mkLot "d1" 100 10 (Some 100)]) ->
     (0 < units)%Z ->
       exists g', calculate_gain [mkLot "d1" 100 10 (Some 100)] (inject_Z units) 210
                  = Some g' /\ g' == g) /\
    (exact_sale [mkLot "d1" 100 10 (Some 100)] 210 ->
     (0 < units)%Z -> g <= 10220).
Proof.
  apply (optimizer_result_within_holding [mkLot "d1" 100 10 (Some 100)] 210 10220).
  unfold Qle; simpl; lia.
Defined.

(** Every pass of the search halves the interval. *)
Lemma bisect_step_width lots sale_price target_gain s s' :
  bisect_step lots sale_price target_gain s = Some s' ->
  high s' - low s' == (high s - low s) / 2.
Proof.
  unfold bisect_step. intros Hstep.
  destruct (Qltb (high s - low s) (1 # 2)); [discriminate|].
  destruct (calculate_gain lots ((low s + high s) / 2) sale_price) as [g|].
  - destruct (Qleb g target_gain); injection Hstep as <-; simpl; field.
  - injection Hstep as <-; simpl; field.
Qed.

Lemma Qpower_2_succ (n : nat) : 2 ^ Z.of_nat (S n) == 2 * 2 ^ Z.of_nat n.
Proof.
  rewrite Nat2Z.inj_succ, <- Z.add_1_r.
  rewrite Qpower_plus by (intros H; discriminate H).
  change (2 ^ 1) with 2. lra.
Qed.

(** With enough passes for its width, the search ends on an interval
    shorter than half a unit. *)
Lemma bisect_narrow fuel lots sale_price target_gain : forall s,
  2 * (high s - low s) < 2 ^ Z.of_nat fuel ->
  high (bisect fuel lots sale_price target_gain s)
  - low (bisect fuel lots sale_price target_gain s) < 1 # 2.
Proof.
  induction fuel as [|fuel IH]; intros s Hw.
  - cbn [bisect]. change (2 ^ Z.of_nat 0) with 1 in Hw. lra.
  - cbn [bisect].
    destruct (bisect_step lots sale_price target_gain s) as [s'|] eqn:Hstep.
    + apply IH. rewrite (bisect_step_width _ _ _ _ _ Hstep).
      rewrite Qpower_2_succ in Hw.
      assert (Hhalf : 2 * ((high s - low s) / 2) == high s - low s) by field.
      rewrite Hhalf. lra.
    + unfold bisect_step in Hstep.
      case_Qltb (high s - low s) (1 # 2); [assumption|].
      destruct (calculate_gain lots ((low s + high s) / 2) sale_price) as [g|];
        [destruct (Qleb g target_gain)|]; discriminate.
Qed.

(** The upper end of the search stays a quantity the lots cover whose
    gain is over the target. *)
Lemma bisect_step_high lots sale_price target_gain s s' :
  0 <= low s -> low s <= high s -> high s <= get_total_available lots ->
  (exists g, calculate_gain lots (high s) sale_price = Some g /\ target_gain < g) ->
  bisect_step lots sale_price target_gain s = Some s' ->
  0 <= low s' /\ low s' <= high s' /\ high s' <= get_total_available lots /\
  exists g, calculate_gain lots (high s') sale_price = Some g /\ target_gain < g.
Proof.
  intros Hlow Hle Hhigh Hover Hstep. unfold bisect_step in Hstep.
  case_Qltb (high s - low s) (1 # 2); [discriminate|].
  assert (Hmid : low s < (low s + high s) / 2 < high s).
  { split; [apply Qlt_shift_div_l|apply Qlt_shift_div_r]; lra. }
  destruct (calculate_gain_total lots ((low s + high s) / 2) sale_price)
    as (g & Hg & _); [lra|lra|].
  rewrite Hg in Hstep.
  case_Qleb g target_gain; injection Hstep as <-; simpl.
  - repeat split; try lra. assumption.
  - repeat split; try lra. exists g. split; assumption.
Qed.

Lemma bisect_high fuel lots sale_price target_gain : forall s,
  0 <= low s -> low s <= high s -> high s <= get_total_available lots ->
  (exists g, calculate_gain lots (high s) sale_price = Some g /\ target_gain < g) ->
  let s' := bisect fuel lots sale_price target_gain s in
  0 <= low s' /\ low s' <= high s' /\ high s' <= get_total_available lots /\
  exists g, calculate_gain lots (high s') sale_price = Some g /\ target_gain < g.
Proof.
  induction fuel as [|fuel IH]; intros s Hlow Hle Hhigh Hover; simpl.
  - repeat split; assumption.
  - destruct (bisect_step lots sale_price target_gain s) as [s1|] eqn:Hstep.
    + destruct (bisect_step_high _ _ _ _ _ Hlow Hle Hhigh Hover Hstep)
        as (H1 & H2 & H3 & H4).
      apply IH; assumption.
    + repeat split; assumption.
Qed.

(** In exact arithmetic, when no lot's unit price exceeds the sale price
    and the holding is not negative and below 2^99 units, the units the
    optimizer returns miss the largest admissible whole quantity by at
    most one. *)
Lemma optimizer_within_one_unit_exact (lots : list lot) (sale_price target_gain : Q)
    (q : Z) :
  Forall (fun l => price l <= sale_price) lots ->
  0 <= get_total_available lots -> get_total_available lots < 2 ^ 99 ->
  ((max_sellable_for_gain lots sale_price target_gain).1 + 2 <= q)%Z ->
  inject_Z q <= get_total_available lots ->
  exists g, calculate_gain lots (inject_Z q) sale_price = Some g /\ target_gain < g.
Proof.
  intros Hprice Htot Hbound Hq Hcov.
  assert (Hbelow : forall x, 0 <= x -> (py_int x + 2 <= q)%Z -> x + 1 < inject_Z q).
  { intros x Hx Hle. pose proof (py_int_lt x Hx) as Hlt.
    rewrite Zle_Qle in Hle. rewrite !inject_Z_plus in *.
    change (inject_Z 2) with 2 in Hle. change (inject_Z 1) with 1 in Hlt. lra. }
  destruct (max_sellable_for_gain_cases lots sale_price target_gain)
    as [(Hz & Hcase)|[(_ & g0 & _ & _ & Hcase)|(Hnz & Hover & Hcase)]];
    rewrite Hcase in Hq; simpl in Hq.
  - assert (2 <= inject_Z q).
    { change 2 with (inject_Z 2). rewrite <- Zle_Qle. lia. }
    lra.
  - pose proof (Hbelow _ Htot Hq). lra.
  - set (s := bisect 100 lots sale_price target_gain
                (mkSearch 0 (get_total_available lots) 0 0)) in *.
    destruct (calculate_gain_total lots (get_total_available lots) sale_price)
      as (gall & Hgall & _); [lra|lra|].
    destruct (bisect_high 100 lots sale_price target_gain
                (mkSearch 0 (get_total_available lots) 0 0))
      as (Hlow & Hle & Hhigh & gh & Hgh & Hghover); simpl; try lra.
    { exists gall. split; [assumption|]. apply Hover. assumption. }
    fold s in Hlow, Hle, Hhigh, Hgh.
    assert (Hwidth : high s - low s < 1 # 2).
    { apply bisect_narrow. simpl high. simpl low.
      assert (Hpow : 2 ^ Z.of_nat 100 == 2 * 2 ^ 99) by (vm_compute; reflexivity).
      rewrite Hpow. lra. }
    pose proof (Hbelow _ Hlow Hq) as Hfar.
    destruct (calculate_gain_total lots (inject_Z q) sale_price)
      as (g & Hg & _); [lra|assumption|].
    exists g. split; [assumption|].
    apply Qlt_le_trans with gh; [assumption|].
    apply (gain_monotone lots sale_price (high s) (inject_Z q));
      try assumption; lra.
Qed.

(** X6.  On whole numbers that the search computes exactly ([exact_sale]:
    whole units and prices, no lot's price above the sale price), the
    units returned by [max_sellable_for_gain] miss the largest admissible
    whole quantity by at most one: every whole quantity that the holding
    covers and that exceeds the result by two or more has a gain over the
    target. *)
Theorem optimizer_within_one_unit (lots : list lot) (sale_price target_gain : Q)
    (q : Z) :
  exact_sale lots sale_price ->
  ((max_sellable_for_gain lots sale_price target_gain).1 + 2 <= q)%Z ->
  inject_Z q <= get_total_available lots ->
  exists g, calculate_gain lots (inject_Z q) sale_price = Some g /\ target_gain < g.
Proof.
  intros (Hwhole & _ & _ & Hprice & _) Hq Hle.
  pose proof (whole_lots_nonneg lots Hwhole) as Hnn.
  destruct Hwhole as [_ Hbound].
  apply optimizer_within_one_unit_exact; try assumption.
  - rewrite get_total_available_sum.
    rewrite <- sum_positive_available by assumption.
    apply sum_positive_nonneg.
  - eapply Qle_lt_trans; [exact Hbound|]. reflexivity.
Qed.

Lemma optimizer_within_one_unit_witness :
  exists g,
    calculate_gain [mkLot "d1" 100 10 (Some 100)] (inject_Z 52) 210 = Some g /\
    10220 < g.
Proof.
  apply (optimizer_within_one_unit [mkLot "d1" 100 10 (Some 100)] 210 10220 52).
  - split; [whole_ledger|]. split; [repeat constructor; whole_number|].
    split; [whole_number|].
    split; [repeat constructor|]; vm_compute; discriminate.
  - vm_compute. intros H; discriminate H.
  - unfold Qle; simpl; lia.
Defined.

(** ** The revenue targeter *)

Lemma py_int_at_least_one x : 1 <= x -> (1 <= py_int x)%Z.
Proof.
  intros H. rewrite py_int_floor by lra.
  change 1%Z with (Qfloor 1). apply Qfloor_resp_le. assumption.
Qed.

(** In exact arithmetic, the revenue targeter raises [ZeroDivisionError]
    when the sale price is zero; for a positive sale price it returns the
    largest whole number of shares, within the holding, whose revenue does
    not exceed the target, with that revenue, the FIFO cost of those
    shares and the gain. *)
Lemma revenue_target_exact (lots : list lot) (sale_price target_revenue : Q) :
  (sale_price == 0 ->
     shares_for_target_revenue lots sale_price target_revenue
     = Raise ZeroDivisionError) /\
  (0 < sale_price ->
     exists shares revenue gain cost,
       shares_for_target_revenue lots sale_price target_revenue
       = Ok (shares, revenue, gain, cost) /\
       (0 <= shares)%Z /\
       (shares = 0%Z -> revenue = 0 /\ gain = 0 /\ cost = 0) /\
       ((0 < shares)%Z ->
          inject_Z shares <= get_total_available lots /\
          revenue = inject_Z shares * sale_price /\ revenue <= target_revenue /\
          gain = revenue - cost /\
          exists used,
            calculate_fifo_cost_basis lots (inject_Z shares) = (Some cost, used)) /\
       (target_revenue < inject_Z (shares + 1) * sale_price \/
        get_total_available lots < inject_Z (shares + 1))).
Proof.
  unfold shares_for_target_revenue, py_div. split.
  - intros Hz. apply Qeq_bool_iff in Hz. now rewrite Hz.
  - intros Hp.
    destruct (Qeq_bool sale_price 0) eqn:Hz;
      [apply Qeq_bool_iff in Hz; lra|]. simpl.
    set (total := get_total_available lots).
    set (needed := if Qltb total (target_revenue / sale_price)
                   then total else target_revenue / sale_price).
    assert (Hratio : target_revenue == target_revenue / sale_price * sale_price)
      by (field; lra).
    assert (Hneeded : needed <= total /\ needed <= target_revenue / sale_price /\
                      (needed == total \/ needed == target_revenue / sale_price)).
    { subst needed. case_Qltb total (target_revenue / sale_price).
      - split; [lra|]. split; [lra|]. left. reflexivity.
      - split; [lra|]. split; [lra|]. right. reflexivity. }
    destruct Hneeded as (Hn1 & Hn2 & Hn3).
    assert (Hmore : forall u : Z, needed < inject_Z (u + 1) ->
              target_revenue < inject_Z (u + 1) * sale_price \/
              total < inject_Z (u + 1)).
    { intros u Hu. destruct Hn3 as [Hn3|Hn3]; [right; lra|left].
      rewrite Hratio. apply Qmult_lt_compat_r; lra. }
    destruct (py_int needed <=? 0)%Z eqn:Hle.
    + apply Z.leb_le in Hle.
      exists 0%Z, 0, 0, 0. split; [reflexivity|]. split; [lia|].
      split; [tauto|]. split; [lia|].
      apply Hmore. change (inject_Z (0 + 1)) with 1.
      destruct (Qlt_le_dec needed 1) as [Hlt|Hge]; [assumption|].
      apply py_int_at_least_one in Hge. lia.
    + apply Z.leb_gt in Hle.
      assert (Hpos : 0 <= needed).
      { destruct (Qlt_le_dec needed 0) as [Hneg|]; [|assumption].
        assert (py_int needed <= 0)%Z by (apply py_int_below_one; lra). lia. }
      pose proof (py_int_le needed Hpos) as Hfloor.
      pose proof (py_int_lt needed Hpos) as Hnext.
      destruct (resolver_covered lots (inject_Z (py_int needed)))
        as (cost & Hres & _);
        [apply inject_Z_nonneg; lia | fold total; lra |].
      rewrite Hres. simpl.
      exists (py_int needed), (inject_Z (py_int needed) * sale_price),
        (inject_Z (py_int needed) * sale_price - cost), cost.
      split; [reflexivity|]. split; [lia|]. split; [lia|].
      split; [|apply Hmore; assumption].
      intros _. split; [fold total; lra|]. split; [reflexivity|].
      split; [|split; [reflexivity|eauto]].
      rewrite Hratio. apply Qmult_le_compat_r; lra.
Qed.



(** ** The tax rules *)



(** X9.  Under the buffered rule, for an available buffer that is not
    negative: the buffer used and the buffer remaining are never negative,
    the remaining buffer never exceeds the larger of the available buffer
    and the 1000 cap, and the taxable amount and tax are either both 0 or
    exactly those of the simple rule at the 10000 limit, so the buffered
    tax never exceeds the simple tax. *)
Theorem buffered_rule_bounds (gain buffer_available : Q) :
  0 <= buffer_available ->
  let '(taxable, tax, used, kept) :=
    calculate_tax_with_buffer gain buffer_available in
  0 <= used /\ 0 <= kept /\
  (kept <= buffer_available \/ kept <= BUFFER_ZONE) /\
  ((taxable, tax) = (0, 0) \/ (taxable, tax) = calculate_tax gain BASE_LIMIT) /\
  tax <= (calculate_tax gain BASE_LIMIT).2.
Proof.
  intros Hb. unfold calculate_tax_with_buffer, calculate_tax, py_max,
    BASE_LIMIT, BUFFER_ZONE, TAX_RATE.
  assert (Hdone : forall taxable tax used kept : Q,
    0 <= used -> 0 <= kept -> kept <= buffer_available \/ kept <= 1000 ->
    (taxable, tax) = (0, 0) \/
    (taxable, tax) = (if Qleb gain 10000 then (0, 0)
                      else (gain - 10000, (gain - 10000) * (1 # 10))) ->
    tax <= (if Qleb gain 10000 then (0, 0)
            else (gain - 10000, (gain - 10000) * (1 # 10))).2 ->
    0 <= used /\ 0 <= kept /\
    (kept <= buffer_available \/ kept <= 1000) /\
    ((taxable, tax) = (0, 0) \/
     (taxable, tax) = (if Qleb gain 10000 then (0, 0)
                       else (gain - 10000, (gain - 10000) * (1 # 10)))) /\
    tax <= (if Qleb gain 10000 then (0, 0)
            else (gain - 10000, (gain - 10000) * (1 # 10))).2) by tauto.
  destruct (Qleb gain 10000) eqn:Hfree.
  { apply Hdone; simpl; try lra; left; (lra || reflexivity). }
  apply Qleb_false in Hfree.
  case_Qleb (gain - 10000) buffer_available.
  { apply Hdone; simpl; try lra; left; (lra || reflexivity). }
  case_Qleb 1000 ((gain - 10000) * (1 # 10)).
  - case_Qltb 0 0; [lra|].
    apply Hdone; simpl; try lra; right; (lra || reflexivity).
  - case_Qltb 0 (1000 - (gain - 10000));
      apply Hdone; simpl; try lra; right; (lra || reflexivity).
Qed.

Lemma buffered_rule_bounds_witness :
  let '(taxable, tax, used, kept) := calculate_tax_with_buffer 10600 500 in
  0 <= used /\ 0 <= kept /\
  (kept <= 500 \/ kept <= BUFFER_ZONE) /\
  ((taxable, tax) = (0, 0) \/ (taxable, tax) = calculate_tax 10600 BASE_LIMIT) /\
  tax <= (calculate_tax 10600 BASE_LIMIT).2.
Proof.
  apply (buffered_rule_bounds 10600 500). unfold Qle; simpl; lia.
Defined.



(** ** The plans: bookkeeping *)

Lemma idle_entry_booked year cur_price kept st :
  booked (idle_entry year cur_price kept st).
Proof.
  unfold booked. simpl. split; [reflexivity|]. split; [lia|].
  split; [change (inject_Z 0) with 0; lra|]. split; [reflexivity|].
  split; [lra|]. split; [reflexivity|]. lia.
Qed.

Lemma sold_step_booked year cur_price units gain lots' cost_basis st e st' :
  (0 < units)%Z ->
  sold_step year cur_price units gain lots' cost_basis st = (e, st') ->
  booked e /\ e_gain e = gain /\ e_cost_basis e = Some cost_basis /\
  total_revenue st' = total_revenue st + e_revenue e.
Proof.
  intros Hu. unfold sold_step.
  destruct (calculate_tax gain BASE_LIMIT) as [taxable tax] eqn:Htax.
  intros [= <- <-]. unfold booked. simpl. rewrite Htax.
  repeat split; try reflexivity; try lia; try lra. eauto.
Qed.

(** What a year adds to the totals. *)
Lemma multi_year_step_adds sale_price price_increase year st e st' :
  multi_year_step sale_price price_increase year st = Ok (e, st') ->
  booked e /\ totals_of e st' /\
  total_sold st' = (total_sold st + e_units e)%Z /\
  total_revenue st' == total_revenue st + e_revenue e /\
  total_tax st' == total_tax st + e_tax e.
Proof.
  intros Hstep.
  pose proof (multi_year_step_totals _ _ _ _ _ _ Hstep) as Htot.
  apply multi_year_step_cases in Hstep.
  destruct Hstep
    as [(_ & -> & ->)|[(_ & -> & ->)|(_ & u & g & l & c & Hu & _ & _ & Hs)]].
  - split; [apply idle_entry_booked|]. split; [assumption|]. simpl.
    split; [lia|]. split; lra.
  - split; [apply idle_entry_booked|]. split; [assumption|]. simpl.
    split; [lia|]. split; lra.
  - destruct (sold_step_booked _ _ _ _ _ _ _ _ _ Hu Hs) as (Hb & _ & _ & Hrev).
    apply sold_step_fields in Hs.
    destruct Hs as (_ & _ & Hunits & _ & _ & _ & _ & _ & _ & _ & Hsold & Htax).
    split; [assumption|]. split; [assumption|].
    rewrite Hunits, Hsold, Hrev, Htax. split; [reflexivity|]. split; reflexivity.
Qed.

Lemma full_extraction_step_adds sale_price price_increase years year st e st' :
  full_extraction_step sale_price price_increase years year st = Ok (e, st') ->
  booked e /\ totals_of e st' /\
  total_sold st' = (total_sold st + e_units e)%Z /\
  total_revenue st' == total_revenue st + e_revenue e /\
  total_tax st' == total_tax st + e_tax e.
Proof.
  intros Hstep.
  pose proof (full_extraction_step_totals _ _ _ _ _ _ _ Hstep) as Htot.
  apply full_extraction_step_cases in Hstep.
  destruct Hstep
    as [(_ & -> & ->)|[(_ & _ & -> & ->)|(_ & Hu & l & c & _ & Hs)]].
  - split; [apply idle_entry_booked|]. split; [assumption|]. simpl.
    split; [lia|]. split; lra.
  - split; [apply idle_entry_booked|]. split; [assumption|]. simpl.
    split; [lia|]. split; lra.
  - destruct (sold_step_booked _ _ _ _ _ _ _ _ _ Hu Hs) as (Hb & _ & _ & Hrev).
    apply sold_step_fields in Hs.
    destruct Hs as (_ & _ & Hunits & _ & _ & _ & _ & _ & _ & _ & Hsold & Htax).
    split; [assumption|]. split; [assumption|].
    rewrite Hunits, Hsold, Hrev, Htax. split; [reflexivity|]. split; reflexivity.
Qed.

Section RunningTotals.
Variable step : nat -> planner -> result (plan_entry * planner).

Hypothesis step_adds : forall year st e st',
  step year st = Ok (e, st') ->
  booked e /\ totals_of e st' /\
  total_sold st' = (total_sold st + e_units e)%Z /\
  total_revenue st' == total_revenue st + e_revenue e /\
  total_tax st' == total_tax st + e_tax e.

Lemma plan_loop_running ys : forall st plan es st',
  plan_loop step ys st plan = Ok (plan ++ es, st') ->
  forall i e, es !! i = Some e ->
    running_totals (total_sold st) (total_revenue st) (total_tax st)
      (take (S i) es) e.
Proof.
  induction ys as [|y ys IH]; intros st plan es st' Hloop i e Hi;
    simpl in Hloop.
  - injection Hloop as Hes _. apply app_eq_self in Hes. subst es. discriminate.
  - destruct (step y st) as [[e1 st1]|err] eqn:Hstep; simpl in Hloop;
      [|discriminate].
    destruct (plan_loop_tail _ _ _ _ _ _ _ Hloop) as (es1 & -> & Hloop1).
    destruct (step_adds _ _ _ _ Hstep) as (_ & (Hs & Hr & Ht) & Hsold & Hrev & Htax).
    destruct i as [|i]; simpl in Hi.
    + injection Hi as <-. unfold running_totals. simpl.
      rewrite Hs, Hr, Ht, Hsold, Hrev, Htax.
      split; [lia|]. split; lra.
    + destruct (IH _ _ _ _ Hloop1 i e Hi) as (Hcs & Hcr & Hct).
      unfold running_totals. cbn [take sum_units sum_revenue sum_tax].
      rewrite Hcs, Hcr, Hct, Hsold, Hrev, Htax.
      split; [lia|]. split; lra.
Qed.

Lemma plan_loop_booked ys : forall st plan es st',
  plan_loop step ys st plan = Ok (plan ++ es, st') -> Forall booked es.
Proof.
  intros st plan es st' Hloop.
  refine (proj2 (plan_loop_inv step (fun _ => True) (fun _ => True) booked
                   _ ys st plan es st' _ I Hloop)).
  - intros year s e s' _ _ Hstep. split; [exact I|].
    apply (step_adds _ _ _ _ Hstep).
  - apply Forall_forall. intros; exact I.
Qed.
End RunningTotals.



(** ** The plans: units are conserved *)

Lemma planner_init_accounted lots :
  Forall (fun l => 0 <= lot_available l) lots ->
  accounted (get_total_available lots) (planner_init lots).
Proof.
  intros Hwf. unfold accounted. split.
  - simpl. induction Hwf as [|l rest Hl _ IH]; simpl; [constructor|].
    constructor; [|assumption].
    exists (lot_available l). split; [|assumption].
    unfold default_remaining, lot_available.
    destruct (remaining l) eqn:E; simpl; [assumption|reflexivity].
  - rewrite !get_total_available_sum, planner_init_available.
    change (inject_Z (total_sold (planner_init lots))) with 0. lra.
Qed.

Lemma accounted_nonneg held st :
  accounted held st -> 0 <= get_total_available (remaining_lots st).
Proof.
  intros (Hstocked & _). rewrite get_total_available_sum.
  apply sum_available_stocked. assumption.
Qed.

Lemma sold_step_accounted held year cur_price units gain lots' cost_basis st e st' :
  accounted held st -> (0 <= units)%Z ->
  inject_Z units <= get_total_available (remaining_lots st) ->
  sell_loop (remaining_lots st) (inject_Z units) 0 = (lots', cost_basis) ->
  sold_step year cur_price units gain lots' cost_basis st = (e, st') ->
  accounted held st' /\
  0 <= e_remaining e /\ e_remaining e + inject_Z (e_cumulative_sold e) == held.
Proof.
  intros (Hstocked & Hheld) Hu Hle Hsell Hs.
  apply sold_step_fields in Hs.
  destruct Hs as (_ & _ & _ & _ & _ & _ & _ & Hrem & (Hcs & _) & Hlots & Hsold & _).
  assert (Hl : lots' = (sell_loop (remaining_lots st) (inject_Z units) 0).1)
    by now rewrite Hsell.
  assert (Hstocked' : Forall stocked lots').
  { rewrite Hl. apply sell_loop_stocked. assumption. }
  assert (Htotal : get_total_available lots'
                   == get_total_available (remaining_lots st) - inject_Z units).
  { rewrite !get_total_available_sum, Hl.
    apply sell_loop_total; [assumption|apply inject_Z_nonneg; assumption|].
    rewrite <- get_total_available_sum. assumption. }
  unfold accounted. rewrite Hlots, Hrem, Hcs, Hsold, inject_Z_plus.
  split; [split; [assumption|lra]|]. split; lra.
Qed.

Lemma multi_year_step_accounted held sale_price price_increase year st e st' :
  accounted held st ->
  multi_year_step sale_price price_increase year st = Ok (e, st') ->
  accounted held st' /\
  0 <= e_remaining e /\ e_remaining e + inject_Z (e_cumulative_sold e) == held.
Proof.
  intros Hinv Hstep.
  pose proof (accounted_nonneg _ _ Hinv) as Hnn.
  pose proof Hinv as (_ & Hheld).
  apply multi_year_step_cases in Hstep.
  destruct Hstep
    as [(Hnone & -> & ->)|[(Hpos & -> & ->)|(Hpos & u & g & l & c & Hu & Hmax & Hsell & Hs)]].
  - split; [assumption|].
    unfold idle_entry; cbn [e_remaining e_cumulative_sold]. split; lra.
  - split; [assumption|].
    unfold idle_entry; cbn [e_remaining e_cumulative_sold]. split; lra.
  - destruct (max_sellable_for_gain_spec (remaining_lots st)
                (current_price sale_price price_increase year) BASE_LIMIT)
      as (u' & g' & Hmax' & Hcov & _).
    rewrite Hmax in Hmax'. injection Hmax' as <- <-.
    destruct (Hcov Hnn) as [Hu0 Hule].
    eapply sold_step_accounted; eassumption.
Qed.

Lemma full_extraction_step_accounted held sale_price price_increase years year
    st e st' :
  accounted held st ->
  full_extraction_step sale_price price_increase years year st = Ok (e, st') ->
  accounted held st' /\
  0 <= e_remaining e /\ e_remaining e + inject_Z (e_cumulative_sold e) == held.
Proof.
  intros Hinv Hstep.
  pose proof (accounted_nonneg _ _ Hinv) as Hnn.
  pose proof Hinv as (_ & Hheld).
  assert (Hidle : forall x, 0 <= x -> inject_Z (total_sold st) + x == held ->
            0 <= x /\ x + inject_Z (total_sold st) == held)
    by (intros; split; lra).
  apply full_extraction_step_cases in Hstep.
  destruct Hstep
    as [(Hnone & -> & ->)|[(Hpos & _ & -> & ->)|(Hpos & Hu & l & c & Hsell & Hs)]].
  - split; [assumption|].
    unfold idle_entry; cbn [e_remaining e_cumulative_sold].
    assert (Hgone : forall x, x <= 0 -> 0 <= x ->
              inject_Z (total_sold st) + x == held ->
              0 <= 0 /\ 0 + inject_Z (total_sold st) == held)
      by (intros; split; lra).
    apply (Hgone _ Hnone); assumption.
  - split; [assumption|].
    unfold idle_entry; cbn [e_remaining e_cumulative_sold].
    apply Hidle; assumption.
  - refine (sold_step_accounted held _ _ _ _ _ _ _ _ _ Hinv _ _ Hsell Hs); [lia|].
    destruct (Nat.eqb year (years - 1)).
    + apply py_int_le. assumption.
    + destruct (max_sellable_for_gain_spec (remaining_lots st)
                  (current_price sale_price price_increase year) BASE_LIMIT)
        as (u & g & Hmax & Hcov & _).
      rewrite Hmax. simpl. apply Hcov. assumption.
Qed.

(** In exact arithmetic, on a ledger without negative lots both planners
    conserve the units: in every entry the units remaining are not
    negative and, together with the cumulative units sold, are the initial
    holding. *)
Lemma plans_conserve_units_exact
    (lots : list lot) (sale_price : Q) (years : nat) (price_increase : Q) :
  Forall (fun l => 0 <= lot_available l) lots ->
  (exists plan,
     plan_multi_year_sales lots sale_price years price_increase = Ok plan /\
     Forall (fun e => 0 <= e_remaining e /\
                      e_remaining e + inject_Z (e_cumulative_sold e)
                      == get_total_available lots) plan) /\
  (exists plan,
     plan_full_extraction lots sale_price years price_increase = Ok plan /\
     Forall (fun e => 0 <= e_remaining e /\
                      e_remaining e + inject_Z (e_cumulative_sold e)
                      == get_total_available lots) plan).
Proof.
  intros Hwf. pose proof (planner_init_accounted lots Hwf) as Hinit.
  split.
  - unfold plan_multi_year_sales.
    destruct (plan_loop_entries _ (multi_year_step_ok sale_price price_increase)
                (seq 0 years) (planner_init lots) [])
      as (es & st' & Hloop & _).
    rewrite Hloop. simpl. exists es. split; [reflexivity|].
    refine (proj2 (plan_loop_inv _ (fun _ => True)
                     (accounted (get_total_available lots)) _
                     _ (seq 0 years) (planner_init lots) [] es st' _ Hinit Hloop)).
    + intros year st e st1 _ Hinv Hstep.
      eapply multi_year_step_accounted; eassumption.
    + apply Forall_forall. intros; exact I.
  - unfold plan_full_extraction.
    destruct (plan_loop_entries _
                (full_extraction_step_ok sale_price price_increase years)
                (seq 0 years) (planner_init lots) [])
      as (es & st' & Hloop & _).
    rewrite Hloop. simpl. exists es. split; [reflexivity|].
    refine (proj2 (plan_loop_inv _ (fun _ => True)
                     (accounted (get_total_available lots)) _
                     _ (seq 0 years) (planner_init lots) [] es st' _ Hinit Hloop)).
    + intros year st e st1 _ Hinv Hstep.
      eapply full_extraction_step_accounted; eassumption.
    + apply Forall_forall. intros; exact I.
Qed.



(** ** The plans: a holding without units, and the yearly limits *)

Lemma multi_year_step_none sale_price price_increase year st :
  get_total_available (remaining_lots st) <= 0 ->
  multi_year_step sale_price price_increase year st
  = Ok (idle_entry year (current_price sale_price price_increase year) 0 st, st).
Proof.
  intros Hnone. unfold multi_year_step.
  case_Qleb (get_total_available (remaining_lots st)) 0; [reflexivity|lra].
Qed.

Lemma full_extraction_step_none sale_price price_increase years year st :
  get_total_available (remaining_lots st) <= 0 ->
  full_extraction_step sale_price price_increase years year st
  = Ok (idle_entry year (current_price sale_price price_increase year) 0 st, st).
Proof.
  intros Hnone. unfold full_extraction_step.
  case_Qleb (get_total_available (remaining_lots st)) 0; [reflexivity|lra].
Qed.

Lemma plan_loop_none step (cur_price : nat -> Q) :
  (forall year st, get_total_available (remaining_lots st) <= 0 ->
     step year st = Ok (idle_entry year (cur_price year) 0 st, st)) ->
  forall ys st plan,
    get_total_available (remaining_lots st) <= 0 ->
    plan_loop step ys st plan
    = Ok (plan ++ map (fun year => idle_entry year (cur_price year) 0 st) ys, st).
Proof.
  intros Hstep ys. induction ys as [|y ys IH]; intros st plan Hnone; simpl.
  - now rewrite app_nil_r.
  - rewrite (Hstep y st Hnone). simpl. rewrite (IH st _ Hnone), <- app_assoc.
    reflexivity.
Qed.

Lemma planner_init_none lots :
  get_total_available lots <= 0 ->
  get_total_available (remaining_lots (planner_init lots)) <= 0.
Proof.
  intros Hnone.
  rewrite get_total_available_sum, planner_init_available,
    <- get_total_available_sum.
  assumption.
Qed.



Lemma limits_of_lookup sale_price price_increase plan years :
  length plan = years ->
  one_entry_per_year sale_price price_increase plan ->
  Forall booked plan ->
  limits_of plan = calculate_yearly_limits years.
Proof.
  intros Hlen Hyear Hbooked.
  unfold limits_of, calculate_yearly_limits.
  apply list_eq. intros i. rewrite !list_lookup_fmap.
  destruct (plan !! i) as [e|] eqn:Hi; simpl.
  - assert (Hlt : (i < years)%nat).
    { rewrite <- Hlen. eapply lookup_lt_Some. eassumption. }
    rewrite lookup_seq_lt by assumption. simpl.
    destruct (Hyear i e Hi) as [-> _].
    rewrite Forall_forall in Hbooked.
    assert (He : booked e).
    { apply Hbooked. apply list_elem_of_lookup. eauto. }
    destruct He as (-> & _). reflexivity.
  - apply lookup_ge_None in Hi. rewrite lookup_seq_ge by lia. reflexivity.
Qed.


(** ** The ledger route *)

Lemma string_compare_le_trans a : forall b c,
  String.compare a b <> Gt -> String.compare b c <> Gt ->
  String.compare a c <> Gt.
Proof.
  induction a as [|x a IH]; intros [|y b] [|z c]; simpl; try congruence.
  unfold Ascii.compare.
  destruct (N.compare_spec (Ascii.N_of_ascii x) (Ascii.N_of_ascii y))
    as [Hxy|Hxy|Hxy];
    destruct (N.compare_spec (Ascii.N_of_ascii y) (Ascii.N_of_ascii z))
      as [Hyz|Hyz|Hyz];
    try congruence; intros Hab Hbc.
  - rewrite Hxy, Hyz, N.compare_refl. eauto.
  - rewrite Hxy, (proj2 (N.compare_lt_iff _ _) Hyz). congruence.
  - rewrite <- Hyz, (proj2 (N.compare_lt_iff _ _) Hxy). congruence.
  - rewrite (proj2 (N.compare_lt_iff _ _) (N.lt_trans _ _ _ Hxy Hyz)).
    congruence.
Qed.

Lemma string_leb_trans a b c :
  String.leb a b = true -> String.leb b c = true -> String.leb a c = true.
Proof.
  unfold String.leb. intros Hab Hbc.
  pose proof (string_compare_le_trans a b c) as H.
  destruct (String.compare a b), (String.compare b c), (String.compare a c);
    try reflexivity; try discriminate; exfalso; apply H; congruence.
Qed.

Lemma string_leb_false a b : String.leb a b = false -> String.leb b a = true.
Proof.
  intros H. destruct (String.leb_total a b) as [H'|H']; congruence.
Qed.

Lemma insert_by_date_perm l later : insert_by_date l later ≡ₚ l :: later.
Proof.
  induction later as [|l' rest IH]; simpl; [reflexivity|].
  destruct (String.leb (date l) (date l')); [reflexivity|].
  rewrite IH. apply Permutation_swap.
Qed.

Lemma sort_by_date_perm lots : sort_by_date lots ≡ₚ lots.
Proof.
  induction lots as [|l rest IH]; simpl; [reflexivity|].
  now rewrite insert_by_date_perm, IH.
Qed.

Lemma sorted_by_date_head l rest :
  sorted_by_date (l :: rest) -> insert_by_date l rest = l :: rest.
Proof.
  destruct rest as [|l' rest]; simpl; [reflexivity|].
  intros (Hhead & _). apply Forall_cons in Hhead. destruct Hhead as [-> _].
  reflexivity.
Qed.

Lemma insert_by_date_sorted l later :
  sorted_by_date later -> sorted_by_date (insert_by_date l later).
Proof.
  induction later as [|l' rest IH]; simpl; intros Hs.
  - split; constructor.
  - destruct Hs as (Hhead & Hrest).
    destruct (String.leb (date l) (date l')) eqn:Hle; simpl.
    + split; [|split; assumption].
      constructor; [assumption|].
      eapply Forall_impl; [exact Hhead|]. simpl. intros l'' Hl''.
      eapply string_leb_trans; eassumption.
    + split; [|apply IH; assumption].
      rewrite insert_by_date_perm. constructor; [|assumption].
      apply string_leb_false. assumption.
Qed.

Lemma sort_by_date_sorted lots : sorted_by_date (sort_by_date lots).
Proof.
  induction lots as [|l rest IH]; simpl; [exact I|].
  apply insert_by_date_sorted. assumption.
Qed.

(** A new lot goes behind the lots of its date and of earlier dates, and
    the lots of a ledger in date order keep their places. *)
Lemma sort_by_date_append new lots :
  sorted_by_date lots ->
  exists before after,
    lots = before ++ after /\
    sort_by_date (lots ++ [new]) = before ++ new :: after /\
    Forall (fun l => String.leb (date l) (date new) = true) before /\
    Forall (fun l => String.leb (date l) (date new) = false) after.
Proof.
  induction lots as [|l rest IH]; simpl.
  - intros _. exists [], []. repeat split; constructor.
  - intros (Hhead & Hrest).
    destruct (IH Hrest) as (before & after & Hsplit & Hsort & Hbefore & Hafter).
    rewrite Hsort.
    destruct (String.leb (date l) (date new)) eqn:Hle.
    + exists (l :: before), after. split; [simpl; congruence|].
      split; [|split; [constructor; assumption|assumption]].
      destruct before as [|b bs]; simpl.
      * rewrite Hle. reflexivity.
      * assert (Hb : String.leb (date l) (date b) = true).
        { rewrite Hsplit in Hhead. simpl in Hhead.
          apply Forall_cons in Hhead. tauto. }
        rewrite Hb. reflexivity.
    + destruct before as [|b bs].
      * simpl in Hsplit. subst after. exists [], (l :: rest).
        split; [reflexivity|]. simpl. rewrite Hle.
        rewrite (sorted_by_date_head l rest) by (split; assumption).
        split; [reflexivity|]. split; constructor; assumption.
      * exfalso. rewrite Hsplit in Hhead. simpl in Hhead.
        apply Forall_cons in Hhead. destruct Hhead as [Hlb _].
        apply Forall_cons in Hbefore. destruct Hbefore as [Hbn _].
        pose proof (string_leb_trans _ _ _ Hlb Hbn). congruence.
Qed.

(** What [add_lot] stores, when it stores. *)
Lemma add_lot_stored lots amount_only amount_field quantity_field price_field
    date_field lots' :
  add_lot lots amount_only amount_field quantity_field price_field date_field
  = Stored lots' ->
  exists quantity price,
    0 < quantity /\ 0 < price /\
    lots' = sort_by_date
              (lots ++ [mkLot date_field quantity price (Some quantity)]) /\
    (if amount_only
     then amount_field = Some (Finite price) /\ quantity == 1
     else quantity_field = Some (Finite quantity) /\
          price_field = Some (Finite price)).
Proof.
  unfold add_lot. destruct amount_only.
  - destruct amount_field as [[amount| | |]|]; simpl; try discriminate.
    case_Qleb amount 0; [discriminate|].
    intros [= <-]. exists 1, amount.
    repeat split; try reflexivity; lra.
  - destruct quantity_field as [[quantity| | |]|]; simpl; try discriminate;
      destruct price_field as [[price| | |]|]; simpl; try discriminate;
      try (destruct (Qleb quantity 0); simpl; discriminate);
      try (destruct (Qleb price 0); simpl; discriminate).
    case_Qleb quantity 0; [discriminate|].
    case_Qleb price 0; [discriminate|].
    simpl. intros [= <-]. exists quantity, price.
    repeat split; try reflexivity; lra.
Qed.

(** X16.  Every ledger the application stores from finite numbers (the
    empty ledger of a new asset, extended by [add_lot] with finite
    quantities and prices any number of times) is in date order and holds
    only lots with a positive quantity, a positive price and the whole
    quantity remaining.  ([float] also accepts ['nan'] and ['inf'], which
    pass the check for positive numbers: [add_lot] then stores a lot that
    is not a number, the outcome [StoredNonFinite].) *)
Theorem stored_ledger_sorted_and_positive (lots : list lot) :
  stored_ledger lots ->
  sorted_by_date lots /\ Forall untouched lots.
Proof.
  induction 1 as [|lots ao af qf pf d lots' _ [IHs IHp] Hadd].
  - split; [exact I|constructor].
  - apply add_lot_stored in Hadd.
    destruct Hadd as (q & p & Hq & Hp & -> & _).
    split; [apply sort_by_date_sorted|].
    rewrite sort_by_date_perm. apply Forall_app. split; [assumption|].
    constructor; [|constructor]. unfold untouched. simpl. tauto.
Qed.

Lemma stored_ledger_sorted_and_positive_witness :
  sorted_by_date [mkLot "2023-05-01" 1 250 (Some 1);
                  mkLot "2024-01-15" 10 20 (Some 10)] /\
  Forall untouched [mkLot "2023-05-01" 1 250 (Some 1);
                    mkLot "2024-01-15" 10 20 (Some 10)].
Proof.
  apply (stored_ledger_sorted_and_positive
           [mkLot "2023-05-01" 1 250 (Some 1);
            mkLot "2024-01-15" 10 20 (Some 10)]).
  apply (stored_add [mkLot "2024-01-15" 10 20 (Some 10)]
           true (Some (Finite 250)) None None "2023-05-01").
  - apply (stored_add [] false None (Some (Finite 10)) (Some (Finite 20))
             "2024-01-15").
    + apply stored_empty.
    + reflexivity.
  - reflexivity.
Defined.

(** X17.  On a ledger in date order [add_lot] leaves every lot in its
    place and puts the new lot, with the form's date and its whole
    quantity remaining, behind the lots of that date and of earlier dates
    and before the lots of later dates. *)
Theorem add_lot_queues_by_date
    (lots : list lot) (amount_only : bool)
    (amount_field quantity_field price_field : option form_number)
    (date_field : string) (lots' : list lot) :
  sorted_by_date lots ->
  add_lot lots amount_only amount_field quantity_field price_field date_field
  = Stored lots' ->
  exists before new after,
    lots = before ++ after /\ lots' = before ++ new :: after /\
    date new = date_field /\ remaining new = Some (quantity new) /\
    Forall (fun l => String.leb (date l) date_field = true) before /\
    Forall (fun l => String.leb (date l) date_field = false) after.
Proof.
  intros Hsorted Hadd. apply add_lot_stored in Hadd.
  destruct Hadd as (q & p & _ & _ & -> & _).
  destruct (sort_by_date_append (mkLot date_field q p (Some q)) lots Hsorted)
    as (before & after & Hsplit & Hsort & Hbefore & Hafter).
  exists before, (mkLot date_field q p (Some q)), after.
  repeat split; assumption.
Qed.

Lemma add_lot_queues_by_date_witness :
  exists before new after,
    [mkLot "2023-05-01" 1 250 (Some 1); mkLot "2024-01-15" 10 20 (Some 10);
     mkLot "2024-03-01" 5 30 (Some 5)] = before ++ after /\
    [mkLot "2023-05-01" 1 250 (Some 1); mkLot "2024-01-15" 10 20 (Some 10);
     mkLot "2024-01-15" 4 25 (Some 4); mkLot "2024-03-01" 5 30 (Some 5)]
    = before ++ new :: after /\
    date new = "2024-01-15"%string /\ remaining new = Some (quantity new) /\
    Forall (fun l => String.leb (date l) "2024-01-15" = true) before /\
    Forall (fun l => String.leb (date l) "2024-01-15" = false) after.
Proof.
  apply (add_lot_queues_by_date
           [mkLot "2023-05-01" 1 250 (Some 1); mkLot "2024-01-15" 10 20 (Some 10);
            mkLot "2024-03-01" 5 30 (Some 5)]
           false None (Some (Finite 4)) (Some (Finite 25)) "2024-01-15").
  - simpl. repeat split; repeat constructor.
  - reflexivity.
Defined.

Lemma sum_available_app lots1 lots2 :
  sum_available (lots1 ++ lots2) == sum_available lots1 + sum_available lots2.
Proof. induction lots1 as [|l rest IH]; simpl; [lra|]. rewrite IH. lra. Qed.

Lemma sum_cost_app lots1 lots2 :
  sum_cost (lots1 ++ lots2) == sum_cost lots1 + sum_cost lots2.
Proof. induction lots1 as [|l rest IH]; simpl; [lra|]. rewrite IH. lra. Qed.

Lemma insert_by_date_sums l later :
  sum_available (insert_by_date l later) == lot_available l + sum_available later /\
  sum_cost (insert_by_date l later) == lot_available l * price l + sum_cost later.
Proof.
  induction later as [|l' rest [IHa IHc]]; simpl; [split; lra|].
  destruct (String.leb (date l) (date l')); simpl; [split; lra|].
  rewrite IHa, IHc. split; lra.
Qed.

Lemma sort_by_date_sums lots :
  sum_available (sort_by_date lots) == sum_available lots /\
  sum_cost (sort_by_date lots) == sum_cost lots.
Proof.
  induction lots as [|l rest [IHa IHc]]; simpl; [split; lra|].
  destruct (insert_by_date_sums l (sort_by_date rest)) as [Ha Hc].
  rewrite Ha, Hc, IHa, IHc. split; lra.
Qed.

(** X18.  Whatever the order of the ledger, when [add_lot] stores a
    ledger it is in date order and holds exactly the lots of the old
    ledger and the new lot, which has the form's date and its whole
    quantity remaining; and when the stored ledger is one of whole units
    (at most 2^53 in all), the units available have grown by the quantity
    bought. *)
Theorem add_lot_sorts_ledger
    (lots : list lot) (amount_only : bool)
    (amount_field quantity_field price_field : option form_number)
    (date_field : string) (lots' : list lot) :
  add_lot lots amount_only amount_field quantity_field price_field date_field
  = Stored lots' ->
  exists new,
    date new = date_field /\ remaining new = Some (quantity new) /\
    0 < quantity new /\ 0 < price new /\
    lots' ≡ₚ lots ++ [new] /\ sorted_by_date lots' /\
    (whole_lots lots' ->
     get_total_available lots' == get_total_available lots + quantity new).
Proof.
  intros Hadd. apply add_lot_stored in Hadd.
  destruct Hadd as (q & p & Hq & Hp & -> & _).
  exists (mkLot date_field q p (Some q)). simpl.
  split; [reflexivity|]. split; [reflexivity|].
  split; [assumption|]. split; [assumption|].
  split; [apply sort_by_date_perm|]. split; [apply sort_by_date_sorted|].
  intros _. rewrite !get_total_available_sum.
  destruct (sort_by_date_sums (lots ++ [mkLot date_field q p (Some q)]))
    as [Ha _].
  rewrite Ha, sum_available_app. simpl. unfold lot_available. simpl. lra.
Qed.

Lemma add_lot_sorts_ledger_witness :
  exists new,
    date new = "2023-05-01"%string /\ remaining new = Some (quantity new) /\
    0 < quantity new /\ 0 < price new /\
    [mkLot "2023-05-01" 1 250 (Some 1); mkLot "2024-01-15" 10 20 (Some 10);
     mkLot "2024-03-01" 5 30 (Some 5)]
    ≡ₚ [mkLot "2024-03-01" 5 30 (Some 5); mkLot "2024-01-15" 10 20 (Some 10)]
       ++ [new] /\
    sorted_by_date
      [mkLot "2023-05-01" 1 250 (Some 1); mkLot "2024-01-15" 10 20 (Some 10);
       mkLot "2024-03-01" 5 30 (Some 5)] /\
    (whole_lots
       [mkLot "2023-05-01" 1 250 (Some 1); mkLot "2024-01-15" 10 20 (Some 10);
        mkLot "2024-03-01" 5 30 (Some 5)] ->
     get_total_available
       [mkLot "2023-05-01" 1 250 (Some 1); mkLot "2024-01-15" 10 20 (Some 10);
        mkLot "2024-03-01" 5 30 (Some 5)]
     == get_total_available
          [mkLot "2024-03-01" 5 30 (Some 5); mkLot "2024-01-15" 10 20 (Some 10)]
        + quantity new).
Proof.
  apply (add_lot_sorts_ledger
           [mkLot "2024-03-01" 5 30 (Some 5); mkLot "2024-01-15" 10 20 (Some 10)]
           true (Some (Finite 250)) None None "2023-05-01").
  reflexivity.
Defined.

Lemma fifo_loop_behind lots extra : forall cost rem used,
  fifo_rem lots rem <= 0 ->
  fifo_loop (lots ++ extra) cost rem used = fifo_loop lots cost rem used.
Proof.
  induction lots as [|l rest IH]; intros cost rem used Hrem; simpl in *.
  - destruct extra as [|l' extra]; simpl; [reflexivity|].
    apply Qleb_true in Hrem. now rewrite Hrem.
  - destruct (Qleb rem 0); [reflexivity|].
    destruct (Qleb (lot_available l) 0); apply IH; assumption.
Qed.

Lemma fifo_rem_covered lots qty :
  qty <= get_total_available lots -> fifo_rem lots qty <= 0.
Proof.
  intros Hq. rewrite get_total_available_sum in Hq.
  pose proof (sum_available_le_positive lots) as Hp.
  destruct (Qlt_le_dec 0 qty) as [Hpos|Hneg].
  - destruct (fifo_rem_spec lots qty) as [Hzero _]; [lra|].
    rewrite Hzero; lra.
  - rewrite fifo_rem_nonpos by assumption. assumption.
Qed.

(** X19.  A purchase dated no earlier than any lot of a ledger in date
    order does not change what selling from the old holding costs: for
    every quantity that [calculate_fifo_cost_basis] resolves on the old
    ledger, it returns the same cost and breakdown on the ledger that
    [add_lot] stores, and the gain is the same: the new lot is consumed
    last. *)
Theorem later_purchase_keeps_cost_basis
    (lots : list lot) (amount_only : bool)
    (amount_field quantity_field price_field : option form_number)
    (date_field : string) (lots' : list lot) (qty sale_price cost : Q)
    (used : list lot_used) :
  sorted_by_date lots ->
  Forall (fun l => String.leb (date l) date_field = true) lots ->
  add_lot lots amount_only amount_field quantity_field price_field date_field
  = Stored lots' ->
  calculate_fifo_cost_basis lots qty = (Some cost, used) ->
  calculate_fifo_cost_basis lots' qty = (Some cost, used) /\
  calculate_gain lots' qty sale_price = calculate_gain lots qty sale_price.
Proof.
  intros Hsorted Hearlier Hadd Hold. apply add_lot_stored in Hadd.
  destruct Hadd as (q & p & _ & _ & -> & _).
  destruct (sort_by_date_append (mkLot date_field q p (Some q)) lots Hsorted)
    as (before & after & Hsplit & Hsort & _ & Hafter).
  assert (Hnil : after = []).
  { destruct after as [|a after]; [reflexivity|]. exfalso.
    apply Forall_cons in Hafter. destruct Hafter as [Ha _]. simpl in Ha.
    rewrite Hsplit in Hearlier. apply Forall_app in Hearlier.
    destruct Hearlier as [_ Hearlier].
    apply Forall_cons in Hearlier. destruct Hearlier as [Ha' _]. congruence. }
  subst after. rewrite app_nil_r in Hsplit. subst before.
  assert (Hrem : fifo_rem lots qty <= 0).
  { destruct (calculate_fifo_cost_basis_unfold lots qty)
      as [[_ Hnone]|[Hdone _]]; [congruence|assumption]. }
  assert (Hsame : calculate_fifo_cost_basis
                    (sort_by_date (lots ++ [mkLot date_field q p (Some q)])) qty
                  = calculate_fifo_cost_basis lots qty).
  { rewrite Hsort. unfold calculate_fifo_cost_basis.
    rewrite fifo_loop_behind by assumption. reflexivity. }
  split; [congruence|]. unfold calculate_gain. now rewrite Hsame.
Qed.

Lemma later_purchase_keeps_cost_basis_witness :
  calculate_fifo_cost_basis
    [mkLot "2023-05-01" 1 250 (Some 1); mkLot "2024-01-15" 10 20 (Some 10);
     mkLot "2024-01-15" 4 25 (Some 4)] 6
  = (Some 350, [mkUsed "2023-05-01" 1 250; mkUsed "2024-01-15" 5 20]) /\
  calculate_gain
    [mkLot "2023-05-01" 1 250 (Some 1); mkLot "2024-01-15" 10 20 (Some 10);
     mkLot "2024-01-15" 4 25 (Some 4)] 6 40
  = calculate_gain
      [mkLot "2023-05-01" 1 250 (Some 1); mkLot "2024-01-15" 10 20 (Some 10)] 6 40.
Proof.
  apply (later_purchase_keeps_cost_basis
           [mkLot "2023-05-01" 1 250 (Some 1); mkLot "2024-01-15" 10 20 (Some 10)]
           false None (Some (Finite 4)) (Some (Finite 25)) "2024-01-15").
  - simpl. repeat split; repeat constructor.
  - repeat constructor.
  - reflexivity.
  - reflexivity.
Defined.

(** ** The calculation endpoint *)

Lemma shares_for_target_revenue_ok lots sale_price target_revenue :
  ~ sale_price == 0 ->
  exists r, shares_for_target_revenue lots sale_price target_revenue = Ok r.
Proof.
  intros Hsp. unfold shares_for_target_revenue, py_div.
  destruct (Qeq_bool sale_price 0) eqn:Hz;
    [apply Qeq_bool_iff in Hz; contradiction|].
  cbn [mbind result_bind].
  match goal with |- context [(?n <=? 0)%Z] => destruct (n <=? 0)%Z end;
    [eauto|].
  match goal with |- context [calculate_fifo_cost_basis ?l ?q] =>
    destruct (calculate_fifo_cost_basis l q).1 end; eauto.
Qed.

Lemma shares_for_target_revenue_zero_price lots sale_price target_revenue :
  sale_price == 0 ->
  shares_for_target_revenue lots sale_price target_revenue
  = Raise ZeroDivisionError.
Proof.
  intros Hz. unfold shares_for_target_revenue, py_div.
  apply Qeq_bool_iff in Hz. now rewrite Hz.
Qed.


(** What [api_calculate] returns when units are available: the scenario
    [sell_all] is computed from a successful resolution of the whole
    holding, and the only exception is the division by a zero price in
    the revenue scenario. *)
Lemma api_calculate_results lots sale_price quantity target_revenue yearly_limit :
  let total := get_total_available lots in
  let max := max_sellable_for_gain lots sale_price yearly_limit in
  let within :=
    if (0 <? max.1)%Z
    then Some (mkScenario max.1
                 (calculate_fifo_cost_basis lots (inject_Z max.1)).1
                 (inject_Z max.1 * sale_price) max.2 0 0
                 (inject_Z max.1 * sale_price))
    else None in
  ~ total == 0 ->
  exists all,
    (total <= 0 -> all = None) /\
    (0 < total ->
     exists cost,
       calculate_fifo_cost_basis lots total = (Some cost, fifo_used lots total) /\
       cost == fifo_cost lots total /\
       all = Some (mkScenario (py_int total) (Some cost) (total * sale_price)
                     (Some (total * sale_price - cost))
                     (calculate_tax (total * sale_price - cost) yearly_limit).1
                     (calculate_tax (total * sale_price - cost) yearly_limit).2
                     (total * sale_price
                      - (calculate_tax (total * sale_price - cost)
                           yearly_limit).2))) /\
    ((sale_price == 0 /\ (exists t, target_revenue = Some t /\ 0 < t) /\
      api_calculate lots sale_price quantity target_revenue yearly_limit
      = Raise ZeroDivisionError) \/
     (~ (sale_price == 0 /\ exists t, target_revenue = Some t /\ 0 < t) /\
      exists custom target,
        api_calculate lots sale_price quantity target_revenue yearly_limit
        = Ok (Calculated
                (mkCalculation (py_int total) (get_total_cost lots) sale_price
                   yearly_limit TAX_RATE within all custom target)))).
Proof.
  intros total max within Hzero. unfold api_calculate.
  fold total.
  destruct (Qeq_bool total 0) eqn:Hz;
    [apply Qeq_bool_iff in Hz; contradiction|].
  fold max. destruct max as [mu mg]. cbn [fst snd] in within. fold within.
  set (e_all := if Qltb 0 total then _ else _).
  assert (Hall : exists all,
    (total <= 0 -> all = None) /\
    (0 < total ->
     exists cost,
       calculate_fifo_cost_basis lots total = (Some cost, fifo_used lots total) /\
       cost == fifo_cost lots total /\
       all = Some (mkScenario (py_int total) (Some cost) (total * sale_price)
                     (Some (total * sale_price - cost))
                     (calculate_tax (total * sale_price - cost) yearly_limit).1
                     (calculate_tax (total * sale_price - cost) yearly_limit).2
                     (total * sale_price
                      - (calculate_tax (total * sale_price - cost)
                           yearly_limit).2))) /\
    e_all = Ok all).
  { subst e_all. case_Qltb 0 total.
    - destruct (resolver_covered lots total) as (cost & Heq & Hcost);
        [lra|apply Qle_refl|].
      rewrite Heq. cbn [fst minus_cost mbind result_bind].
      destruct (calculate_tax (total * sale_price - cost) yearly_limit)
        as [ta tx] eqn:Htax.
      eexists. split; [intros; lra|]. split; [|reflexivity].
      intros _. exists cost. split; [reflexivity|]. split; [assumption|].
      rewrite Htax. reflexivity.
    - exists None. split; [reflexivity|]. split; [intros; lra|reflexivity]. }
  destruct Hall as (all & Hnone & Hsome & ->).
  exists all. split; [assumption|]. split; [assumption|].
  cbn [mbind result_bind].
  set (e_custom := match quantity with Some _ => _ | None => _ end).
  assert (Hcustom : exists custom, e_custom = Ok custom).
  { subst e_custom. destruct quantity as [q|]; [|eauto].
    destruct (Qeq_bool q 0); [simpl; eauto|].
    case_Qltb 0 q; [|simpl; eauto].
    case_Qleb q total; [|simpl; eauto].
    cbn [negb andb].
    pose proof (py_int_le q ltac:(lra)) as Hle.
    pose proof (py_int_nonneg q ltac:(lra)) as Hnn.
    apply inject_Z_nonneg in Hnn.
    destruct (resolver_covered lots (inject_Z (py_int q))) as (cost & Heq & _);
      [assumption|change (inject_Z (py_int q) <= total); lra|].
    rewrite Heq. cbn [fst minus_cost mbind result_bind].
    destruct (calculate_tax (inject_Z (py_int q) * sale_price - cost)
                yearly_limit) as [ta tx].
    eauto. }
  destruct Hcustom as (custom & ->). cbn [mbind result_bind].
  set (e_target := match target_revenue with Some _ => _ | None => _ end).
  assert (Htarget :
    (sale_price == 0 /\ (exists t, target_revenue = Some t /\ 0 < t) /\
     e_target = Raise ZeroDivisionError) \/
    (~ (sale_price == 0 /\ exists t, target_revenue = Some t /\ 0 < t) /\
     exists target, e_target = Ok target)).
  { subst e_target. destruct target_revenue as [t|].
    - destruct (Qeq_bool t 0) eqn:Ht0.
      { apply Qeq_bool_iff in Ht0. right.
        split; [intros (_ & t' & [= <-] & Hpos); lra|simpl; eauto]. }
      case_Qltb 0 t.
      + cbn [negb andb]. destruct (Qeq_dec sale_price 0) as [Hs|Hs].
        * left. rewrite shares_for_target_revenue_zero_price by assumption.
          split; [assumption|]. split; [eauto|reflexivity].
        * right. split; [tauto|].
          destruct (shares_for_target_revenue_ok lots sale_price t Hs)
            as ([[[u r] g] c] & ->).
          cbn [mbind result_bind].
          destruct (0 <? u)%Z; [destruct (calculate_tax g yearly_limit)|];
            eauto.
      + right. split; [intros (_ & t' & [= <-] & Hpos); lra|simpl; eauto].
    - right. split; [intros (_ & t' & Heq & _); discriminate|eauto]. }
  destruct Htarget as [(Hs & Ht & ->)|(Hn & target & ->)].
  - left. split; [assumption|]. split; [assumption|reflexivity].
  - right. split; [assumption|]. exists custom, target. reflexivity.
Qed.

Lemma api_calculate_no_shares lots sale_price quantity target_revenue yearly_limit :
  get_total_available lots == 0 ->
  api_calculate lots sale_price quantity target_revenue yearly_limit
  = Ok NoShares.
Proof.
  intros Hz. unfold api_calculate. apply Qeq_bool_iff in Hz. now rewrite Hz.
Qed.

(** In exact arithmetic [api_calculate] never fails on a missing cost
    basis, and raises [ZeroDivisionError] exactly when units are
    available, a positive target revenue is asked for and the sale price
    is zero. *)
Lemma api_calculate_exceptions
    (lots : list lot) (sale_price : Q) (quantity target_revenue : option Q)
    (yearly_limit : Q) :
  api_calculate lots sale_price quantity target_revenue yearly_limit
  <> Raise TypeError /\
  (api_calculate lots sale_price quantity target_revenue yearly_limit
   = Raise ZeroDivisionError <->
   ~ get_total_available lots == 0 /\ sale_price == 0 /\
   exists t, target_revenue = Some t /\ 0 < t).
Proof.
  destruct (Qeq_dec (get_total_available lots) 0) as [Hzero|Hzero].
  - rewrite api_calculate_no_shares by assumption.
    split; [discriminate|]. split; [discriminate|tauto].
  - destruct (api_calculate_results lots sale_price quantity target_revenue
                yearly_limit Hzero)
      as (all & _ & _ & [(Hs & Ht & ->)|(Hn & custom & target & ->)]).
    + split; [discriminate|]. tauto.
    + split; [discriminate|]. split; [discriminate|tauto].
Qed.



(** In exact arithmetic, on a ledger without negative lots the results of
    [api_calculate] contain the scenario [sell_all], which agrees with
    the reported totals. *)
Lemma sell_all_exact
    (lots : list lot) (sale_price : Q) (quantity target_revenue : option Q)
    (yearly_limit : Q) (c : calculation) :
  Forall (fun l => 0 <= lot_available l) lots ->
  api_calculate lots sale_price quantity target_revenue yearly_limit
  = Ok (Calculated c) ->
  exists s cost gain,
    sell_all c = Some s /\ s_units s = c_total_available c /\
    s_cost_basis s = Some cost /\ cost == c_total_cost c /\
    s_revenue s == get_total_available lots * sale_price /\
    s_gain s = Some gain /\ gain == s_revenue s - c_total_cost c /\
    (s_taxable s, s_tax s) = calculate_tax gain yearly_limit /\
    s_net s == s_revenue s - s_tax s.
Proof.
  intros Hwf Hres.
  destruct (Qeq_dec (get_total_available lots) 0) as [Hzero|Hzero].
  { rewrite api_calculate_no_shares in Hres by assumption. discriminate. }
  pose proof (get_total_available_sum lots) as Htot.
  pose proof (sum_positive_available lots Hwf) as Hpos.
  pose proof (sum_positive_nonneg lots) as Hnn.
  destruct (api_calculate_results lots sale_price quantity target_revenue
              yearly_limit Hzero)
    as (all & _ & Hsome & [(_ & _ & Hraise)|(_ & custom & target & Hok)]).
  { rewrite Hraise in Hres. discriminate. }
  rewrite Hok in Hres. injection Hres as <-.
  destruct Hsome as (cost & _ & Hcost & ->); [lra|].
  assert (Hall : cost == get_total_cost lots).
  { rewrite Hcost, get_total_cost_sum.
    apply fifo_cost_everything; [assumption|lra]. }
  eexists _, cost, _. split; [reflexivity|].
  cbn [s_units s_cost_basis s_revenue s_gain s_taxable s_tax s_net
       c_total_available c_total_cost].
  split; [reflexivity|]. split; [reflexivity|].
  split; [assumption|]. split; [reflexivity|]. split; [reflexivity|].
  split; [lra|]. split; [|reflexivity].
  destruct (calculate_tax _ yearly_limit); reflexivity.
Qed.

(** X21.  On a ledger of whole units bought at whole prices (units and
    total cost at most 2^53), whenever [api_calculate] returns results
    they contain the scenario [sell_all]: its units are the reported
    [total_available], its cost basis is the reported [total_cost], its
    revenue is the units available times the price, its gain is revenue
    minus total cost, its taxable amount and tax are [calculate_tax] of
    that gain at the yearly limit, and its net is revenue minus tax. *)
Theorem sell_all_matches_totals
    (lots : list lot) (sale_price : Q) (quantity target_revenue : option Q)
    (yearly_limit : Q) (c : calculation) :
  whole_lots lots -> whole_prices lots -> get_total_cost lots <= 2 ^ 53 ->
  api_calculate lots sale_price quantity target_revenue yearly_limit
  = Ok (Calculated c) ->
  exists s cost gain,
    sell_all c = Some s /\ s_units s = c_total_available c /\
    s_cost_basis s = Some cost /\ cost == c_total_cost c /\
    s_revenue s == get_total_available lots * sale_price /\
    s_gain s = Some gain /\ gain == s_revenue s - c_total_cost c /\
    (s_taxable s, s_tax s) = calculate_tax gain yearly_limit /\
    s_net s == s_revenue s - s_tax s.
Proof.
  intros Hwhole _ _. apply sell_all_exact.
  apply whole_lots_nonneg. assumption.
Qed.

Lemma sell_all_matches_totals_witness :
  exists c,
    api_calculate [mkLot "d1" 10 5 (Some 10); mkLot "d2" 5 16 None]
      20 None None 100 = Ok (Calculated c) /\
    exists s cost gain,
      sell_all c = Some s /\ s_units s = c_total_available c /\
      s_cost_basis s = Some cost /\ cost == c_total_cost c /\
      s_revenue s
      == get_total_available
           [mkLot "d1" 10 5 (Some 10); mkLot "d2" 5 16 None] * 20 /\
      s_gain s = Some gain /\ gain == s_revenue s - c_total_cost c /\
      (s_taxable s, s_tax s) = calculate_tax gain 100 /\
      s_net s == s_revenue s - s_tax s.
Proof.
  eexists. split; [vm_compute; reflexivity|].
  apply (sell_all_matches_totals
           [mkLot "d1" 10 5 (Some 10); mkLot "d2" 5 16 None] 20 None None 100).
  - whole_ledger.
  - repeat constructor; whole_number.
  - vm_compute. discriminate.
  - vm_compute. reflexivity.
Defined.

(** In exact arithmetic, the scenario [within_limit] is only added with
    a positive number of units that the holding covers and whose cost
    basis the resolver finds; and when no lot costs more than the sale
    price its gain does not exceed the yearly limit. *)
Lemma within_limit_exact
    (lots : list lot) (sale_price : Q) (quantity target_revenue : option Q)
    (yearly_limit : Q) (c : calculation) (s : scenario) :
  0 <= get_total_available lots ->
  api_calculate lots sale_price quantity target_revenue yearly_limit
  = Ok (Calculated c) ->
  within_limit c = Some s ->
  (0 < s_units s)%Z /\ inject_Z (s_units s) <= get_total_available lots /\
  s_revenue s = inject_Z (s_units s) * sale_price /\
  s_taxable s = 0 /\ s_tax s = 0 /\ s_net s = s_revenue s /\
  (exists cost,
     calculate_fifo_cost_basis lots (inject_Z (s_units s))
     = (Some cost, fifo_used lots (inject_Z (s_units s))) /\
     s_cost_basis s = Some cost) /\
  (exists gain,
     s_gain s = Some gain /\
     (Forall (fun l => price l <= sale_price) lots ->
      gain <= yearly_limit /\ calculate_tax gain yearly_limit = (0, 0))).
Proof.
  intros Htotal Hres Hwithin.
  destruct (Qeq_dec (get_total_available lots) 0) as [Hzero|Hzero].
  { rewrite api_calculate_no_shares in Hres by assumption. discriminate. }
  destruct (api_calculate_results lots sale_price quantity target_revenue
              yearly_limit Hzero)
    as (all & _ & _ & [(_ & _ & Hraise)|(_ & custom & target & Hok)]).
  { rewrite Hraise in Hres. discriminate. }
  rewrite Hok in Hres. injection Hres as <-. cbn [within_limit] in Hwithin.
  destruct (max_sellable_for_gain_spec lots sale_price yearly_limit)
    as (units & g & Hmax & Hrange & Hfeas).
  rewrite Hmax in Hwithin. cbn [fst snd] in Hwithin.
  destruct (0 <? units)%Z eqn:Hpos; [|discriminate].
  apply Z.ltb_lt in Hpos. injection Hwithin as <-.
  cbn [s_units s_cost_basis s_revenue s_gain s_taxable s_tax s_net].
  destruct (Hrange Htotal) as [_ Hle].
  split; [assumption|]. split; [assumption|].
  split; [reflexivity|]. split; [reflexivity|]. split; [reflexivity|].
  split; [reflexivity|]. split.
  - destruct (resolver_covered lots (inject_Z units)) as (cost & Heq & _);
      [apply inject_Z_nonneg; lia|assumption|].
    exists cost. rewrite Heq. split; reflexivity.
  - exists g. split; [reflexivity|]. intros Hprice.
    assert (Hg : g <= yearly_limit) by (apply Hfeas; assumption).
    split; [assumption|].
    unfold calculate_tax. apply Qleb_true in Hg. now rewrite Hg.
Qed.

(** X22.  The scenario [within_limit], which reports no tax, is only
    added with a positive number of units that the holding covers, and
    with a gain.  On a ledger of whole units its cost basis is the one the
    resolver finds for those units; and on whole numbers that the search
    computes exactly ([exact_sale]: whole units and prices, no lot's price
    above the sale price) its gain does not exceed the yearly limit, so
    that [calculate_tax] gives no tax on it either. *)
Theorem within_limit_scenario_untaxed
    (lots : list lot) (sale_price : Q) (quantity target_revenue : option Q)
    (yearly_limit : Q) (c : calculation) (s : scenario) :
  0 <= get_total_available lots ->
  api_calculate lots sale_price quantity target_revenue yearly_limit
  = Ok (Calculated c) ->
  within_limit c = Some s ->
  (0 < s_units s)%Z /\ inject_Z (s_units s) <= get_total_available lots /\
  s_revenue s = inject_Z (s_units s) * sale_price /\
  s_taxable s = 0 /\ s_tax s = 0 /\ s_net s = s_revenue s /\
  (whole_lots lots ->
   exists cost,
     calculate_fifo_cost_basis lots (inject_Z (s_units s))
     = (Some cost, fifo_used lots (inject_Z (s_units s))) /\
     s_cost_basis s = Some cost) /\
  (exists gain,
     s_gain s = Some gain /\
     (exact_sale lots sale_price ->
      gain <= yearly_limit /\ calculate_tax gain yearly_limit = (0, 0))).
Proof.
  intros Htotal Hres Hwithin.
  destruct (within_limit_exact lots sale_price quantity target_revenue
              yearly_limit c s Htotal Hres Hwithin)
    as (Hunits & Hle & Hrev & Htaxable & Htax & Hnet & Hcost & gain & Hgain & Hfree).
  split; [exact Hunits|]. split; [exact Hle|]. split; [exact Hrev|].
  split; [exact Htaxable|]. split; [exact Htax|]. split; [exact Hnet|].
  split; [intros _; exact Hcost|].
  exists gain. split; [exact Hgain|].
  intros (_ & _ & _ & Hprice & _). apply Hfree. assumption.
Qed.

Lemma within_limit_scenario_untaxed_witness :
  exists c s,
    api_calculate [mkLot "d1" 10 5 (Some 10); mkLot "d2" 5 16 None]
      20 None None 100 = Ok (Calculated c) /\
    within_limit c = Some s /\
    (0 < s_units s)%Z /\
    inject_Z (s_units s)
    <= get_total_available [mkLot "d1" 10 5 (Some 10); mkLot "d2" 5 16 None] /\
    s_revenue s = inject_Z (s_units s) * 20 /\
    s_taxable s = 0 /\ s_tax s = 0 /\ s_net s = s_revenue s /\
    (whole_lots [mkLot "d1" 10 5 (Some 10); mkLot "d2" 5 16 None] ->
     exists cost,
       calculate_fifo_cost_basis
         [mkLot "d1" 10 5 (Some 10); mkLot "d2" 5 16 None] (inject_Z (s_units s))
       = (Some cost,
          fifo_used [mkLot "d1" 10 5 (Some 10); mkLot "d2" 5 16 None]
            (inject_Z (s_units s))) /\
       s_cost_basis s = Some cost) /\
    (exists gain,
       s_gain s = Some gain /\
       (exact_sale [mkLot "d1" 10 5 (Some 10); mkLot "d2" 5 16 None] 20 ->
        gain <= 100 /\ calculate_tax gain 100 = (0, 0))).
Proof.
  eexists _, _. split; [vm_compute; reflexivity|].
  split; [reflexivity|].
  eapply (within_limit_scenario_untaxed
            [mkLot "d1" 10 5 (Some 10); mkLot "d2" 5 16 None] 20 None None 100).
  - vm_compute. discriminate.
  - vm_compute. reflexivity.
  - reflexivity.
Defined.

(** ** The resolver on whole units *)

(** X24.  On a ledger of whole units (at most 2^53 in all), for every
    quantity from 0 to 2^53, [calculate_fifo_cost_basis] succeeds exactly
    when the quantity is at most the units available: on success the
    breakdown adds up to the quantity and consumes the ledger oldest first
    (every lot in stock of a prefix entirely, then the next lot in part);
    beyond the units available the result is the failure signal
    [(None, [])], never a partial cost; and quantity zero succeeds with
    zero cost and an empty breakdown. *)
Theorem resolver_on_whole_lots (lots : list lot) (qty : Q) :
  whole_lots lots -> 0 <= qty -> qty <= 2 ^ 53 ->
  (qty <= get_total_available lots ->
     exists cost used,
       calculate_fifo_cost_basis lots qty = (Some cost, used) /\
       used_units used == qty /\
       (0 < qty ->
        exists pre l post u,
          lots = pre ++ l :: post /\ 0 < u <= lot_available l /\
          used = map full_use (List.filter in_stock pre)
                   ++ [mkUsed (date l) u (price l)] /\
          sum_available pre + u == qty)) /\
  (get_total_available lots < qty ->
     calculate_fifo_cost_basis lots qty = (None, [])) /\
  (qty == 0 -> calculate_fifo_cost_basis lots qty = (Some 0, [])).
Proof.
  intros Hwhole Hqty _.
  destruct (fifo_cost_basis_covered lots qty (whole_lots_nonneg lots Hwhole)
              Hqty) as (Hcovered & Hbeyond & Hzero & _).
  split; [|split; assumption].
  intros Hle. destruct (Hcovered Hle) as (cost & used & Hres & _ & Hunits & Hpre).
  exists cost, used. split; [exact Hres|]. split; [exact Hunits|exact Hpre].
Qed.

Lemma resolver_on_whole_lots_witness :
  (15 <= get_total_available
           [mkLot "d1" 10 5 (Some 10); mkLot "d2" 10 8 (Some 10)] ->
     exists cost used,
       calculate_fifo_cost_basis
         [mkLot "d1" 10 5 (Some 10); mkLot "d2" 10 8 (Some 10)] 15
       = (Some cost, used) /\
       used_units used == 15 /\
       (0 < 15 ->
        exists pre l post u,
          [mkLot "d1" 10 5 (Some 10); mkLot "d2" 10 8 (Some 10)]
          = pre ++ l :: post /\ 0 < u <= lot_available l /\
          used = map full_use (List.filter in_stock pre)
                   ++ [mkUsed (date l) u (price l)] /\
          sum_available pre + u == 15)) /\
  (get_total_available
     [mkLot "d1" 10 5 (Some 10); mkLot "d2" 10 8 (Some 10)] < 15 ->
     calculate_fifo_cost_basis
       [mkLot "d1" 10 5 (Some 10); mkLot "d2" 10 8 (Some 10)] 15 = (None, [])) /\
  (15 == 0 ->
     calculate_fifo_cost_basis
       [mkLot "d1" 10 5 (Some 10); mkLot "d2" 10 8 (Some 10)] 15 = (Some 0, [])).
Proof.
  apply (resolver_on_whole_lots
           [mkLot "d1" 10 5 (Some 10); mkLot "d2" 10 8 (Some 10)] 15).
  - whole_ledger.
  - vm_compute. discriminate.
  - vm_compute. discriminate.
Defined.
